(** * Geometric SMOTE

    A shallow embedding of [imbtools/algorithms/geometric_smote.py]: the
    geometric sampler [_make_geometric_sample], the batch generator
    [_make_geometric_samples] and the resampling pass
    [GeometricSMOTE._sample], with the properties of the specification that
    concern them.

    Conventions of the embedding.
    - A float64 is a real number or one of the IEEE special values
      ([+inf], [-inf], [nan]): arithmetic on finite values is exact (rounding
      is not modelled), the special values follow IEEE 754 as numpy does.
      Properties that rounding breaks are not properties of the code: the
      sampler is embedded a second time on binary64 values
      ([_make_geometric_sample_binary64], on the kernel's primitive
      floating-point numbers), where the operations round as the hardware
      does, and what fails there is stated as failing.
    - A numpy [RandomState] is a value of an abstract type of generator
      states; every draw returns the drawn values and the advanced state.
    - A Python exception is a value of [exn]; code that may raise returns a
      [result].

    The file also embeds the two helpers of
    [sklearnext/model_selection/search.py] that rewrite the parameter
    dictionaries of a grid search, [ModelSearchCV._split_est_name] and
    [ModelSearchCV._modify_grid_search_attrs]: a dictionary is the list of
    its items in insertion order, and their exceptions are values of
    [search_exn]. *)

From Stdlib Require Import PrimFloat FloatOps SpecFloat.
From Stdlib Require Import Ascii String.
From Stdlib Require Import Reals Lra Lia List ZArith Bool Arith.
Import ListNotations.

(** ** Exceptions and results *)

Inductive value_error : Type :=
| Unknown_kind (kind : string)   (* raised by [_validate_estimator] *)
| Low_ge_high                    (* [RandomState.randint] with [high <= low] *)
| Seed_out_of_bounds             (* [RandomState(seed)] *)
| Shape_mismatch                 (* numpy broadcasting and stacking *)
| Library (msg : string).        (* raised inside an external collaborator *)

Inductive exn : Type :=
| ValueError (v : value_error)
| ZeroDivisionError
| IndexError
| AttributeError
| NotFittedError
| UnboundLocalError.

Inductive result (A : Type) : Type :=
| Ok (a : A)
| Raise (e : exn).

Arguments Ok {A} a.
Arguments Raise {A} e.

(** ** Floating-point values *)

Inductive float : Type :=
| Fin (r : R)
| PInf
| NInf
| NaN.

Definition inf (positive : bool) : float := if positive then PInf else NInf.

Open Scope R_scope.

(** [x + y] on float64 in the exact reading: the sum of two finite values
    is their real sum, without rounding or overflow. *)
Definition fadd (x y : float) : float :=
  match x, y with
  | NaN, _ | _, NaN => NaN
  | PInf, NInf | NInf, PInf => NaN
  | PInf, _ | _, PInf => PInf
  | NInf, _ | _, NInf => NInf
  | Fin a, Fin b => Fin (a + b)
  end.

(** [(+-inf) * y]. *)
Definition inf_mul (positive : bool) (y : float) : float :=
  match y with
  | NaN => NaN
  | PInf => inf positive
  | NInf => inf (negb positive)
  | Fin b => if Rlt_dec 0 b then inf positive
             else if Rlt_dec b 0 then inf (negb positive)
             else NaN
  end.

(** [x * y] on float64 in the exact reading: the product of two finite
    values is their real product, without rounding, overflow or underflow. *)
Definition fmul (x y : float) : float :=
  match x, y with
  | NaN, _ | _, NaN => NaN
  | PInf, _ => inf_mul true y
  | NInf, _ => inf_mul false y
  | _, PInf => inf_mul true x
  | _, NInf => inf_mul false x
  | Fin a, Fin b => Fin (a * b)
  end.

(** [a / b] on finite float64 values, as numpy divides: [0/0] is [nan]
    and [a/0] an infinity (a warning, not an exception). *)
Definition np_divide (a b : R) : float :=
  if Req_dec_T b 0 then
    if Req_dec_T a 0 then NaN else inf (if Rlt_dec 0 a then true else false)
  else Fin (a / b).

(** [x ** e] on finite float64 values (C's [pow]) in the exact reading:
    the real power, without rounding. *)
Definition np_power (x e : R) : float :=
  if Req_dec_T e 0 then Fin 1
  else if Rlt_dec 0 x then Fin (Rpower x e)
  else if Req_dec_T x 0 then (if Rlt_dec 0 e then Fin 0 else PInf)
  else if Req_dec_T (frac_part e) 0 then Fin (powerRZ x (Int_part e))
  else NaN.

(** Python's true division of two non-negative integers, [a / b]. *)
Definition py_truediv (a b : nat) : result R :=
  if (b =? 0)%nat then Raise ZeroDivisionError else Ok (INR a / INR b).

(** [numpy.linalg.norm] on a one-dimensional array: [sqrt(dot(x, x))]. *)
Definition dot (x y : list R) : R :=
  fold_right Rplus 0 (map (fun p => fst p * snd p) (combine x y)).

Definition norm (x : list R) : R := sqrt (dot x x).

(** Element-wise difference of two real vectors. *)
Definition vsub (x y : list R) : list R :=
  map (fun p => fst p - snd p) (combine x y).

(** ** One-dimensional arrays: numpy's and scipy's *)

(** [X[row]] is a one-dimensional [ndarray] when [X] is dense and a
    [1 x n] sparse matrix, kept as its stored (column, value) entries, when
    [X] is sparse. *)
Inductive array1 : Type :=
| ndarray1 (v : list float)
| sparse_row (ncols : nat) (stored : list (nat * float)).

(** [center.size]: the number of elements of an [ndarray], the number of
    stored entries of a sparse matrix. *)
Definition size (center : array1) : nat :=
  match center with
  | ndarray1 v => length v
  | sparse_row _ stored => length stored
  end.

(** The outcome of a call into an external library: the message of the
    error it raises, or its value. *)
Definition library (A : Type) : Type := (string + A)%type.

Definition of_library {A : Type} (r : library A) : result A :=
  match r with
  | inl msg => Raise (ValueError (Library msg))
  | inr a => Ok a
  end.

(** What scipy does with a sparse operand is not part of the repository and
    depends on its version: it is taken as given. *)
Class ScipyRow : Type := {
  (** [center + v] for a sparse [1 x n] matrix [center] and a dense [v] *)
  sparse_add_dense : nat -> list (nat * float) -> list float -> library (list float)
}.

(** [a + b] on one-dimensional ndarrays, with numpy's broadcasting. *)
Definition np_add (a b : list float) : result (list float) :=
  if (length a =? length b)%nat then
    Ok (map (fun p => fadd (fst p) (snd p)) (combine a b))
  else if (length b =? 1)%nat then Ok (map (fun x => fadd x (hd NaN b)) a)
  else if (length a =? 1)%nat then Ok (map (fun y => fadd (hd NaN a) y) b)
  else Raise (ValueError Shape_mismatch).

(** [center + v] for a dense [v]. *)
Definition add_center `{ScipyRow} (center : array1) (v : list float)
  : result (list float) :=
  match center with
  | ndarray1 c => np_add c v
  | sparse_row n stored => of_library (sparse_add_dense n stored v)
  end.

(** ** Random generators *)

(** The methods of [numpy.random.RandomState] the module calls. *)
Class RandomState (rng : Type) : Type := {
  (** [RandomState(seed)] *)
  seeded : Z -> rng;
  (** [.normal(size=n)] *)
  normal : nat -> rng -> list R * rng;
  (** [.uniform(size=1)], its only entry *)
  uniform : rng -> R * rng;
  (** [.randint(low=0, high=high, size=n)] for [0 < high] *)
  randint : nat -> nat -> rng -> list nat * rng
}.

(** What numpy documents of them. *)
Class RandomStateSpec (rng : Type) `{RandomState rng} : Prop := {
  normal_size : forall n g, length (fst (normal n g)) = n;
  uniform_range : forall g, 0 <= fst (uniform g) < 1;
  randint_size : forall high n g, length (fst (randint high n g)) = n;
  randint_range : forall high n g, (0 < high)%nat ->
    Forall (fun i => (i < high)%nat) (fst (randint high n g))
}.

(** ** The geometric sampler *)

Section Sampler.

Context {rng : Type} `{RandomState rng} `{ScipyRow}.

(** [_make_geometric_sample(center, radius, random_state)], lines 20-25,
    where [random_state] is the generator [check_random_state] returns.
    The second component is the generator after the two draws. *)
Definition _make_geometric_sample (center : array1) (radius : float)
  (random_state : rng) : result (list float) * rng :=
  let (normal_samples, g1) := normal (size center) random_state in
  let on_sphere :=
    map (fun x => np_divide x (norm normal_samples)) normal_samples in
  let (u, g2) := uniform g1 in
  match py_truediv 1 (size center) with
  | Raise e => (Raise e, g2)
  | Ok e =>
      let in_ball := map (fmul (np_power u e)) on_sphere in
      (add_center center (map (fmul radius) in_ball), g2)
  end.

End Sampler.

(** ** The geometric sampler on binary64

    The same six lines on the numbers the code computes with: every
    operation rounds to the nearest binary64 value, as the kernel's
    primitive floating-point operations do. *)

Definition float64 : Type := PrimFloat.float.

(** [float(n)] for a size. *)
Definition float64_of_nat (n : nat) : float64 :=
  PrimFloat.of_uint63 (Uint63Axioms.of_Z (Z.of_nat n)).

(** The real number a finite binary64 value stands for (0 for [nan] and
    the infinities). *)
Definition real_of_float64 (x : float64) : R :=
  match Prim2SF x with
  | S754_finite negative m e =>
      let mantissa := IZR (if negative then Z.neg m else Z.pos m) in
      if (0 <=? e)%Z then mantissa * IZR (2 ^ e) else mantissa / IZR (2 ^ (- e))
  | _ => 0
  end.

(** A [RandomState] as a source of binary64 values. *)
Class RandomState64 (rng : Type) : Type := {
  (** [random_state.normal(size=n)] *)
  normal64 : nat -> rng -> list float64 * rng;
  (** [random_state.uniform(size=1)] *)
  uniform64 : rng -> float64 * rng
}.

(** C's [pow], which numpy's [**] calls and the kernel does not provide. *)
Class Libm : Type := {
  pow64 : float64 -> float64 -> float64
}.

(** [numpy.linalg.norm] on a one-dimensional array: [sqrt(dot(x, x))], the
    products summed from the left (on one entry, the product itself). *)
Definition norm64 (x : list float64) : float64 :=
  PrimFloat.sqrt
    (fold_left (fun sum a => PrimFloat.add sum (PrimFloat.mul a a)) x
       0%float).

(** [a + b] on one-dimensional binary64 arrays, with numpy's broadcasting. *)
Definition np_add64 (a b : list float64) : result (list float64) :=
  if (length a =? length b)%nat then
    Ok (map (fun p => PrimFloat.add (fst p) (snd p)) (combine a b))
  else if (length b =? 1)%nat then
    Ok (map (fun x => PrimFloat.add x (hd PrimFloat.nan b)) a)
  else if (length a =? 1)%nat then
    Ok (map (fun y => PrimFloat.add (hd PrimFloat.nan a) y) b)
  else Raise (ValueError Shape_mismatch).

Section SamplerBinary64.

Context {rng : Type} `{RandomState64 rng} `{Libm}.

(** [_make_geometric_sample(center, radius, random_state)], lines 20-25, on
    a dense [center] of binary64 values. *)
Definition _make_geometric_sample_binary64 (center : list float64)
  (radius : float64) (random_state : rng) : result (list float64) * rng :=
  let (normal_samples, g1) := normal64 (length center) random_state in
  let on_sphere :=
    map (fun x => PrimFloat.div x (norm64 normal_samples)) normal_samples in
  let (u, g2) := uniform64 g1 in
  if (length center =? 0)%nat then (Raise ZeroDivisionError, g2)
  else
    let e := PrimFloat.div 1%float (float64_of_nat (length center)) in
    let in_ball := map (PrimFloat.mul (pow64 u e)) on_sphere in
    (np_add64 center (map (PrimFloat.mul radius) in_ball), g2).

End SamplerBinary64.

(** ** Two-dimensional arrays *)

(** A dense [ndarray] of shape [(length rows, ncols)]. *)
Record ndarray2 : Type := mk_ndarray2 {
  ncols : nat;
  rows : list (list float)
}.

Definition wf_ndarray2 (a : ndarray2) : Prop :=
  Forall (fun r => length r = ncols a) (rows a).

(** A feature matrix: an [ndarray] or a scipy sparse matrix, kept row by
    row as its stored (column, value) entries. *)
Inductive features : Type :=
| Dense (a : ndarray2)
| Sparse (n : nat) (stored : list (list (nat * float))).

(** [sparse.issparse(X)] *)
Definition issparse (X : features) : bool :=
  match X with Dense _ => false | Sparse _ _ => true end.

(** [X.shape[1]] *)
Definition shape1 (X : features) : nat :=
  match X with Dense a => ncols a | Sparse n _ => n end.

(** [X.shape[0]] *)
Definition shape0 (X : features) : nat :=
  match X with Dense a => length (rows a) | Sparse _ s => length s end.

Definition getitem_list {A : Type} (l : list A) (i : nat) : result A :=
  match nth_error l i with
  | Some x => Ok x
  | None => Raise IndexError
  end.

Definition bind_result {A B : Type} (r : result A) (k : A -> result B)
  : result B :=
  match r with
  | Ok a => k a
  | Raise e => Raise e
  end.

Declare Scope result_scope.
Delimit Scope result_scope with result.
Notation "x <~ r ;; k" := (bind_result r (fun x => k))
  (at level 61, r at next level, right associativity) : result_scope.

(** [X[row]] for a non-negative [row]. *)
Definition getitem (X : features) (row : nat) : result array1 :=
  match X with
  | Dense a => bind_result (getitem_list (rows a) row) (fun v => Ok (ndarray1 v))
  | Sparse n s =>
      bind_result (getitem_list s row) (fun v => Ok (sparse_row n v))
  end.

(** [radii[row, col]] for non-negative indices. *)
Definition getitem2 (a : ndarray2) (row col : nat) : result float :=
  bind_result (getitem_list (rows a) row) (fun r => getitem_list r col).

(** [radii.flatten()] *)
Definition flatten (a : ndarray2) : list float := concat (rows a).

(** [np.zeros((n, d))] *)
Definition np_zeros (n d : nat) : ndarray2 :=
  mk_ndarray2 d (repeat (repeat (Fin 0) d) n).

Fixpoint list_set {A : Type} (l : list A) (i : nat) (x : A) : list A :=
  match l, i with
  | [], _ => []
  | _ :: t, O => x :: t
  | h :: t, S j => h :: list_set t j x
  end.

(** [a[i] = v] for a non-negative [i] and a one-dimensional [v], in place. *)
Definition setitem (a : ndarray2) (i : nat) (v : list float)
  : result ndarray2 :=
  if (length (rows a) <=? i)%nat then Raise IndexError
  else if (length v =? ncols a)%nat then
    Ok (mk_ndarray2 (ncols a) (list_set (rows a) i v))
  else if (length v =? 1)%nat then
    Ok (mk_ndarray2 (ncols a)
          (list_set (rows a) i (repeat (hd NaN v) (ncols a))))
  else Raise (ValueError Shape_mismatch).

(** [np.floor_divide] and [np.mod] on non-negative integers: a zero divisor
    gives 0 (and a warning). *)
Definition np_floor_divide (a b : nat) : nat :=
  if (b =? 0)%nat then O else (a / b)%nat.

Definition np_mod (a b : nat) : nat :=
  if (b =? 0)%nat then O else (a mod b)%nat.

(** Class labels. *)
Definition label : Type := Z.

(** ** The batch generator *)

(** Modelled from the spec: [check_random_states] of [imbtools.utils], which
    the module imports and whose source is absent. From one generator it
    pre-derives one sub-generator per draw (section 5 of the specification);
    an entry of its result stands for the generator [check_random_state]
    makes of it inside [_make_geometric_sample]. *)
Class ImbtoolsUtils (rng : Type) : Type := {
  check_random_states : rng -> nat -> list rng * rng
}.

Class ImbtoolsUtilsSpec (rng : Type) `{ImbtoolsUtils rng} : Prop := {
  check_random_states_size :
    forall g n, length (fst (check_random_states g n)) = n
}.

Section Batch.

Context {rng : Type} `{RandomState rng} `{ScipyRow} `{ImbtoolsUtils rng}.

(** [random_state.randint(low=0, high=high, size=n)] *)
Definition py_randint (high n : nat) (g : rng) : result (list nat) * rng :=
  if (high =? 0)%nat then (Raise (ValueError Low_ge_high), g)
  else let (v, g') := randint high n g in (Ok v, g').

(** One turn of the loop of lines 61-62. *)
Definition fill_row (X : features) (radii : ndarray2) (X_new : ndarray2)
  (item : nat * (nat * (nat * rng))) : result ndarray2 :=
  let '(row_ind, (row, (col, random_state))) := item in
  (center <~ getitem X row ;;
   radius <~ getitem2 radii row col ;;
   sample <~ fst (_make_geometric_sample center radius random_state) ;;
   setitem X_new row_ind sample)%result.

(** The loop of lines 61-62 over [enumerate(zip(rows, cols, random_states))]. *)
Fixpoint fill_rows (X : features) (radii : ndarray2) (X_new : ndarray2)
  (items : list (nat * (nat * (nat * rng)))) : result ndarray2 :=
  match items with
  | [] => Ok X_new
  | item :: rest =>
      bind_result (fill_row X radii X_new item)
        (fun X_new' => fill_rows X radii X_new' rest)
  end.

Definition enumerate {A : Type} (l : list A) : list (nat * A) :=
  combine (seq 0 (length l)) l.

(** [_make_geometric_samples(X, class_label, radii, n_samples, random_state)],
    lines 27-65. The second component is [random_state] after the call. *)
Definition _make_geometric_samples (X : features) (class_label : label)
  (radii : ndarray2) (n_samples : nat) (random_state : rng)
  : result (features * list label) * rng :=
  let (random_states, g1) := check_random_states random_state n_samples in
  let (drawn, g2) := py_randint (length (flatten radii)) n_samples g1 in
  (bind_result drawn (fun samples_indices =>
     let rows := map (fun i => np_floor_divide i (ncols radii)) samples_indices in
     let cols := map (fun i => np_mod i (ncols radii)) samples_indices in
     let X_new := np_zeros n_samples (shape1 X) in
     bind_result
       (fill_rows X radii X_new
          (enumerate (combine rows (combine cols random_states))))
       (fun X_new =>
          let y_new := repeat class_label (length samples_indices) in
          Ok (Dense X_new, y_new))),
   g2).

End Batch.

(** ** The estimator and its collaborators *)

(** The [random_state] parameter: [None], an integer seed, or a
    [RandomState] instance of the caller. *)
Inductive random_state_t : Type :=
| RS_None
| RS_int (seed : Z)
| RS_instance.

(** The parameters of [GeometricSMOTE.__init__] (an integer [k_neighbors])
    and [ratio_], the items of the dictionary in their order. *)
Record GeometricSMOTE : Type := mk_GeometricSMOTE {
  ratio_ : list (label * nat);
  random_state : random_state_t;
  geometry_factor : float;
  kind : string;
  k_neighbors : Z;
  n_jobs : Z
}.

(** A [sklearn.neighbors.NearestNeighbors] estimator. *)
Record NearestNeighbors : Type := mk_NearestNeighbors {
  n_neighbors : Z;
  nn_n_jobs : Z;
  fit_X : option features
}.

(** The two estimators [_validate_estimator] creates. *)
Inductive slot : Type := Minority | Majority.

(** Calls into the external collaborators, as a test stub would record
    them. *)
Inductive call : Type :=
| Fit (nn : slot) (X : features)
| Kneighbors (nn : slot) (X : features)
| Sparse_vstack (A B : features).

(** sklearn's neighbour search. *)
Class Sklearn : Type := {
  (** [NearestNeighbors(n_neighbors).fit(X)]: the error it raises, if any *)
  fit_error : Z -> features -> option string;
  (** [.kneighbors(X)[0]] of an estimator fitted on the first matrix *)
  kneighbors : Z -> features -> features -> library ndarray2
}.

(** Stacking when a scipy matrix is involved. *)
Class ScipyStack : Type := {
  (** [sparse.vstack([A, B])] *)
  sparse_vstack : features -> features -> library features;
  (** [np.vstack((A, B))] when [A] or [B] is a scipy matrix *)
  np_vstack_sparse : features -> features -> library features
}.

(** What the pass reads and writes besides its arguments: numpy's global
    generator, the caller's generator, the two estimators held by [self],
    and the record of the external calls, oldest first. *)
Record world (rng : Type) : Type := mk_world {
  np_random : rng;
  instance_state : rng;
  nn_minority_ : option NearestNeighbors;
  nn_majority_ : option NearestNeighbors;
  calls : list call
}.

Arguments mk_world {rng}.
Arguments np_random {rng}.
Arguments instance_state {rng}.
Arguments nn_minority_ {rng}.
Arguments nn_majority_ {rng}.
Arguments calls {rng}.

(** A computation that reads and writes the world and may raise. *)
Definition action (rng A : Type) : Type := world rng -> result A * world rng.

Definition ret {rng A : Type} (a : A) : action rng A := fun w => (Ok a, w).

Definition raise {rng A : Type} (e : exn) : action rng A :=
  fun w => (Raise e, w).

Definition lift {rng A : Type} (r : result A) : action rng A :=
  fun w => (r, w).

Definition bind {rng A B : Type} (m : action rng A) (k : A -> action rng B)
  : action rng B :=
  fun w =>
    match m w with
    | (Ok a, w') => k a w'
    | (Raise e, w') => (Raise e, w')
    end.

Declare Scope action_scope.
Delimit Scope action_scope with action.
Notation "x <- m ;; k" := (bind m (fun x => k))
  (at level 61, m at next level, right associativity) : action_scope.
Notation "m ;;; k" := (bind m (fun _ => k))
  (at level 61, right associativity) : action_scope.

Fixpoint foldM {rng A B : Type} (f : B -> A -> action rng B) (l : list A)
  (b : B) : action rng B :=
  match l with
  | [] => ret b
  | a :: rest => bind (f b a) (foldM f rest)
  end.

(** The generator [check_random_state] returns: numpy's global one, the
    caller's, or a new one. *)
Inductive generator (rng : Type) : Type :=
| Global
| Instance
| Fresh (g : rng).

Arguments Global {rng}.
Arguments Instance {rng}.
Arguments Fresh {rng} g.

Definition GEOMETRIC_SMOTE_KIND : list string :=
  ["regular"; "majority"; "minority"]%string.

(** [kind in choices] *)
Definition kind_in (kind : string) (choices : list string) : bool :=
  existsb (String.eqb kind) choices.

(** [np.flatnonzero(mask)] *)
Definition flatnonzero (mask : list bool) : list nat :=
  map fst (filter snd (combine (seq 0 (length mask)) mask)).

Fixpoint take {A : Type} (l : list A) (indices : list nat)
  : result (list A) :=
  match indices with
  | [] => Ok []
  | i :: rest =>
      bind_result (getitem_list l i) (fun x =>
      bind_result (take l rest) (fun xs => Ok (x :: xs)))
  end.

(** [safe_indexing(X, indices)] for non-negative indices. *)
Definition safe_indexing (X : features) (indices : list nat)
  : result features :=
  match X with
  | Dense a =>
      bind_result (take (rows a) indices)
        (fun r => Ok (Dense (mk_ndarray2 (ncols a) r)))
  | Sparse n s =>
      bind_result (take s indices) (fun r => Ok (Sparse n r))
  end.

(** [np.vstack((A, B))] *)
Definition np_vstack `{ScipyStack} (A B : features) : result features :=
  match A, B with
  | Dense a, Dense b =>
      if (ncols a =? ncols b)%nat
      then Ok (Dense (mk_ndarray2 (ncols a) (rows a ++ rows b)))
      else Raise (ValueError Shape_mismatch)
  | _, _ => of_library (np_vstack_sparse A B)
  end.

Section Estimator.

Context {rng : Type} `{RandomState rng} `{ScipyRow} `{ImbtoolsUtils rng}
  `{Sklearn} `{ScipyStack}.

Definition get_nn (s : slot) (w : world rng) : option NearestNeighbors :=
  match s with
  | Minority => nn_minority_ w
  | Majority => nn_majority_ w
  end.

Definition set_nn (s : slot) (nn : NearestNeighbors) (w : world rng)
  : world rng :=
  match s with
  | Minority =>
      mk_world (np_random w) (instance_state w) (Some nn) (nn_majority_ w)
        (calls w)
  | Majority =>
      mk_world (np_random w) (instance_state w) (nn_minority_ w) (Some nn)
        (calls w)
  end.

Definition record (c : call) (w : world rng) : world rng :=
  mk_world (np_random w) (instance_state w) (nn_minority_ w)
    (nn_majority_ w) (calls w ++ [c]).

(** [self.nn_*_ = check_neighbors_object(...)] followed by
    [.set_params(n_jobs=self.n_jobs)]. *)
Definition new_nn (s : slot) (n : Z) (jobs : Z) : action rng unit :=
  fun w => (Ok tt, set_nn s (mk_NearestNeighbors n jobs None) w).

(** [self.nn_*_.fit(X)] *)
Definition nn_fit (s : slot) (X : features) : action rng unit :=
  fun w =>
    match get_nn s w with
    | None => (Raise AttributeError, w)
    | Some nn =>
        let w1 := record (Fit s X) w in
        match fit_error (n_neighbors nn) X with
        | Some msg => (Raise (ValueError (Library msg)), w1)
        | None =>
            (Ok tt,
             set_nn s (mk_NearestNeighbors (n_neighbors nn) (nn_n_jobs nn)
                         (Some X)) w1)
        end
    end.

(** [self.nn_*_.kneighbors(X)[0]] *)
Definition nn_kneighbors (s : slot) (X : features) : action rng ndarray2 :=
  fun w =>
    match get_nn s w with
    | None => (Raise AttributeError, w)
    | Some nn =>
        let w1 := record (Kneighbors s X) w in
        match fit_X nn with
        | None => (Raise NotFittedError, w1)
        | Some fitted => (of_library (kneighbors (n_neighbors nn) fitted X), w1)
        end
    end.

(** [check_random_state(seed)] of sklearn. *)
Definition check_random_state (seed : random_state_t)
  : action rng (generator rng) :=
  match seed with
  | RS_None => ret Global
  | RS_int s =>
      if ((0 <=? s) && (s <? 2 ^ 32))%Z then ret (Fresh (seeded s))
      else raise (ValueError Seed_out_of_bounds)
  | RS_instance => ret Instance
  end.

(** Running a function that draws from a generator on the generator a
    reference stands for; a new generator is dropped afterwards. *)
Definition drawing {A : Type} (r : generator rng) (f : rng -> A * rng)
  : world rng -> A * world rng :=
  fun w =>
    match r with
    | Global =>
        let (a, g) := f (np_random w) in
        (a, mk_world g (instance_state w) (nn_minority_ w) (nn_majority_ w)
              (calls w))
    | Instance =>
        let (a, g) := f (instance_state w) in
        (a, mk_world (np_random w) g (nn_minority_ w) (nn_majority_ w)
              (calls w))
    | Fresh g => (fst (f g), w)
    end.

(** [sparse.vstack([A, B])], recorded. *)
Definition do_sparse_vstack (A B : features) : action rng features :=
  fun w => (of_library (sparse_vstack A B), record (Sparse_vstack A B) w).

(** [GeometricSMOTE._validate_estimator], lines 125-138. *)
Definition _validate_estimator (self : GeometricSMOTE) : action rng unit :=
  (if negb (kind_in (kind self) GEOMETRIC_SMOTE_KIND) then
     raise (ValueError (Unknown_kind (kind self)))
   else
     (if kind_in (kind self) ["minority"; "regular"]%string then
        new_nn Minority (k_neighbors self + 1)%Z (n_jobs self)
      else ret tt) ;;;
     (if kind_in (kind self) ["majority"; "regular"]%string then
        new_nn Majority 1%Z (n_jobs self)
      else ret tt))%action.

(** The body of the loop of [_sample], lines 165-190, for one item of
    [self.ratio_]. [X_new, y_new] are unbound until one of the two branches
    on [self.kind] assigns them. *)
Definition sample_class (self : GeometricSMOTE) (X : features)
  (y : list label) (resampled : features * list label)
  (item : label * nat) : action rng (features * list label) :=
  let (X_resampled, y_resampled) := resampled in
  let (class_label, n_samples) := item in
  (if (n_samples =? 0)%nat then ret (X_resampled, y_resampled)
   else
     X_positive <-
       lift (safe_indexing X
               (flatnonzero (map (fun l => Z.eqb l class_label) y))) ;;
     X_negative <-
       lift (safe_indexing X
               (flatnonzero (map (fun l => negb (Z.eqb l class_label)) y))) ;;
     new <-
       (if kind_in (kind self) ["minority"; "regular"]%string then
          nn_fit Minority X_positive ;;;
          radii_minority <- nn_kneighbors Minority X_positive ;;
          generator <- check_random_state (random_state self) ;;
          new <- drawing generator
                   (_make_geometric_samples X_positive class_label
                      radii_minority n_samples) ;;
          ret (Some new)
        else ret None) ;;
     new <-
       (if kind_in (kind self) ["majority"; "regular"]%string then
          nn_fit Majority X_negative ;;;
          radii_majority <- nn_kneighbors Majority X_positive ;;
          generator <- check_random_state (random_state self) ;;
          new <- drawing generator
                   (_make_geometric_samples X_positive class_label
                      radii_majority n_samples) ;;
          ret (Some new)
        else ret new) ;;
     match new with
     | None => raise UnboundLocalError
     | Some (X_new, y_new) =>
         X_resampled <-
           (if issparse X_new then do_sparse_vstack X_resampled X_new
            else lift (np_vstack X_resampled X_new)) ;;
         ret (X_resampled, y_resampled ++ y_new)
     end)%action.

(** [GeometricSMOTE._sample], lines 140-192. *)
Definition _sample (self : GeometricSMOTE) (X : features) (y : list label)
  : action rng (features * list label) :=
  (_validate_estimator self ;;;
   let X_resampled := X in
   let y_resampled := y in
   foldM (sample_class self X y) (ratio_ self) (X_resampled, y_resampled)
  )%action.

End Estimator.

Arguments sample_class : simpl never.
Arguments _make_geometric_samples : simpl never.

(** ** The batch as the specification words it

    Section 4.2, steps 2 and 3: a drawn flat index [i] selects the pair
    row = [i] div [k], column = [i] mod [k], for [k] the number of columns of
    the radius matrix, and the sample of the draw is the geometric sample
    centered at the point [X[row]] with radius [radii[row, column]]. *)

Section BatchSpecification.

Context {rng : Type} `{RandomState rng} `{ScipyRow}.

Definition drawn_sample (X : features) (radii : ndarray2) (i : nat)
  (sub_generator : rng) : result (list float) :=
  let row := (i / ncols radii)%nat in
  let col := (i mod ncols radii)%nat in
  (center <~ getitem X row ;;
   radius <~ getitem2 radii row col ;;
   fst (_make_geometric_sample center radius sub_generator))%result.

(** The value of a computation known not to raise. *)
Definition value (r : result (list float)) : list float :=
  match r with Ok v => v | Raise _ => [] end.

End BatchSpecification.

(** ** Regular mode as the specification words it

    Sections 4.3 and 9: in regular mode the minority radii are computed, and
    a batch from them, which the majority computation then overwrites. *)

Definition with_kind (self : GeometricSMOTE) (k : string) : GeometricSMOTE :=
  mk_GeometricSMOTE (ratio_ self) (random_state self) (geometry_factor self)
    k (k_neighbors self) (n_jobs self).

Definition with_ratio (self : GeometricSMOTE) (r : list (label * nat))
  : GeometricSMOTE :=
  mk_GeometricSMOTE r (random_state self) (geometry_factor self)
    (kind self) (k_neighbors self) (n_jobs self).

Section RegularSpecification.

Context {rng : Type} `{RandomState rng} `{ScipyRow} `{ImbtoolsUtils rng}
  `{Sklearn} `{ScipyStack}.

Definition minority_pass_dropped (self : GeometricSMOTE) (X : features)
  (y : list label) (item : label * nat) : action rng unit :=
  let (class_label, n_samples) := item in
  (if (n_samples =? 0)%nat then ret tt
   else
     X_positive <-
       lift (safe_indexing X
               (flatnonzero (map (fun l => Z.eqb l class_label) y))) ;;
     X_negative <-
       lift (safe_indexing X
               (flatnonzero (map (fun l => negb (Z.eqb l class_label)) y))) ;;
     nn_fit Minority X_positive ;;;
     radii_minority <- nn_kneighbors Minority X_positive ;;
     generator <- check_random_state (random_state self) ;;
     dropped <- drawing generator
                  (_make_geometric_samples X_positive class_label
                     radii_minority n_samples) ;;
     ret tt)%action.

End RegularSpecification.

(** ** The parts of the loop body

    The two branches on [self.kind] run the same four statements on
    different arguments; the proofs name them. *)

Section LoopBodyParts.

Context {rng : Type} `{RandomState rng} `{ScipyRow} `{ImbtoolsUtils rng}
  `{Sklearn} `{ScipyStack}.

(** Lines 174-177, and 180-183: fit, query, make the generator, sample. *)
Definition radii_and_batch (self : GeometricSMOTE) (s : slot)
  (X_fit X_positive : features) (class_label : label) (n_samples : nat)
  : action rng (option (features * list label)) :=
  (nn_fit s X_fit ;;;
   radii <- nn_kneighbors s X_positive ;;
   generator <- check_random_state (random_state self) ;;
   new <- drawing generator
            (_make_geometric_samples X_positive class_label radii n_samples) ;;
   ret (Some new))%action.

(** Lines 185-190: stack the batch and the labels. *)
Definition stack_batch (X_resampled : features) (y_resampled : list label)
  (new : option (features * list label))
  : action rng (features * list label) :=
  match new with
  | None => raise UnboundLocalError
  | Some (X_new, y_new) =>
      (X_resampled <-
         (if issparse X_new then do_sparse_vstack X_resampled X_new
          else lift (np_vstack X_resampled X_new)) ;;
       ret (X_resampled, y_resampled ++ y_new))%action
  end.

End LoopBodyParts.

(** ** Observations on the world *)

Definition is_sparse_vstack (c : call) : bool :=
  match c with Sparse_vstack _ _ => true | _ => false end.

(** The error of [_validate_estimator]. *)
Definition is_unknown_kind (e : exn) : bool :=
  match e with ValueError (Unknown_kind _) => true | _ => false end.

(** A result that, when it is an exception, is not the error of
    [_validate_estimator]. *)
Definition quiet {A : Type} (r : result A) : Prop :=
  match r with
  | Ok _ => True
  | Raise e => is_unknown_kind e = false
  end.

(** Two worlds hold the generator a [random_state] parameter denotes in the
    same state; an integer seed denotes a new generator in every world. *)
Definition same_generator {rng : Type} (seed : random_state_t)
  (w1 w2 : world rng) : Prop :=
  match seed with
  | RS_None => np_random w1 = np_random w2
  | RS_int _ => True
  | RS_instance => instance_state w1 = instance_state w2
  end.

(** The estimator a kind makes [_validate_estimator] create and the loop
    use. *)
Definition uses (self : GeometricSMOTE) (s : slot) : bool :=
  match s with
  | Minority => kind_in (kind self) ["minority"; "regular"]%string
  | Majority => kind_in (kind self) ["majority"; "regular"]%string
  end.

(** Two worlds agree on what a pass of [self] reads: the generator its
    [random_state] denotes and the estimators its kind uses. *)
Definition agree {rng : Type} (self : GeometricSMOTE) (w1 w2 : world rng)
  : Prop :=
  same_generator (random_state self) w1 w2
  /\ forall s, uses self s = true -> get_nn s w1 = get_nn s w2.

(** The calls of [sparse.vstack] recorded in a world are [s0]. *)
Definition keeps {rng : Type} (s0 : list call) (w : world rng) : Prop :=
  filter is_sparse_vstack (calls w) = s0.

(** The postcondition on exceptions of every step of the pass: not the
    configuration error, and no call of [sparse.vstack] made. *)
Definition quietly {rng : Type} (s0 : list call) : exn -> world rng -> Prop :=
  fun e w => is_unknown_kind e = false /\ keeps s0 w.

(** A batch of [n] dense rows with [n] copies of the label. *)
Definition dense_batch (n : nat) (class_label : label)
  (new : features * list label) : Prop :=
  exists a, fst new = Dense a /\ length (rows a) = n
            /\ snd new = repeat class_label n.

(** [X'] is the dense matrix [X_resampled] followed by the rows [batch]; of
    a sparse [X_resampled] nothing is said. *)
Definition appended (X_resampled : features) (batch : list (list float))
  (X' : features) : Prop :=
  match X_resampled with
  | Dense a => X' = Dense (mk_ndarray2 (ncols a) (rows a ++ batch))
  | Sparse _ _ => True
  end.

(** A precondition, a postcondition on the value returned and one on the
    exception raised. *)
Definition triple {rng A : Type} (P : world rng -> Prop) (m : action rng A)
  (Q : A -> world rng -> Prop) (E : exn -> world rng -> Prop) : Prop :=
  forall w, P w ->
    match m w with
    | (Ok a, w') => Q a w'
    | (Raise e, w') => E e w'
    end.

(** An action maps worlds related by [R] to equal outcomes and related
    worlds. *)
Definition respects {rng A : Type} (R : world rng -> world rng -> Prop)
  (m : action rng A) : Prop :=
  forall w1 w2, R w1 w2 ->
    fst (m w1) = fst (m w2) /\ R (snd (m w1)) (snd (m w2)).

(** ** Further observations on the world and on exceptions *)

(** A call of the neighbour search held in slot [s]. *)
Definition is_call_of (s : slot) (c : call) : bool :=
  match c, s with
  | Fit Minority _, Minority | Kneighbors Minority _, Minority => true
  | Fit Majority _, Majority | Kneighbors Majority _, Majority => true
  | _, _ => false
  end.

(** The exceptions that report bad data or a bad parameter, as opposed to
    those that would report a slip of the module itself (an attribute never
    set, an estimator queried before it is fitted, a local never bound). *)
Definition data_error (e : exn) : bool :=
  match e with
  | ValueError _ | ZeroDivisionError | IndexError => true
  | AttributeError | NotFittedError | UnboundLocalError => false
  end.

(** A result that, when it is an exception, is a data error. *)
Definition sound {A : Type} (r : result A) : Prop :=
  match r with
  | Ok _ => True
  | Raise e => data_error e = true
  end.

(** The postcondition on exceptions of the steps of a pass that raises
    data errors only. *)
Definition only_data_errors {rng : Type} : exn -> world rng -> Prop :=
  fun e _ => data_error e = true.

(** The estimators the kind of [self] uses have been created. *)
Definition created {rng : Type} (self : GeometricSMOTE) (w : world rng)
  : Prop :=
  forall s, uses self s = true -> get_nn s w <> None.

(** ** The model search of [sklearnext.model_selection.search]

    [ModelSearchCV._split_est_name] and
    [ModelSearchCV._modify_grid_search_attrs], lines 292-318, work on the
    parameter dictionaries of a grid search. *)

(** The exceptions of dictionary and attribute access. *)
Inductive search_exn : Type :=
| KeyError (key : string)
| MissingAttribute (name : string).

(** A Python dictionary with string keys, as its items in insertion order. *)
Definition dict (V : Type) : Type := list (string * V).

(** The keys of a dictionary are distinct. *)
Definition is_dict {V : Type} (d : dict V) : Prop := NoDup (map fst d).

(** [d.get(k)] *)
Fixpoint dict_get {V : Type} (d : dict V) (k : string) : option V :=
  match d with
  | [] => None
  | (k', v) :: rest => if String.eqb k' k then Some v else dict_get rest k
  end.

(** [d[k] = v]: a key already there keeps its place. *)
Fixpoint dict_set {V : Type} (d : dict V) (k : string) (v : V) : dict V :=
  match d with
  | [] => [(k, v)]
  | (k', v') :: rest =>
      if String.eqb k' k then (k', v) :: rest
      else (k', v') :: dict_set rest k v
  end.

(** [del d[k]] for a key that may be absent. *)
Fixpoint dict_del {V : Type} (d : dict V) (k : string) : dict V :=
  match d with
  | [] => []
  | (k', v') :: rest =>
      if String.eqb k' k then rest else (k', v') :: dict_del rest k
  end.

(** [d.pop(k)]: the value and the dictionary left. *)
Definition dict_pop {V : Type} (d : dict V) (k : string)
  : search_exn + V * dict V :=
  match dict_get d k with
  | Some v => inr (v, dict_del d k)
  | None => inl (KeyError k)
  end.

(** A dictionary comprehension [{k: v for ...}] over the pairs [items]. *)
Definition dict_of_items {V : Type} (items : list (string * V)) : dict V :=
  fold_left (fun d item => dict_set d (fst item) (snd item)) items [].

Definition cons_head (c : ascii) (parts : list string) : list string :=
  match parts with
  | [] => [String c EmptyString]
  | part :: rest => String c part :: rest
  end.

(** [s.split('__')]: the occurrences of the separator are found from the
    left and do not overlap. *)
Fixpoint split_dunder (s : string) : list string :=
  match s with
  | EmptyString => [EmptyString]
  | String c s' =>
      match s' with
      | String c' s'' =>
          if (Ascii.eqb c "_"%char && Ascii.eqb c' "_"%char)%bool
          then EmptyString :: split_dunder s''
          else cons_head c (split_dunder s')
      | EmptyString => cons_head c (split_dunder s')
      end
  end.

(** ['__'.join(param.split('__')[1:])], the key of line 302. *)
Definition strip_est_name (param : string) : string :=
  String.concat "__" (tl (split_dunder param)).

(** An estimator name the separator cannot be mistaken in: no underscore
    of it is followed by another or ends it. *)
Fixpoint plain_name (s : string) : bool :=
  match s with
  | EmptyString => true
  | String c s' =>
      if Ascii.eqb c "_"%char then
        match s' with
        | EmptyString => false
        | String c' _ => negb (Ascii.eqb c' "_"%char) && plain_name s'
        end
      else plain_name s'
  end.

(** The value a comprehension gives a key: that of the last pair with the
    key. *)
Definition last_value {V : Type} (items : list (string * V)) (k : string)
  : option V :=
  option_map snd
    (hd_error (rev (filter (fun item => String.eqb (fst item) k) items))).

(** The items of a parameter dictionary that line 302 renames: all but the
    estimator name and a top-level random state. *)
Definition renamed_items {V : Type} (param_grid : dict V)
  : list (string * V) :=
  map (fun item => (strip_est_name (fst item), snd item))
    (filter (fun item => negb (String.eqb (fst item) "est_name"))
       (filter (fun item => negb (String.eqb (fst item) "random_state"))
          param_grid)).

(** [ModelSearchCV._split_est_name(param_grid)], lines 292-302. *)
Definition _split_est_name {V : Type} (param_grid : dict V)
  : search_exn + V * dict V :=
  let param_grid :=
    dict_of_items
      (filter (fun item => negb (String.eqb (fst item) "random_state"))
         param_grid) in
  match dict_pop param_grid "est_name" with
  | inl e => inl e
  | inr (est_name, param_grid) =>
      inr (est_name,
           dict_of_items
             (map (fun item => (strip_est_name (fst item), snd item))
                param_grid))
  end.

(** The attributes of a [ModelSearchCV] that
    [_modify_grid_search_attrs] reads and writes: [best_estimator_], set by
    a fit that refits; [cv_results_['params']], a list of dictionaries; and
    [cv_results_['models']]. *)
Record ModelSearchCV (V E : Type) : Type := mk_ModelSearchCV {
  best_estimator_ : option E;
  cv_params : list (dict V);
  cv_models : option (list V)
}.

Arguments mk_ModelSearchCV {V E}.
Arguments best_estimator_ {V E}.
Arguments cv_params {V E}.
Arguments cv_models {V E}.

Section ModelSearch.

Context {V E : Type}.

(** [obj.estimator_], when [obj] has the attribute. *)
Variable estimator_ : E -> option E.

(** Lines 308-309. *)
Definition unwrap_best_estimator (self : ModelSearchCV V E)
  : search_exn + ModelSearchCV V E :=
  match best_estimator_ self with
  | None => inr self
  | Some best =>
      match estimator_ best with
      | Some inner =>
          inr (mk_ModelSearchCV (Some inner) (cv_params self)
                 (cv_models self))
      | None => inl (MissingAttribute "estimator_")
      end
  end.

(** The loop of lines 312-315 over the indices [inds]: the list
    [cv_results_['params']] is read and written in place, and the second
    component is the exception raised or the list [models]. *)
Fixpoint populate_models (inds : list nat) (params : list (dict V))
  (models : list V) : list (dict V) * (search_exn + list V) :=
  match inds with
  | [] => (params, inr models)
  | ind :: rest =>
      match nth_error params ind with
      | None => (params, inr models)
      | Some param_grid =>
          match _split_est_name param_grid with
          | inl e => (params, inl e)
          | inr (est_name, new_grid) =>
              populate_models rest (list_set params ind new_grid)
                (models ++ [est_name])
          end
      end
  end.

(** [ModelSearchCV._modify_grid_search_attrs], lines 304-318: the object
    after the call and the exception raised, if any. *)
Definition _modify_grid_search_attrs (self : ModelSearchCV V E)
  : ModelSearchCV V E * option search_exn :=
  match unwrap_best_estimator self with
  | inl e => (self, Some e)
  | inr self =>
      match populate_models (seq 0 (length (cv_params self)))
              (cv_params self) [] with
      | (params, inl e) =>
          (mk_ModelSearchCV (best_estimator_ self) params (cv_models self),
           Some e)
      | (params, inr models) =>
          (mk_ModelSearchCV (best_estimator_ self) params (Some models),
           None)
      end
  end.

End ModelSearch.

(** ** Stub collaborators

    Small deterministic instances of the interfaces above, of the kind a test
    suite uses; the examples are evaluated on them. *)

(** A generator whose state counts the draws made: every normal value is 1,
    every uniform value 1/2, and [randint] walks through the range. *)
#[local] Instance counting_generator : RandomState nat := {
  seeded := Z.to_nat;
  normal := fun n g => (repeat 1 n, S g);
  uniform := fun g => (/ 2, S g);
  randint := fun high n g =>
    (map (fun i => ((g + i) mod high)%nat) (seq 0 n), (g + n)%nat)
}.

(** A generator whose normal draws are all [0.0]. *)
#[local] Instance degenerate_generator : RandomState unit := {
  seeded := fun _ => tt;
  normal := fun n g => (repeat 0 n, g);
  uniform := fun g => (/ 2, g);
  randint := fun high n g => (repeat O n, g)
}.

(** A binary64 generator whose normal draws are all [1.0] and whose uniform
    draws are all [0.75]. *)
#[local] Instance fixed_draws : RandomState64 unit := {
  normal64 := fun n g => (repeat 1%float n, g);
  uniform64 := fun g => (0.75%float, g)
}.

(** A [pow] for the exponent [1.0], where it returns its base; no other
    exponent is asked of it. *)
#[local] Instance pow_of_one : Libm := {
  pow64 := fun x e => if PrimFloat.eqb e 1%float then x else PrimFloat.nan
}.

(** scipy adding a dense row to a sparse one entry by entry. *)
Fixpoint densify (n : nat) (stored : list (nat * float)) : list float :=
  match stored with
  | [] => repeat (Fin 0) n
  | (j, x) :: rest => list_set (densify n rest) j x
  end.

#[local] Instance scipy_row_stub : ScipyRow := {
  sparse_add_dense := fun n stored v =>
    match np_add (densify n stored) v with
    | Ok r => inr r
    | Raise _ => inl "inconsistent shapes"%string
    end
}.

(** Sub-generators numbered after the parent's draw count. *)
#[local] Instance counting_utils : ImbtoolsUtils nat := {
  check_random_states := fun g n =>
    (map (fun i => (g + i)%nat) (seq 1 n), (g + n)%nat)
}.

(** A neighbour search that refuses a reference set smaller than
    [n_neighbors] and reports every distance as 1. *)
#[local] Instance unit_distance_search : Sklearn := {
  fit_error := fun k X =>
    if (Z.of_nat (shape0 X) <? k)%Z
    then Some "Expected n_neighbors <= n_samples"%string
    else None;
  kneighbors := fun k fitted X =>
    inr (mk_ndarray2 (Z.to_nat k)
           (repeat (repeat (Fin 1) (Z.to_nat k)) (shape0 X)))
}.

(** A scipy that refuses every stacking. *)
#[local] Instance refusing_stack : ScipyStack := {
  sparse_vstack := fun _ _ => inl "blocks must be 2-D"%string;
  np_vstack_sparse := fun _ _ =>
    inl "all the input array dimensions must match exactly"%string
}.

(** Three points on a line and their radius matrix with two neighbour
    ranks (section 8 of the specification). *)
Definition three_points : ndarray2 :=
  mk_ndarray2 1 [[Fin 0]; [Fin 1]; [Fin 3]].

Definition three_radii : ndarray2 :=
  mk_ndarray2 2 [[Fin 0; Fin 1]; [Fin 0; Fin 1]; [Fin 0; Fin 2]].

(** Five points of the plane, the first three of class 1, and an estimator
    asked for four more points of class 1. *)
Definition five_points : ndarray2 :=
  mk_ndarray2 2
    [[Fin 0; Fin 0]; [Fin 1; Fin 0]; [Fin 0; Fin 1];
     [Fin 5; Fin 5]; [Fin 6; Fin 5]].

Definition five_labels : list label := [1; 1; 1; 0; 0]%Z.

Definition smote (kind : string) (seed : random_state_t) : GeometricSMOTE :=
  mk_GeometricSMOTE [(1%Z, 4%nat); (0%Z, 0%nat)] seed (Fin 1) kind 1%Z 1%Z.

Definition initial_world : world nat := mk_world O O None None [].

(** The first three of the five points as a sparse matrix. *)
Definition three_sparse : features :=
  Sparse 2 [[]; [(0%nat, Fin 1)]; [(1%nat, Fin 1)]].

(** * Properties *)

(** ** Vectors *)

Lemma dot_self_nonneg (x : list R) : 0 <= dot x x.
Proof.
  unfold dot. induction x as [|a x IH]; simpl; [lra|].
  pose proof (Rle_0_sqr a) as Ha. unfold Rsqr in Ha. lra.
Qed.

Lemma dot_self_pos (x : list R) : Exists (fun a => a <> 0) x -> 0 < dot x x.
Proof.
  unfold dot. induction 1 as [a x Ha | a x _ IH]; simpl.
  - pose proof (dot_self_nonneg x) as Hx. unfold dot in Hx.
    assert (0 < a * a) by (apply Rsqr_pos_lt in Ha; exact Ha). lra.
  - pose proof (Rle_0_sqr a) as Ha. unfold Rsqr in Ha. lra.
Qed.

Lemma dot_scale (k : R) (x : list R) :
  dot (map (Rmult k) x) (map (Rmult k) x) = (k * k) * dot x x.
Proof.
  unfold dot. induction x as [|a x IH]; simpl; [lra|].
  rewrite IH. ring.
Qed.

Lemma norm_scale (k : R) (x : list R) :
  norm (map (Rmult k) x) = Rabs k * norm x.
Proof.
  unfold norm. rewrite dot_scale.
  rewrite sqrt_mult_alt by (pose proof (Rle_0_sqr k) as Hk; exact Hk).
  fold (Rsqr k). rewrite sqrt_Rsqr_abs. reflexivity.
Qed.

Lemma norm_pos (x : list R) : Exists (fun a => a <> 0) x -> 0 < norm x.
Proof.
  intros Hx. unfold norm. apply sqrt_lt_R0. now apply dot_self_pos.
Qed.

Lemma combine_fin_add (f : R -> R) (c v : list R) :
  map (fun p => fadd (fst p) (snd p))
      (combine (map Fin c) (map (fun x => Fin (f x)) v))
  = map Fin (map (fun p => fst p + f (snd p)) (combine c v)).
Proof.
  revert v. induction c as [|a c IH]; intros [|b v]; simpl; try reflexivity.
  now rewrite IH.
Qed.

Lemma vsub_shift (f : R -> R) (c v : list R) :
  length c = length v ->
  vsub (map (fun p => fst p + f (snd p)) (combine c v)) c = map f v.
Proof.
  unfold vsub. revert v.
  induction c as [|a c IH]; intros [|b v] Hlen; simpl in *; try discriminate.
  - reflexivity.
  - f_equal; [ring | apply IH; lia].
Qed.

Lemma norm_singleton (x : R) : norm [x] = Rabs x.
Proof.
  unfold norm, dot. simpl. replace (x * x + 0) with (Rsqr x) by (unfold Rsqr; ring).
  apply sqrt_Rsqr_abs.
Qed.

(** ** The geometric sampler *)

Lemma np_power_unit_interval (u e : R) :
  0 <= u < 1 -> 0 < e -> exists q, np_power u e = Fin q /\ 0 <= q <= 1.
Proof.
  intros [Hu0 Hu1] He. unfold np_power.
  destruct (Req_dec_T e 0) as [E0|_]; [lra|].
  destruct (Rlt_dec 0 u) as [Hpos|Hnpos].
  - exists (Rpower u e). split; [reflexivity|]. unfold Rpower. split.
    + left. apply exp_pos.
    + rewrite <- exp_0. left. apply exp_increasing.
      assert (ln u < 0) by (rewrite <- ln_1; apply ln_increasing; lra).
      nra.
  - destruct (Req_dec_T u 0) as [_|Hne]; [|lra].
    destruct (Rlt_dec 0 e) as [_|Hn]; [|lra].
    exists 0. split; [reflexivity | lra].
Qed.

Lemma py_truediv_pos (d : nat) :
  (0 < d)%nat -> exists e, py_truediv 1 d = Ok e /\ 0 < e.
Proof.
  intros Hd. unfold py_truediv.
  destruct (Nat.eqb_spec d 0) as [->|_]; [lia|].
  exists (INR 1 / INR d). split; [reflexivity|].
  apply Rdiv_lt_0_compat; [simpl; lra | now apply lt_0_INR].
Qed.

Section SamplerProperties.

Context {rng : Type} `{RandomStateSpec rng} `{ScipyRow}.

(** The value the sampler returns on a dense center of real numbers when the
    normal draw is not the zero vector: center plus the unit direction
    scaled by [radius * q], for a [q] of the unit interval. *)
Lemma geometric_sample_value (center : list R) (radius : R)
  (random_state : rng) :
  let normal_samples := fst (normal (length center) random_state) in
  Exists (fun x => x <> 0) normal_samples ->
  exists q, 0 <= q <= 1 /\
    fst (_make_geometric_sample (ndarray1 (map Fin center)) (Fin radius)
           random_state)
    = Ok (map Fin
            (map (fun p => fst p
                           + radius * q / norm normal_samples * snd p)
               (combine center normal_samples))).
Proof.
  intros normal_samples Hnz.
  pose proof (normal_size (length center) random_state) as Hsize.
  fold normal_samples in Hsize.
  assert (Hd : (0 < length center)%nat).
  { rewrite <- Hsize. destruct Hnz; simpl; lia. }
  pose proof (norm_pos _ Hnz) as Hnorm.
  unfold _make_geometric_sample. simpl size. rewrite length_map.
  subst normal_samples.
  destruct (normal (length center) random_state) as [nv g1]. simpl in *.
  pose proof (uniform_range g1) as Hu.
  destruct (uniform g1) as [u g2]. simpl in Hu.
  destruct (py_truediv_pos _ Hd) as (e & -> & He).
  destruct (np_power_unit_interval _ _ Hu He) as (q & -> & Hq).
  exists q. split; [exact Hq|]. simpl.
  unfold np_add. rewrite !length_map, Hsize, Nat.eqb_refl.
  rewrite <- (combine_fin_add (fun x => radius * q / norm nv * x)).
  do 3 f_equal. rewrite !map_map. apply map_ext. intros x.
  unfold np_divide. destruct (Req_dec_T (norm nv) 0) as [E|_]; [lra|].
  simpl. f_equal. field. lra.
Qed.


End SamplerProperties.

Section SamplerZeroRadius.

Context {rng : Type} `{RandomStateSpec rng} `{ScipyRow}.

Lemma map_fst_shift_zero (k : R) (c v : list R) :
  length v = length c -> k = 0 ->
  map (fun p => fst p + k * snd p) (combine c v) = c.
Proof.
  intros Hlen ->. revert v Hlen.
  induction c as [|a c IH]; intros [|b v] Hlen; simpl in *; try discriminate.
  - reflexivity.
  - f_equal; [ring | apply IH; lia].
Qed.

(** C2, amended. With radius 0 and a generator whose normal draw is not the
    zero vector, the sampler returns the center itself. *)
Theorem geometric_sample_zero_radius (center : list R) (random_state : rng) :
  Exists (fun x => x <> 0) (fst (normal (length center) random_state)) ->
  fst (_make_geometric_sample (ndarray1 (map Fin center)) (Fin 0)
         random_state) = Ok (map Fin center).
Proof.
  intros Hnz.
  destruct (geometric_sample_value center 0 random_state Hnz)
    as (q & _ & ->).
  rewrite map_fst_shift_zero; trivial.
  - apply normal_size.
  - unfold Rdiv. ring.
Qed.

End SamplerZeroRadius.

(** The stub generators meet numpy's documentation. *)
#[local] Instance counting_generator_spec : RandomStateSpec nat.
Proof.
  split; simpl; intros.
  - apply repeat_length.
  - lra.
  - now rewrite length_map, length_seq.
  - apply Forall_forall. intros i Hi. apply in_map_iff in Hi.
    destruct Hi as (j & <- & _). apply Nat.mod_upper_bound. lia.
Qed.

#[local] Instance degenerate_generator_spec : RandomStateSpec unit.
Proof.
  split; simpl; intros.
  - apply repeat_length.
  - lra.
  - apply repeat_length.
  - apply Forall_forall. intros i Hi. apply repeat_spec in Hi. lia.
Qed.

Lemma norm_zero_1 : norm [0] = 0.
Proof.
  unfold norm, dot. simpl.
  replace (0 * 0 + 0) with 0 by ring. apply sqrt_0.
Qed.

(** C2, as stated, fails: on a generator whose normal draw is [0.0] the
    direction is [0/0 = nan] and the sample of center [1.0] with radius 0 is
    [nan], not the center. *)
Lemma geometric_sample_zero_radius_nan :
  fst (_make_geometric_sample (rng := unit) (ndarray1 [Fin 1]) (Fin 0) tt)
  = Ok [NaN]
  /\ fst (_make_geometric_sample (rng := unit) (ndarray1 [Fin 1]) (Fin 0) tt)
     <> Ok [Fin 1].
Proof.
  assert (E : fst (_make_geometric_sample (rng := unit) (ndarray1 [Fin 1])
                     (Fin 0) tt) = Ok [NaN]).
  { unfold _make_geometric_sample. simpl.
    rewrite norm_zero_1. unfold np_divide.
    destruct (Req_dec_T 0 0) as [_|N]; [|now elim N].
    unfold np_power.
    destruct (Req_dec_T (1 / 1) 0) as [E|_]; [lra|].
    destruct (Rlt_dec 0 (/ 2)) as [_|N]; [|lra].
    reflexivity. }
  split; [exact E|]. rewrite E. discriminate.
Qed.

(** On the line, center 2 and radius 1: the counting generator draws the
    direction 1 and the uniform value 1/2, and the sample is 2.5. *)
Example sample_on_the_line :
  fst (_make_geometric_sample (ndarray1 [Fin 2]) (Fin 1) O)
  = Ok [Fin (5 / 2)].
Proof.
  unfold _make_geometric_sample. simpl.
  assert (E : norm [1] = 1).
  { unfold norm, dot. simpl. replace (1 * 1 + 0) with 1 by ring.
    apply sqrt_1. }
  rewrite E. unfold np_divide, np_power.
  destruct (Req_dec_T 1 0) as [N|_]; [lra|].
  destruct (Req_dec_T (1 / 1) 0) as [N|_]; [lra|].
  destruct (Rlt_dec 0 (/ 2)) as [_|N]; [|lra].
  replace (1 / 1) with 1 by field. rewrite Rpower_1 by lra.
  unfold np_add. simpl. do 3 f_equal. field.
Qed.

(** A center with no entry: [1 / center.size] raises. *)
Example sample_of_empty_center :
  fst (_make_geometric_sample (ndarray1 []) (Fin 1) O)
  = Raise ZeroDivisionError.
Proof. reflexivity. Qed.


(** C2, amended, at center (3, 4) on the counting generator. *)
Lemma geometric_sample_zero_radius_witness :
  Exists (fun x => x <> 0) (fst (normal (length [3; 4]) O))
  /\ fst (_make_geometric_sample (ndarray1 (map Fin [3; 4])) (Fin 0) O)
     = Ok (map Fin [3; 4]).
Proof.
  assert (H2 : Exists (fun x => x <> 0) (fst (normal (length [3; 4]) O))).
  { simpl. apply Exists_cons_hd. lra. }
  split; [exact H2|].
  exact (geometric_sample_zero_radius [3; 4] O H2).
Defined.

(** ** The geometric sampler on binary64 *)

Lemma real_of_float64_finite (x : float64) (negative : bool) (m : positive)
  (e : Z) :
  Prim2SF x = S754_finite negative m e ->
  real_of_float64 x
  = let mantissa := IZR (if negative then Z.neg m else Z.pos m) in
    if (0 <=? e)%Z then mantissa * IZR (2 ^ e) else mantissa / IZR (2 ^ (- e)).
Proof. intros Hx. unfold real_of_float64. now rewrite Hx. Qed.

(** The binary64 values of the two runs below, as mantissa and exponent. *)
Example binary64_values :
  Prim2SF 1%float = S754_finite false 4503599627370496 (-52)
  /\ Prim2SF 0x1.0000000000001p+0%float
     = S754_finite false 4503599627370497 (-52)
  /\ Prim2SF 0x1.8p-53%float = S754_finite false 6755399441055744 (-105)
  /\ Prim2SF 1.5%float = S754_finite false 6755399441055744 (-52)
  /\ Prim2SF 1e16%float = S754_finite false 5000000000000000 1
  /\ Prim2SF 10000000000000002%float
     = S754_finite false 5000000000000001 1.
Proof. repeat split. Qed.

Ltac real_of_binary64 x negative m e :=
  rewrite (real_of_float64_finite x negative m e) by reflexivity;
  cbv zeta;
  let b := eval vm_compute in (0 <=? e)%Z in
  change (0 <=? e)%Z with b; cbv iota.


(** The same far from the origin: with center 10^16, where consecutive
    binary64 values are 2 apart, and radius 1.5, the exact point
    10^16 + 1.125 rounds to 10^16 + 2. *)
Example geometric_sample_leaves_ball_far :
  fst (_make_geometric_sample_binary64 [1e16%float] 1.5%float tt)
  = Ok [10000000000000002%float]
  /\ real_of_float64 1.5%float
     < norm (vsub [real_of_float64 10000000000000002%float]
                  [real_of_float64 1e16%float]).
Proof.
  split; [reflexivity|].
  unfold vsub. cbn [map combine fst snd]. rewrite norm_singleton.
  real_of_binary64 1.5%float false 6755399441055744%positive (-52)%Z.
  real_of_binary64 10000000000000002%float false 5000000000000001%positive
    1%Z.
  real_of_binary64 1e16%float false 5000000000000000%positive 1%Z.
  change (2 ^ (- -52))%Z with 4503599627370496%Z.
  change (2 ^ 1)%Z with 2%Z.
  rewrite Rabs_pos_eq; lra.
Qed.

(** ** Lists and arrays *)

Example decode_five :
  np_floor_divide 5 2 = 2%nat /\ np_mod 5 2 = 1%nat
  /\ np_floor_divide 5 0 = O /\ np_mod 5 0 = O.
Proof. repeat split. Qed.

Example setitem_second_row :
  setitem (np_zeros 2 1) 1 [Fin 1] = Ok (mk_ndarray2 1 [[Fin 0]; [Fin 1]])
  /\ setitem (np_zeros 2 1) 2 [Fin 1] = Raise IndexError
  /\ setitem (np_zeros 2 2) 1 [Fin 1] = Ok (mk_ndarray2 2 [[Fin 0; Fin 0]; [Fin 1; Fin 1]])
  /\ setitem (np_zeros 2 2) 1 [] = Raise (ValueError Shape_mismatch).
Proof. repeat split. Qed.

Example safe_indexing_class_1 :
  safe_indexing (Dense five_points) [0; 1; 2]%nat
  = Ok (Dense (mk_ndarray2 2 [[Fin 0; Fin 0]; [Fin 1; Fin 0]; [Fin 0; Fin 1]]))
  /\ safe_indexing (Dense five_points) [5]%nat = Raise IndexError.
Proof. split; reflexivity. Qed.

Example randint_empty_range :
  py_randint 0 3 O = (Raise (ValueError Low_ge_high), O)
  /\ py_randint 6 6 6%nat = (Ok [0; 1; 2; 3; 4; 5]%nat, 12%nat).
Proof. split; reflexivity. Qed.

Lemma list_set_app {A : Type} (done rest : list A) (z x : A) :
  list_set (done ++ z :: rest) (length done) x = done ++ x :: rest.
Proof. induction done as [|h t IH]; simpl; [reflexivity | now rewrite IH]. Qed.

Lemma combine_decode {A B C D : Type} (f : A -> C) (g : A -> D)
  (l1 : list A) (l2 : list B) :
  combine (map f l1) (combine (map g l1) l2)
  = map (fun p => (f (fst p), (g (fst p), snd p))) (combine l1 l2).
Proof.
  revert l2. induction l1 as [|a l1 IH]; intros [|b l2]; simpl; trivial.
  now rewrite IH.
Qed.

Lemma flatten_length (a : ndarray2) :
  wf_ndarray2 a -> length (flatten a) = (length (rows a) * ncols a)%nat.
Proof.
  unfold wf_ndarray2, flatten. induction 1 as [|r l Hr _ IH]; simpl; trivial.
  now rewrite length_app, IH, Hr.
Qed.

Lemma getitem_list_lt {A : Type} (l : list A) (i : nat) :
  (i < length l)%nat -> exists x, nth_error l i = Some x /\ getitem_list l i = Ok x.
Proof.
  intros Hi. unfold getitem_list.
  destruct (nth_error l i) as [x|] eqn:E.
  - now exists x.
  - apply nth_error_None in E. lia.
Qed.

Lemma decode_in_range (i n k : nat) :
  (i < n * k)%nat -> (i / k < n)%nat /\ (i mod k < k)%nat.
Proof.
  intros Hi. assert (k <> 0)%nat by (intros ->; lia). split.
  - apply Nat.Div0.div_lt_upper_bound. lia.
  - now apply Nat.mod_upper_bound.
Qed.

(** ** The batch generator *)

Section BatchProperties.

Context {rng : Type} `{RandomStateSpec rng} `{ScipyRow}
  `{ImbtoolsUtilsSpec rng}.

(** On a dense center of positive dimension the sampler does not raise and
    returns a vector of that dimension. *)
Lemma geometric_sample_dense (center : list float) (radius : float)
  (g : rng) :
  (0 < length center)%nat ->
  exists v, fst (_make_geometric_sample (ndarray1 center) radius g) = Ok v
            /\ length v = length center.
Proof.
  intros Hd. unfold _make_geometric_sample. simpl size.
  pose proof (normal_size (length center) g) as Hsize.
  destruct (normal (length center) g) as [nv g1]. simpl in Hsize.
  destruct (uniform g1) as [u g2].
  destruct (py_truediv_pos _ Hd) as (e & -> & _). simpl.
  unfold np_add. rewrite !length_map, Hsize, Nat.eqb_refl.
  eexists. split; [reflexivity|].
  rewrite length_map, length_combine, !length_map, Hsize. apply Nat.min_id.
Qed.

(** Every index drawn in range selects a point of a well-formed partition
    and a radius, and its sample is a row of the batch's width. *)
Lemma drawn_sample_dense (a radii : ndarray2) (i : nat) (sub : rng) :
  wf_ndarray2 a -> (0 < ncols a)%nat -> wf_ndarray2 radii ->
  length (rows radii) = length (rows a) ->
  (i < length (rows a) * ncols radii)%nat ->
  exists v, drawn_sample (Dense a) radii i sub = Ok v
            /\ length v = ncols a.
Proof.
  intros Hwf Hd Hwr Hrows Hi.
  destruct (decode_in_range _ _ _ Hi) as [Hrow Hcol].
  unfold drawn_sample, getitem, getitem2.
  destruct (getitem_list_lt (rows a) _ Hrow) as (center & Hc & ->).
  rewrite <- Hrows in Hrow.
  destruct (getitem_list_lt (rows radii) _ Hrow) as (rr & Hr & ->).
  assert (Hlc : length center = ncols a).
  { apply nth_error_In in Hc. unfold wf_ndarray2 in Hwf.
    rewrite Forall_forall in Hwf. now apply Hwf. }
  assert (Hlr : length rr = ncols radii).
  { apply nth_error_In in Hr. unfold wf_ndarray2 in Hwr.
    rewrite Forall_forall in Hwr. now apply Hwr. }
  assert (Hcol' : (i mod ncols radii < length rr)%nat) by lia.
  destruct (getitem_list_lt rr _ Hcol') as (radius & _ & Hrad).
  simpl. rewrite Hrad. simpl.
  rewrite <- Hlc in Hd |- *. now apply geometric_sample_dense.
Qed.

(** The loop writes the samples of its items, in order, over the first rows
    not yet written. *)
Lemma fill_rows_from (X : features) (radii : ndarray2) (d : nat)
  (items : list (nat * (nat * rng))) :
  forall done zeros : list (list float),
    Forall (fun it =>
              exists v,
                (center <~ getitem X (fst it) ;;
                 radius <~ getitem2 radii (fst it) (fst (snd it)) ;;
                 fst (_make_geometric_sample center radius (snd (snd it))))%result
                = Ok v /\ length v = d) items ->
    (length items <= length zeros)%nat ->
    fill_rows X radii (mk_ndarray2 d (done ++ zeros))
      (combine (seq (length done) (length items)) items)
    = Ok (mk_ndarray2 d
            (done
             ++ map (fun it =>
                       value
                         (center <~ getitem X (fst it) ;;
                          radius <~ getitem2 radii (fst it) (fst (snd it)) ;;
                          fst (_make_geometric_sample center radius
                                 (snd (snd it))))%result) items
             ++ skipn (length items) zeros)).
Proof.
  induction items as [|[row [col sub]] items IH]; intros done zeros Hv Hlen.
  - reflexivity.
  - inversion Hv as [|? ? Hhd Hrest]; subst.
    destruct Hhd as (v & Ev & Hlv).
    destruct zeros as [|z zeros]; [simpl in Hlen; lia|].
    simpl in Ev, Hlen |- *. rewrite Ev.
    destruct (getitem X row) as [center|]; [|discriminate].
    simpl in Ev |- *.
    destruct (getitem2 radii row col) as [radius|]; [|discriminate].
    simpl in Ev |- *. rewrite Ev. simpl.
    unfold setitem. simpl.
    destruct (Nat.leb_spec (length (done ++ z :: zeros)) (length done))
      as [Hle|_]; [rewrite length_app in Hle; simpl in Hle; lia|].
    rewrite Hlv, Nat.eqb_refl, list_set_app.
    replace (S (length done)) with (length (done ++ [v]))
      by (rewrite length_app; simpl; lia).
    replace (done ++ v :: zeros) with ((done ++ [v]) ++ zeros)
      by now rewrite <- app_assoc.
    cbn [bind_result]. rewrite IH by (trivial; lia).
    now rewrite <- app_assoc.
Qed.

(** The batch generator on a dense partition and a radius matrix with one
    row per point: it returns the samples of the draws in draw order and as
    many copies of the label. *)
Lemma batch_value (a radii : ndarray2) (class_label : label) (n : nat)
  (g : rng) :
  wf_ndarray2 a -> (0 < ncols a)%nat -> wf_ndarray2 radii ->
  length (rows radii) = length (rows a) ->
  (0 < length (rows a) * ncols radii)%nat ->
  let random_states := fst (check_random_states g n) in
  let samples_indices :=
    fst (randint (length (rows a) * ncols radii) n
           (snd (check_random_states g n))) in
  fst (_make_geometric_samples (Dense a) class_label radii n g)
  = Ok (Dense (mk_ndarray2 (ncols a)
                 (map (fun p => value (drawn_sample (Dense a) radii (fst p) (snd p)))
                    (combine samples_indices random_states))),
        repeat class_label n)
  /\ length samples_indices = n
  /\ Forall (fun i => (i < length (rows a) * ncols radii)%nat) samples_indices.
Proof.
  intros Hwf Hd Hwr Hrows Hpos random_states samples_indices.
  pose proof (randint_size (length (rows a) * ncols radii) n
                (snd (check_random_states g n))) as Hsize.
  pose proof (randint_range (length (rows a) * ncols radii) n
                (snd (check_random_states g n)) Hpos) as Hrange.
  fold samples_indices in Hsize, Hrange.
  split; [|split; assumption].
  pose proof (check_random_states_size g n) as Hsubs.
  unfold _make_geometric_samples.
  subst random_states samples_indices.
  destruct (check_random_states g n) as [subs g1]. simpl in *.
  rewrite (flatten_length _ Hwr), Hrows. unfold py_randint.
  destruct (Nat.eqb_spec (length (rows a) * ncols radii) 0) as [E|_]; [lia|].
  destruct (randint (length (rows a) * ncols radii) n g1) as [idx g2].
  simpl in *.
  assert (Hk : ncols radii <> O) by (intros E; rewrite E in Hpos; lia).
  assert (Hdecode : forall i,
             np_floor_divide i (ncols radii) = (i / ncols radii)%nat
             /\ np_mod i (ncols radii) = (i mod ncols radii)%nat).
  { intros i. unfold np_floor_divide, np_mod.
    now destruct (Nat.eqb_spec (ncols radii) 0). }
  rewrite combine_decode. unfold enumerate, np_zeros.
  set (items := map _ (combine idx subs)).
  assert (Hitems : length items = n).
  { unfold items. rewrite length_map, length_combine. lia. }
  pose proof (fill_rows_from (Dense a) radii (ncols a) items []
                (repeat (repeat (Fin 0) (ncols a)) n)) as Hfill.
  simpl in Hfill. rewrite Hfill; clear Hfill.
  - simpl. rewrite Hsize. do 2 f_equal.
    rewrite skipn_all2 by (rewrite repeat_length; lia).
    rewrite app_nil_r. unfold items. rewrite map_map.
    do 2 f_equal. apply map_ext. intros [i sub]. simpl.
    destruct (Hdecode i) as [-> ->]. reflexivity.
  - unfold items. apply Forall_forall. intros it Hin.
    apply in_map_iff in Hin. destruct Hin as ([i sub] & <- & Hin).
    simpl. destruct (Hdecode i) as [-> ->].
    apply in_combine_l in Hin. rewrite Forall_forall in Hrange.
    exact (drawn_sample_dense a radii i sub Hwf Hd Hwr Hrows (Hrange i Hin)).
  - rewrite repeat_length. lia.
Qed.

End BatchProperties.

Lemma nth_error_combine {A B : Type} (l1 : list A) (l2 : list B) (j : nat)
  (x : A) (y : B) :
  nth_error l1 j = Some x -> nth_error l2 j = Some y ->
  nth_error (combine l1 l2) j = Some (x, y).
Proof.
  revert l2 j. induction l1 as [|a l1 IH]; intros [|b l2] [|j]; simpl;
    try discriminate.
  - now intros [= ->] [= ->].
  - apply IH.
Qed.

Section BatchClaims.

Context {rng : Type} `{RandomStateSpec rng} `{ScipyRow}
  `{ImbtoolsUtilsSpec rng}.

Lemma drawn_sample_inv (a radii : ndarray2) (i : nat) (sub : rng)
  (v : list float) :
  drawn_sample (Dense a) radii i sub = Ok v ->
  exists center radius,
    nth_error (rows a) (i / ncols radii) = Some center
    /\ getitem2 radii (i / ncols radii) (i mod ncols radii) = Ok radius
    /\ fst (_make_geometric_sample (ndarray1 center) radius sub) = Ok v.
Proof.
  unfold drawn_sample, getitem, getitem_list at 1.
  destruct (nth_error (rows a) (i / ncols radii)) as [center|];
    [|discriminate].
  simpl. destruct (getitem2 radii _ _) as [radius|]; [|discriminate].
  simpl. intros Ev. now exists center, radius.
Qed.

(** C3. On a partition of points and a radius matrix with one row per point
    and [k] columns, the sample written at position [j] of the batch is the
    geometric sample of the [j]-th sub-generator, centered at the point
    [X[i div k]] itself with radius [radii[i div k, i mod k]], for [i] the
    [j]-th drawn index; and with [k = 2] the indices 0..5 decode to
    (0,0), (0,1), (1,0), (1,1), (2,0), (2,1). *)
Theorem batch_draw_anchor (a radii : ndarray2) (class_label : label)
  (n : nat) (g : rng) :
  wf_ndarray2 a -> (0 < ncols a)%nat -> wf_ndarray2 radii ->
  length (rows radii) = length (rows a) ->
  (0 < length (rows a) * ncols radii)%nat ->
  let k := ncols radii in
  let random_states := fst (check_random_states g n) in
  let samples_indices :=
    fst (randint (length (rows a) * k) n (snd (check_random_states g n))) in
  (exists X_new,
     fst (_make_geometric_samples (Dense a) class_label radii n g)
     = Ok (Dense X_new, repeat class_label n)
     /\ forall j i sub,
          nth_error samples_indices j = Some i ->
          nth_error random_states j = Some sub ->
          (i < length (rows a) * k)%nat
          /\ exists center radius sample,
               nth_error (rows a) (i / k) = Some center
               /\ getitem2 radii (i / k) (i mod k) = Ok radius
               /\ fst (_make_geometric_sample (ndarray1 center) radius sub)
                  = Ok sample
               /\ nth_error (rows X_new) j = Some sample)
  /\ combine (map (fun i => np_floor_divide i 2) [0; 1; 2; 3; 4; 5]%nat)
       (map (fun i => np_mod i 2) [0; 1; 2; 3; 4; 5]%nat)
     = [(0, 0); (0, 1); (1, 0); (1, 1); (2, 0); (2, 1)]%nat.
Proof.
  intros Hwf Hd Hwr Hrows Hpos k random_states samples_indices.
  split; [|reflexivity].
  destruct (batch_value a radii class_label n g Hwf Hd Hwr Hrows Hpos)
    as (Hval & _ & Hrange).
  fold k random_states samples_indices in Hval, Hrange.
  eexists. split; [exact Hval|].
  intros j i sub Hi Hsub. rewrite Forall_forall in Hrange.
  assert (Hlt : (i < length (rows a) * k)%nat)
    by (apply Hrange; eapply nth_error_In; eauto).
  split; [exact Hlt|].
  destruct (drawn_sample_dense a radii i sub Hwf Hd Hwr Hrows Hlt)
    as (v & Ev & _).
  destruct (drawn_sample_inv _ _ _ _ _ Ev) as (center & radius & Hc & Hr & Hs).
  exists center, radius, v. repeat split; trivial.
  simpl. rewrite nth_error_map.
  rewrite (nth_error_combine _ _ _ _ _ Hi Hsub). simpl. now rewrite Ev.
Qed.

End BatchClaims.

#[local] Instance counting_utils_spec : ImbtoolsUtilsSpec nat.
Proof. split. intros g n. simpl. now rewrite length_map, length_seq. Qed.

Lemma three_points_wf : wf_ndarray2 three_points.
Proof. repeat constructor. Qed.

Lemma three_radii_wf : wf_ndarray2 three_radii.
Proof. repeat constructor. Qed.

(** C3 on the three points, six draws on the counting generator: the drawn
    indices are 0..5. *)
Lemma batch_draw_anchor_witness :
  fst (randint 6 6 6%nat) = [0; 1; 2; 3; 4; 5]%nat
  /\ (exists X_new,
        fst (_make_geometric_samples (Dense three_points) 1%Z three_radii 6 O)
        = Ok (Dense X_new, repeat 1%Z 6)
        /\ forall j i sub,
             nth_error (fst (randint (3 * 2) 6 (snd (check_random_states O 6)))) j
             = Some i ->
             nth_error (fst (check_random_states O 6)) j = Some sub ->
             (i < 3 * 2)%nat
             /\ exists center radius sample,
                  nth_error (rows three_points) (i / 2) = Some center
                  /\ getitem2 three_radii (i / 2) (i mod 2) = Ok radius
                  /\ fst (_make_geometric_sample (ndarray1 center) radius sub)
                     = Ok sample
                  /\ nth_error (rows X_new) j = Some sample).
Proof.
  split; [reflexivity|].
  refine (proj1 (batch_draw_anchor three_points three_radii 1%Z 6 O
                   three_points_wf _ three_radii_wf _ _)).
  - simpl; lia.
  - reflexivity.
  - simpl; lia.
Defined.

(** ** Reasoning on actions *)

Section Triples.

Context {rng : Type}.

Implicit Types (P : world rng -> Prop) (E : exn -> world rng -> Prop).

Lemma triple_ret {A : Type} P (a : A) (Q : A -> world rng -> Prop) E :
  (forall w, P w -> Q a w) -> triple P (ret a) Q E.
Proof. intros HQ w Hw. simpl. auto. Qed.

Lemma triple_lift {A : Type} P (r : result A) (Q : A -> world rng -> Prop) E :
  (forall w, P w -> match r with Ok a => Q a w | Raise e => E e w end) ->
  triple P (lift r) Q E.
Proof. intros HQ w Hw. unfold lift. specialize (HQ w Hw). now destruct r. Qed.

Lemma triple_bind {A B : Type} P (m : action rng A) (k : A -> action rng B)
  (Q1 : A -> world rng -> Prop) (Q : B -> world rng -> Prop) E :
  triple P m Q1 E -> (forall a, triple (Q1 a) (k a) Q E) ->
  triple P (bind m k) Q E.
Proof.
  intros Hm Hk w Hw. unfold bind. specialize (Hm w Hw).
  destruct (m w) as [[a|e] w']; [|exact Hm]. now apply Hk.
Qed.

Implicit Types R : world rng -> world rng -> Prop.

Lemma respects_ret {A : Type} R (a : A) : respects R (ret a).
Proof. intros w1 w2 HR. simpl. auto. Qed.

Lemma respects_raise {A : Type} R (e : exn) : respects R (@raise rng A e).
Proof. intros w1 w2 HR. simpl. auto. Qed.

Lemma respects_lift {A : Type} R (r : result A) : respects R (lift r).
Proof. intros w1 w2 HR. simpl. auto. Qed.

Lemma respects_bind {A B : Type} R (m : action rng A)
  (k : A -> action rng B) :
  respects R m -> (forall a, respects R (k a)) -> respects R (bind m k).
Proof.
  intros Hm Hk w1 w2 HR. unfold bind.
  destruct (Hm w1 w2 HR) as [Hfst Hsnd].
  destruct (m w1) as [r1 w1'], (m w2) as [r2 w2']. simpl in *. subst r2.
  destruct r1 as [a|e]; [now apply Hk | auto].
Qed.

Lemma respects_foldM {A B : Type} R (f : B -> A -> action rng B)
  (l : list A) :
  (forall b a, respects R (f b a)) -> forall b, respects R (foldM f l b).
Proof.
  intros Hf. induction l as [|a l IH]; intros b.
  - apply respects_ret.
  - simpl. apply respects_bind; auto.
Qed.

End Triples.

(** ** Outcomes of the batch generator on any feature matrix *)

Lemma quiet_getitem_list {A : Type} (l : list A) (i : nat) :
  quiet (getitem_list l i).
Proof. unfold getitem_list. now destruct (nth_error l i). Qed.

Lemma quiet_of_library {A : Type} (r : library A) : quiet (of_library r).
Proof. now destruct r. Qed.

Lemma quiet_bind {A B : Type} (r : result A) (k : A -> result B) :
  quiet r -> (forall a, quiet (k a)) -> quiet (bind_result r k).
Proof. destruct r; simpl; auto. Qed.

Lemma quiet_take {A : Type} (l : list A) (indices : list nat) :
  quiet (take l indices).
Proof.
  induction indices as [|i indices IH]; simpl; [exact I|].
  apply quiet_bind; [apply quiet_getitem_list|].
  intros x. apply quiet_bind; [exact IH | now intros].
Qed.

Lemma quiet_safe_indexing (X : features) (indices : list nat) :
  quiet (safe_indexing X indices).
Proof.
  destruct X; simpl; (apply quiet_bind; [apply quiet_take | now intros]).
Qed.

Lemma length_list_set {A : Type} (l : list A) (i : nat) (x : A) :
  length (list_set l i x) = length l.
Proof.
  revert i. induction l as [|h t IH]; intros [|i]; simpl; auto.
Qed.

Lemma setitem_outcome (a : ndarray2) (i : nat) (v : list float) :
  match setitem a i v with
  | Ok a' => length (rows a') = length (rows a) /\ ncols a' = ncols a
  | Raise e => is_unknown_kind e = false
  end.
Proof.
  unfold setitem.
  destruct (length (rows a) <=? i)%nat; [reflexivity|].
  destruct (length v =? ncols a)%nat;
    [simpl; now rewrite length_list_set|].
  destruct (length v =? 1)%nat; [simpl; now rewrite length_list_set|].
  reflexivity.
Qed.

Section BatchOutcome.

Context {rng : Type} `{RandomStateSpec rng} `{ScipyRow}
  `{ImbtoolsUtils rng}.

Lemma quiet_geometric_sample (center : array1) (radius : float) (g : rng) :
  quiet (fst (_make_geometric_sample center radius g)).
Proof.
  unfold _make_geometric_sample.
  destruct (normal (size center) g) as [nv g1].
  destruct (uniform g1) as [u g2].
  unfold py_truediv. destruct (size center =? 0)%nat; [reflexivity|].
  simpl. destruct center as [c|d stored]; simpl.
  - unfold np_add.
    repeat match goal with |- context [if ?b then _ else _] => destruct b end;
      reflexivity.
  - apply quiet_of_library.
Qed.

Lemma fill_rows_outcome (X : features) (radii : ndarray2)
  (items : list (nat * (nat * (nat * rng)))) :
  forall X_new,
    match fill_rows X radii X_new items with
    | Ok X' => length (rows X') = length (rows X_new)
               /\ ncols X' = ncols X_new
    | Raise e => is_unknown_kind e = false
    end.
Proof.
  induction items as [|[row_ind [row [col sub]]] items IH]; intros X_new.
  - simpl. auto.
  - simpl.
    destruct X as [a|d s]; simpl;
      (match goal with
       | |- context [getitem_list ?l ?i] =>
           pose proof (quiet_getitem_list l i) as Hc;
           destruct (getitem_list l i) as [c|e]; [|exact Hc]
       end);
      simpl;
      (unfold getitem2;
       match goal with
       | |- context [getitem_list (rows radii) ?i] =>
           pose proof (quiet_getitem_list (rows radii) i) as Hr;
           destruct (getitem_list (rows radii) i) as [r|e]; [|exact Hr]
       end);
      simpl;
      (pose proof (quiet_getitem_list r col) as Hrad;
       destruct (getitem_list r col) as [radius|e]; [|exact Hrad]);
      simpl;
      (match goal with
       | |- context [_make_geometric_sample ?c radius sub] =>
           pose proof (quiet_geometric_sample c radius sub) as Hs;
           destruct (fst (_make_geometric_sample c radius sub)) as [v|e];
           [|exact Hs]
       end);
      simpl;
      (pose proof (setitem_outcome X_new row_ind v) as Hset;
       destruct (setitem X_new row_ind v) as [X1|e]; [|exact Hset]);
      simpl; specialize (IH X1);
      (match goal with
       | |- match ?f with _ => _ end =>
           destruct f as [X'|e]; [|exact IH]
       end);
      destruct IH, Hset; split; congruence.
Qed.

(** Whatever the feature matrix, a batch the generator returns is a dense
    array of [n_samples] rows with as many copies of the label, and an
    exception it raises is not the configuration error. *)
Lemma batch_outcome (X : features) (class_label : label) (radii : ndarray2)
  (n : nat) (g : rng) :
  match fst (_make_geometric_samples X class_label radii n g) with
  | Ok (X_new, y_new) =>
      exists a, X_new = Dense a /\ length (rows a) = n
                /\ ncols a = shape1 X /\ y_new = repeat class_label n
  | Raise e => is_unknown_kind e = false
  end.
Proof.
  unfold _make_geometric_samples.
  destruct (check_random_states g n) as [subs g1].
  unfold py_randint.
  destruct (length (flatten radii) =? 0)%nat; [reflexivity|].
  pose proof (randint_size (length (flatten radii)) n g1) as Hsize.
  destruct (randint (length (flatten radii)) n g1) as [idx g2].
  simpl in *.
  match goal with
  | |- context [fill_rows X radii ?z ?items] =>
      pose proof (fill_rows_outcome X radii items z) as Hfill;
      destruct (fill_rows X radii z items) as [X'|e]; [|exact Hfill]
  end.
  simpl in *. destruct Hfill as [Hrows Hcols].
  exists X'. rewrite repeat_length in Hrows. rewrite Hsize. auto.
Qed.

End BatchOutcome.

Section BatchSize.

Context {rng : Type} `{RandomStateSpec rng} `{ScipyRow}
  `{ImbtoolsUtilsSpec rng}.


End BatchSize.



(** ** The resampling pass: outcomes *)

Section PassOutcome.

Context {rng : Type} `{RandomStateSpec rng} `{ScipyRow}
  `{ImbtoolsUtils rng} `{Sklearn} `{ScipyStack}.

Lemma sample_class_parts (self : GeometricSMOTE) (X : features)
  (y : list label) (X_resampled : features) (y_resampled : list label)
  (class_label : label) (n_samples : nat) :
  sample_class self X y (X_resampled, y_resampled) (class_label, n_samples)
  = (if (n_samples =? 0)%nat then ret (X_resampled, y_resampled)
     else
       X_positive <-
         lift (safe_indexing X
                 (flatnonzero (map (fun l => Z.eqb l class_label) y))) ;;
       X_negative <-
         lift (safe_indexing X
                 (flatnonzero (map (fun l => negb (Z.eqb l class_label)) y))) ;;
       new <-
         (if kind_in (kind self) ["minority"; "regular"]%string then
            radii_and_batch self Minority X_positive X_positive class_label
              n_samples
          else ret None) ;;
       new <-
         (if kind_in (kind self) ["majority"; "regular"]%string then
            radii_and_batch self Majority X_negative X_positive class_label
              n_samples
          else ret new) ;;
       stack_batch X_resampled y_resampled new)%action.
Proof. reflexivity. Qed.

Lemma keeps_record (s0 : list call) (c : call) (w : world rng) :
  is_sparse_vstack c = false -> keeps s0 w -> keeps s0 (record c w).
Proof.
  unfold keeps, record. simpl. intros Hc <-.
  rewrite filter_app. simpl. rewrite Hc. apply app_nil_r.
Qed.

Lemma keeps_set_nn (s0 : list call) (s : slot) (nn : NearestNeighbors)
  (w : world rng) : keeps s0 w -> keeps s0 (set_nn s nn w).
Proof. now destruct s. Qed.

Lemma nn_fit_outcome (s0 : list call) (s : slot) (X : features) :
  triple (rng := rng) (keeps s0) (nn_fit s X) (fun _ w => keeps s0 w) (quietly s0).
Proof.
  intros w Hw. unfold nn_fit.
  destruct (get_nn s w) as [nn|]; [|now split].
  destruct (fit_error (n_neighbors nn) X).
  - split; [reflexivity|]. now apply keeps_record.
  - apply keeps_set_nn. now apply keeps_record.
Qed.

Lemma nn_kneighbors_outcome (s0 : list call) (s : slot) (X : features) :
  triple (rng := rng) (keeps s0) (nn_kneighbors s X) (fun _ w => keeps s0 w) (quietly s0).
Proof.
  intros w Hw. unfold nn_kneighbors.
  destruct (get_nn s w) as [nn|]; [|now split].
  destruct (fit_X nn) as [fitted|].
  - pose proof (quiet_of_library (kneighbors (n_neighbors nn) fitted X)) as Hq.
    destruct (of_library _) as [radii|e].
    + now apply keeps_record.
    + split; [exact Hq|]. now apply keeps_record.
  - split; [reflexivity|]. now apply keeps_record.
Qed.

Lemma check_random_state_outcome (s0 : list call) (seed : random_state_t) :
  triple (rng := rng) (keeps s0) (check_random_state seed) (fun _ w => keeps s0 w)
    (quietly s0).
Proof.
  intros w Hw. destruct seed as [|z|]; simpl; trivial.
  unfold check_random_state.
  match goal with |- context [if ?b then _ else _] => destruct b end;
    simpl; [trivial | now split].
Qed.

Lemma drawing_batch_outcome (s0 : list call) (r : generator rng)
  (X : features) (class_label : label) (radii : ndarray2) (n : nat) :
  triple (keeps s0)
    (drawing r (_make_geometric_samples X class_label radii n))
    (fun new w => keeps s0 w /\ dense_batch n class_label new)
    (quietly s0).
Proof.
  intros w Hw. unfold drawing.
  assert (Hout : forall g,
             match fst (_make_geometric_samples X class_label radii n g) with
             | Ok new => dense_batch n class_label new
             | Raise e => is_unknown_kind e = false
             end).
  { intros g. pose proof (batch_outcome X class_label radii n g) as Hb.
    destruct (fst _) as [[X_new y_new]|e]; [|exact Hb].
    destruct Hb as (a & -> & Hrows & _ & ->). now exists a. }
  destruct r as [| |g].
  - specialize (Hout (np_random w)).
    destruct (_make_geometric_samples _ _ _ _ _) as [[new|e] g']; simpl in *;
      now split.
  - specialize (Hout (instance_state w)).
    destruct (_make_geometric_samples _ _ _ _ _) as [[new|e] g']; simpl in *;
      now split.
  - specialize (Hout g).
    destruct (fst _) as [new|e]; now split.
Qed.

Lemma radii_and_batch_outcome (s0 : list call) (self : GeometricSMOTE)
  (s : slot) (X_fit X_positive : features) (class_label : label) (n : nat) :
  triple (keeps s0)
    (radii_and_batch self s X_fit X_positive class_label n)
    (fun new w =>
       keeps s0 w /\ exists b, new = Some b /\ dense_batch n class_label b)
    (quietly s0).
Proof.
  unfold radii_and_batch.
  apply triple_bind with (Q1 := fun _ w => keeps s0 w);
    [apply nn_fit_outcome | intros _].
  apply triple_bind with (Q1 := fun _ w => keeps s0 w);
    [apply nn_kneighbors_outcome | intros radii].
  apply triple_bind with (Q1 := fun _ w => keeps s0 w);
    [apply check_random_state_outcome | intros r].
  eapply triple_bind; [apply drawing_batch_outcome | intros new].
  apply triple_ret. intros w [Hw Hb]. split; [exact Hw|]. now exists new.
Qed.

Lemma stack_batch_outcome (s0 : list call) (X_resampled : features)
  (y_resampled : list label) (class_label : label) (n : nat)
  (new : features * list label) :
  dense_batch n class_label new ->
  triple (rng := rng) (keeps s0) (stack_batch X_resampled y_resampled (Some new))
    (fun r w =>
       keeps s0 w /\ snd r = y_resampled ++ repeat class_label n
       /\ exists batch, length batch = n
                        /\ appended X_resampled batch (fst r))
    (quietly s0).
Proof.
  intros (a & Ha & Hrows & Hy). destruct new as [X_new y_new].
  simpl in Ha, Hy. subst X_new y_new. simpl.
  intros w Hw. unfold bind, lift, np_vstack.
  destruct X_resampled as [a0|d0 st0].
  - destruct (ncols a0 =? ncols a)%nat; simpl; [|now split].
    split; [exact Hw|]. split; [reflexivity|]. now exists (rows a).
  - pose proof (quiet_of_library
                  (np_vstack_sparse (Sparse d0 st0) (Dense a))) as Hq.
    destruct (of_library _) as [X'|e]; simpl; [|now split].
    split; [exact Hw|]. split; [reflexivity|]. now exists (rows a).
Qed.

Lemma nn_fit_calls (s : slot) (X : features) (w w1 : world rng) :
  nn_fit s X w = (Ok tt, w1) -> calls w1 = calls w ++ [Fit s X].
Proof.
  unfold nn_fit. destruct (get_nn s w) as [nn|]; [|discriminate].
  destruct (fit_error (n_neighbors nn) X); [discriminate|].
  intros [= <-]. now destruct s.
Qed.

Lemma nn_kneighbors_calls (s : slot) (X : features) (w w1 : world rng)
  (radii : ndarray2) :
  nn_kneighbors s X w = (Ok radii, w1) ->
  calls w1 = calls w ++ [Kneighbors s X].
Proof.
  unfold nn_kneighbors. destruct (get_nn s w) as [nn|]; [|discriminate].
  destruct (fit_X nn); [|discriminate]. now intros [= _ <-].
Qed.

(** A fit, a query and a batch that return leave exactly those two calls. *)
Lemma radii_and_batch_calls (self : GeometricSMOTE) (s : slot)
  (X_fit X_positive : features) (class_label : label) (n : nat)
  (w w' : world rng) (new : option (features * list label)) :
  radii_and_batch self s X_fit X_positive class_label n w = (Ok new, w') ->
  calls w' = calls w ++ [Fit s X_fit; Kneighbors s X_positive]
  /\ exists b, new = Some b /\ dense_batch n class_label b.
Proof.
  intros Hrun. split.
  - revert Hrun. unfold radii_and_batch, bind.
    destruct (nn_fit s X_fit w) as [[[]|e] w1] eqn:E1; [|discriminate].
    destruct (nn_kneighbors s X_positive w1) as [[radii|e] w2] eqn:E2;
      [|discriminate].
    apply nn_fit_calls in E1. apply nn_kneighbors_calls in E2.
    assert (E3 : calls w2 = calls w ++ [Fit s X_fit; Kneighbors s X_positive])
      by (rewrite E2, E1, <- app_assoc; reflexivity).
    clear E1 E2. unfold check_random_state, drawing, ret, raise.
    destruct (random_state self) as [|z|].
    + destruct (_make_geometric_samples _ _ _ _ _) as [[b|e] g];
        [|discriminate]. now intros [= _ <-].
    + match goal with |- context [if ?c then _ else _] => destruct c end;
        [|discriminate].
      destruct (fst (_make_geometric_samples _ _ _ _ _)) as [b|e];
        [|discriminate]. now intros [= _ <-].
    + destruct (_make_geometric_samples _ _ _ _ _) as [[b|e] g];
        [|discriminate]. now intros [= _ <-].
  - pose proof (radii_and_batch_outcome (filter is_sparse_vstack (calls w))
                  self s X_fit X_positive class_label n w eq_refl) as Hout.
    rewrite Hrun in Hout. now destruct Hout.
Qed.

Lemma stack_batch_world (X_resampled : features) (y_resampled : list label)
  (n : nat) (class_label : label) (b r : features * list label)
  (w w' : world rng) :
  dense_batch n class_label b ->
  stack_batch X_resampled y_resampled (Some b) w = (Ok r, w') -> w' = w.
Proof.
  intros (a & Ha & _). destruct b as [X_new y_new]. simpl in Ha. subst X_new.
  simpl. unfold bind, lift.
  destruct (np_vstack X_resampled (Dense a)); [|discriminate].
  now intros [= _ <-].
Qed.

(** One turn of the loop: the labels grow by [n_samples] copies of the
    class label and a dense accumulated matrix by as many rows; no call of
    [sparse.vstack] is made; an exception is not the configuration
    error. *)
Lemma sample_class_outcome (s0 : list call) (self : GeometricSMOTE)
  (X : features) (y : list label) (X_resampled : features)
  (y_resampled : list label) (class_label : label) (n : nat) :
  triple (keeps s0)
    (sample_class self X y (X_resampled, y_resampled) (class_label, n))
    (fun r w =>
       keeps s0 w /\ snd r = y_resampled ++ repeat class_label n
       /\ exists batch, length batch = n
                        /\ appended X_resampled batch (fst r))
    (quietly s0).
Proof.
  rewrite sample_class_parts.
  destruct (Nat.eqb_spec n 0) as [->|Hn].
  - apply triple_ret. intros w Hw. split; [exact Hw|]. simpl.
    split; [now rewrite app_nil_r|]. exists []. split; [reflexivity|].
    destruct X_resampled as [[d r]|]; simpl; [now rewrite app_nil_r | exact I].
  - apply triple_bind with (Q1 := fun _ w => keeps s0 w).
    { apply triple_lift. intros w Hw.
      pose proof (quiet_safe_indexing X
                    (flatnonzero (map (fun l => Z.eqb l class_label) y))) as Hq.
      destruct (safe_indexing X _); [exact Hw | now split]. }
    intros X_positive.
    apply triple_bind with (Q1 := fun _ w => keeps s0 w).
    { apply triple_lift. intros w Hw.
      pose proof (quiet_safe_indexing X
                    (flatnonzero
                       (map (fun l => negb (Z.eqb l class_label)) y))) as Hq.
      destruct (safe_indexing X _); [exact Hw | now split]. }
    intros X_negative.
    apply triple_bind with
      (Q1 := fun new w =>
               keeps s0 w
               /\ (kind_in (kind self) ["minority"; "regular"]%string = true ->
                   exists b, new = Some b /\ dense_batch n class_label b)
               /\ (kind_in (kind self) ["minority"; "regular"]%string = false ->
                   new = None)).
    { destruct (kind_in (kind self) ["minority"; "regular"]%string).
      - intros w Hw.
        pose proof (radii_and_batch_outcome s0 self Minority X_positive
                      X_positive class_label n w Hw) as Hout.
        destruct (radii_and_batch _ _ _ _ _ _ w) as [[new|e] w'];
          [|exact Hout].
        destruct Hout as [Hw' Hb]. split; [exact Hw'|].
        split; [auto | discriminate].
      - apply triple_ret. intros w Hw. split; [exact Hw|].
        split; [discriminate | reflexivity]. }
    intros new1.
    apply triple_bind with
      (Q1 := fun new w =>
               keeps s0 w
               /\ (new = None
                   \/ exists b, new = Some b /\ dense_batch n class_label b)).
    { destruct (kind_in (kind self) ["majority"; "regular"]%string).
      - intros w [Hw _].
        pose proof (radii_and_batch_outcome s0 self Majority X_negative
                      X_positive class_label n w Hw) as Hout.
        destruct (radii_and_batch _ _ _ _ _ _ w) as [[new|e] w'];
          [|exact Hout].
        destruct Hout as [Hw' Hb]. split; [exact Hw' | now right].
      - apply triple_ret. intros w (Hw & Hyes & Hno). split; [exact Hw|].
        destruct (kind_in (kind self) ["minority"; "regular"]%string);
          [right | left]; auto. }
    intros new2.
    intros w [Hw [->|(b & -> & Hb)]].
    + simpl. now split.
    + now apply (stack_batch_outcome s0 X_resampled y_resampled class_label n b Hb).
Qed.

End PassOutcome.

Lemma kind_in_In (k : string) (choices : list string) :
  kind_in k choices = true <-> In k choices.
Proof.
  unfold kind_in. rewrite existsb_exists. split.
  - intros (c & Hc & E). apply String.eqb_eq in E. now subst.
  - intros Hk. exists k. split; [exact Hk | apply String.eqb_refl].
Qed.

Section PassProperties.

Context {rng : Type} `{RandomStateSpec rng} `{ScipyRow}
  `{ImbtoolsUtils rng} `{Sklearn} `{ScipyStack}.

Lemma validate_outcome (s0 : list call) (self : GeometricSMOTE) :
  triple (rng := rng) (keeps s0) (_validate_estimator self)
    (fun _ w => keeps s0 w)
    (fun e w =>
       keeps s0 w
       /\ e = ValueError (Unknown_kind (kind self))
       /\ ~ In (kind self) GEOMETRIC_SMOTE_KIND).
Proof.
  intros w Hw. unfold _validate_estimator.
  destruct (kind_in (kind self) GEOMETRIC_SMOTE_KIND) eqn:Hk; cbn [negb].
  - unfold bind, new_nn, ret.
    destruct (kind_in (kind self) ["minority"; "regular"]%string);
      destruct (kind_in (kind self) ["majority"; "regular"]%string);
      simpl; trivial.
  - unfold raise. split; [exact Hw|]. split; [reflexivity|].
    intros Hin. apply kind_in_In in Hin. congruence.
Qed.

(** The loop over [self.ratio_]: every item contributes its count of labels
    and, on a dense matrix, as many rows. *)
Lemma loop_outcome (s0 : list call) (self : GeometricSMOTE) (X : features)
  (y : list label) (items : list (label * nat)) :
  forall X_resampled y_resampled,
    triple (keeps s0)
      (foldM (sample_class self X y) items (X_resampled, y_resampled))
      (fun r w =>
         keeps s0 w
         /\ snd r = y_resampled
                    ++ flat_map (fun item => repeat (fst item) (snd item)) items
         /\ exists batches,
              Forall2 (fun item batch => length batch = snd item) items batches
              /\ appended X_resampled (concat batches) (fst r))
      (quietly s0).
Proof.
  induction items as [|[c n] items IH]; intros X_resampled y_resampled w Hw.
  - simpl. split; [exact Hw|]. split; [now rewrite app_nil_r|].
    exists []. split; [constructor|].
    destruct X_resampled as [[d r]|]; simpl; [now rewrite app_nil_r | exact I].
  - simpl. unfold bind.
    pose proof (sample_class_outcome s0 self X y X_resampled y_resampled c n
                  w Hw) as Hstep.
    destruct (sample_class self X y (X_resampled, y_resampled) (c, n) w)
      as [[[X1 y1]|e] w1]; [|exact Hstep].
    simpl in Hstep. destruct Hstep as (Hw1 & -> & b & Hb & Happ).
    pose proof (IH X1 (y_resampled ++ repeat c n) w1 Hw1) as Hrest.
    destruct (foldM _ items _ w1) as [[[X2 y2]|e] w2]; [|exact Hrest].
    simpl in Hrest |- *. destruct Hrest as (Hw2 & -> & bs & Hbs & Happ2).
    split; [exact Hw2|]. split; [now rewrite app_assoc|].
    exists (b :: bs). split; [now constructor|].
    destruct X_resampled as [a0|]; simpl in *; [|exact I].
    subst X1. simpl in Happ2. now rewrite <- app_assoc in Happ2.
Qed.

Lemma pass_outcome (s0 : list call) (self : GeometricSMOTE) (X : features)
  (y : list label) :
  triple (keeps s0) (_sample self X y)
    (fun r w =>
       keeps s0 w
       /\ snd r = y ++ flat_map (fun item => repeat (fst item) (snd item))
                         (ratio_ self)
       /\ exists batches,
            Forall2 (fun item batch => length batch = snd item)
              (ratio_ self) batches
            /\ appended X (concat batches) (fst r))
    (fun e w =>
       keeps s0 w
       /\ (In (kind self) GEOMETRIC_SMOTE_KIND -> is_unknown_kind e = false)).
Proof.
  intros w Hw. unfold _sample, bind.
  pose proof (validate_outcome s0 self w Hw) as Hv.
  destruct (_validate_estimator self w) as [[[]|e] w0].
  - pose proof (loop_outcome s0 self X y (ratio_ self) X y w0 Hv) as Hl.
    destruct (foldM _ (ratio_ self) _ w0) as [[r|e] w1]; [exact Hl|].
    destruct Hl as [He Hw1]. now split.
  - destruct Hv as (Hw0 & _ & Hn). split; [exact Hw0 | contradiction].
Qed.

(** C6. A class whose required count is 0 is skipped: its turn of the loop
    returns the accumulated rows and labels as they are and leaves the
    world, and so the record of neighbour-search calls, unchanged; the
    whole pass is the pass over the items with a non-zero count. *)
Theorem zero_count_class_skipped (self : GeometricSMOTE) (X : features)
  (y : list label) (w : world rng) :
  (forall resampled class_label,
     sample_class self X y resampled (class_label, O) w = (Ok resampled, w))
  /\ _sample self X y w
     = _sample
         (with_ratio self
            (filter (fun item => negb (snd item =? 0)%nat) (ratio_ self)))
         X y w.
Proof.
  split.
  - now intros [X_resampled y_resampled] class_label.
  - set (r := filter (fun item => negb (snd item =? 0)%nat) (ratio_ self)).
    unfold _sample, bind.
    change (_validate_estimator (with_ratio self r) w)
      with (_validate_estimator self w).
    change (sample_class (with_ratio self r) X y)
      with (sample_class self X y).
    change (ratio_ (with_ratio self r)) with r. subst r.
    destruct (_validate_estimator self w) as [[[]|e] w0]; [|reflexivity].
    generalize (X, y) as resampled. revert w0.
    induction (ratio_ self) as [|[c n] items IH]; intros w0 resampled.
    + reflexivity.
    + simpl. destruct (Nat.eqb_spec n 0) as [->|Hn]; simpl.
      * unfold bind at 1. destruct resampled as [Xr yr]. simpl.
        apply IH.
      * unfold bind.
        destruct (sample_class self X y resampled (c, n) w0)
          as [[r|e] w1]; [apply IH | reflexivity].
Qed.

(** C7. With a kind outside [GEOMETRIC_SMOTE_KIND] the pass raises the
    configuration error whatever the data, leaving the world as it was;
    with a kind of the tuple the setup returns and no later step raises that
    error. *)
Theorem unknown_kind_rejected_at_setup (self : GeometricSMOTE) :
  (~ In (kind self) GEOMETRIC_SMOTE_KIND ->
   forall X y (w : world rng),
     _sample self X y w = (Raise (ValueError (Unknown_kind (kind self))), w))
  /\ (In (kind self) GEOMETRIC_SMOTE_KIND ->
      forall X y (w : world rng),
        fst (_validate_estimator self w) = Ok tt
        /\ forall k,
             fst (_sample self X y w) <> Raise (ValueError (Unknown_kind k))).
Proof.
  split.
  - intros Hk X y w. unfold _sample, bind, _validate_estimator.
    destruct (kind_in (kind self) GEOMETRIC_SMOTE_KIND) eqn:E.
    + apply kind_in_In in E. contradiction.
    + reflexivity.
  - intros Hk X y w. split.
    + pose proof (validate_outcome (filter is_sparse_vstack (calls w)) self w
                    eq_refl) as Hv.
      destruct (_validate_estimator self w) as [[[]|e] w'];
        [reflexivity|]. now destruct Hv as (_ & _ & Hn).
    + intros k Hraise.
      pose proof (pass_outcome (filter is_sparse_vstack (calls w)) self X y w
                    eq_refl) as Hp.
      destruct (_sample self X y w) as [[r|e] w']; [discriminate|].
      simpl in Hraise. injection Hraise as ->.
      destruct Hp as [_ Hq]. specialize (Hq Hk). discriminate.
Qed.

(** C8. On a dense feature matrix, the dataset the pass returns is the
    input rows, unchanged and in order, followed by one batch per item of
    [self.ratio_], in order, of as many rows as the item's count; the labels
    are the input labels followed, in the same order, by as many copies of
    each item's class label. *)
Theorem resampled_extends_input (self : GeometricSMOTE) (a : ndarray2)
  (y : list label) (w : world rng) (X_resampled : features)
  (y_resampled : list label) :
  fst (_sample self (Dense a) y w) = Ok (X_resampled, y_resampled) ->
  exists batches,
    Forall2 (fun item batch => length batch = snd item) (ratio_ self) batches
    /\ X_resampled = Dense (mk_ndarray2 (ncols a) (rows a ++ concat batches))
    /\ y_resampled
       = y ++ flat_map (fun item => repeat (fst item) (snd item))
                (ratio_ self).
Proof.
  intros Hret.
  pose proof (pass_outcome (filter is_sparse_vstack (calls w)) self (Dense a)
                y w eq_refl) as Hp.
  destruct (_sample self (Dense a) y w) as [[r|e] w']; [|discriminate].
  simpl in Hret. injection Hret as ->.
  destruct Hp as (_ & Hy & batches & Hb & Happ). simpl in *.
  exists batches. auto.
Qed.

(** C10. Whatever the feature matrix, sparse or dense, a batch the
    generator returns is a dense array of [n_samples] rows, and the pass
    never calls [sparse.vstack]. *)
Theorem batch_dense_sparse_branch_dead :
  (forall (X : features) (class_label : label) (radii : ndarray2) (n : nat)
          (g : rng),
      match fst (_make_geometric_samples X class_label radii n g) with
      | Ok (X_new, _) =>
          issparse X_new = false /\ shape0 X_new = n
          /\ shape1 X_new = shape1 X
      | Raise _ => True
      end)
  /\ (forall (self : GeometricSMOTE) (X : features) (y : list label)
             (w : world rng),
         filter is_sparse_vstack (calls (snd (_sample self X y w)))
         = filter is_sparse_vstack (calls w)).
Proof.
  split.
  - intros X class_label radii n g.
    pose proof (batch_outcome X class_label radii n g) as Hb.
    destruct (fst _) as [[X_new y_new]|e]; [|exact I].
    destruct Hb as (a & -> & Hrows & Hcols & _). simpl. auto.
  - intros self X y w.
    pose proof (pass_outcome (filter is_sparse_vstack (calls w)) self X y w
                  eq_refl) as Hp.
    destruct (_sample self X y w) as [[r|e] w']; simpl; now destruct Hp.
Qed.

End PassProperties.

(** ** The resampling pass: determinism *)

Section PassDeterminism.

Context {rng : Type} `{RandomState rng} `{ScipyRow} `{ImbtoolsUtils rng}
  `{Sklearn} `{ScipyStack}.

Lemma agree_record (self : GeometricSMOTE) (c1 c2 : call)
  (w1 w2 : world rng) :
  agree self w1 w2 -> agree self (record c1 w1) (record c2 w2).
Proof.
  intros [Hg Hs]. split.
  - unfold same_generator in *. now destruct (random_state self).
  - intros s Hu. specialize (Hs s Hu). now destruct s.
Qed.

Lemma agree_set_nn (self : GeometricSMOTE) (s : slot)
  (nn : NearestNeighbors) (w1 w2 : world rng) :
  agree self w1 w2 -> agree self (set_nn s nn w1) (set_nn s nn w2).
Proof.
  intros [Hg Hs]. split.
  - unfold same_generator in *. now destruct (random_state self), s.
  - intros s' Hu. specialize (Hs s' Hu). now destruct s, s'.
Qed.

Lemma respects_nn_fit (self : GeometricSMOTE) (s : slot) (X : features) :
  uses self s = true -> respects (rng := rng) (agree self) (nn_fit s X).
Proof.
  intros Hu w1 w2 Hw. unfold nn_fit.
  rewrite <- (proj2 Hw s Hu).
  destruct (get_nn s w1) as [nn|]; [|now split].
  destruct (fit_error (n_neighbors nn) X); simpl.
  - split; [reflexivity | now apply agree_record].
  - split; [reflexivity|]. now apply agree_set_nn, agree_record.
Qed.

Lemma respects_nn_kneighbors (self : GeometricSMOTE) (s : slot)
  (X : features) :
  uses self s = true -> respects (rng := rng) (agree self) (nn_kneighbors s X).
Proof.
  intros Hu w1 w2 Hw. unfold nn_kneighbors.
  rewrite <- (proj2 Hw s Hu).
  destruct (get_nn s w1) as [nn|]; [|now split].
  destruct (fit_X nn); simpl; (split; [reflexivity | now apply agree_record]).
Qed.

(** Making the generator and drawing from it. *)
Lemma respects_draw {A B : Type} (self : GeometricSMOTE)
  (f : rng -> result A * rng) (k : A -> action rng B) :
  (forall a, respects (agree self) (k a)) ->
  respects (agree self)
    (generator <- check_random_state (random_state self) ;;
     new <- drawing generator f ;;
     k new)%action.
Proof.
  intros Hk w1 w2 Hw. pose proof Hw as [Hg Hs].
  assert (Hset : forall v1 v2 : world rng,
             same_generator (random_state self) v1 v2 ->
             nn_minority_ v1 = nn_minority_ w1 ->
             nn_majority_ v1 = nn_majority_ w1 ->
             nn_minority_ v2 = nn_minority_ w2 ->
             nn_majority_ v2 = nn_majority_ w2 ->
             agree self v1 v2).
  { intros v1 v2 Hv E1 E2 E3 E4. split; [exact Hv|].
    intros s Hu. specialize (Hs s Hu). destruct s; simpl in *; congruence. }
  unfold check_random_state, bind, drawing, ret, raise.
  unfold same_generator in Hg, Hset.
  destruct (random_state self) as [|z|].
  - rewrite <- Hg. destruct (f (np_random w1)) as [[a|e] g].
    + apply Hk. now apply Hset.
    + simpl. split; [reflexivity|]. now apply Hset.
  - match goal with |- context [if ?b then _ else _] => destruct b end.
    + destruct (fst (f (seeded z))) as [a|e].
      * apply Hk. exact Hw.
      * simpl. now split.
    + simpl. now split.
  - rewrite <- Hg. destruct (f (instance_state w1)) as [[a|e] g].
    + apply Hk. now apply Hset.
    + simpl. split; [reflexivity|]. now apply Hset.
Qed.

Lemma respects_radii_and_batch (self : GeometricSMOTE) (s : slot)
  (X_fit X_positive : features) (class_label : label) (n : nat) :
  uses self s = true ->
  respects (agree self)
    (radii_and_batch self s X_fit X_positive class_label n).
Proof.
  intros Hu. unfold radii_and_batch.
  apply respects_bind; [now apply respects_nn_fit | intros _].
  apply respects_bind; [now apply respects_nn_kneighbors | intros radii].
  apply respects_draw. intros new. apply respects_ret.
Qed.

Lemma respects_stack_batch (self : GeometricSMOTE) (X_resampled : features)
  (y_resampled : list label) (new : option (features * list label)) :
  respects (rng := rng) (agree self)
    (stack_batch X_resampled y_resampled new).
Proof.
  destruct new as [[X_new y_new]|]; simpl; [|apply respects_raise].
  apply respects_bind; [|intros X'; apply respects_ret].
  destruct (issparse X_new); [|apply respects_lift].
  intros w1 w2 Hw. unfold do_sparse_vstack. simpl.
  split; [reflexivity | now apply agree_record].
Qed.

Lemma respects_sample_class (self : GeometricSMOTE) (X : features)
  (y : list label) (resampled : features * list label)
  (item : label * nat) :
  respects (agree self) (sample_class self X y resampled item).
Proof.
  destruct resampled as [X_resampled y_resampled], item as [c n].
  unfold sample_class.
  fold (radii_and_batch self Minority).
  destruct (n =? 0)%nat; [apply respects_ret|].
  apply respects_bind; [apply respects_lift | intros X_positive].
  apply respects_bind; [apply respects_lift | intros X_negative].
  apply respects_bind.
  { destruct (kind_in (kind self) ["minority"; "regular"]%string) eqn:E;
      [|apply respects_ret].
    now apply (respects_radii_and_batch self Minority). }
  intros new1. apply respects_bind.
  { destruct (kind_in (kind self) ["majority"; "regular"]%string) eqn:E;
      [|apply respects_ret].
    now apply (respects_radii_and_batch self Majority). }
  intros new2. apply (respects_stack_batch self).
Qed.

(** After the setup, two worlds with the generator in the same state agree. *)
Lemma validate_agree (self : GeometricSMOTE) (w1 w2 : world rng) :
  same_generator (random_state self) w1 w2 ->
  fst (_validate_estimator self w1) = fst (_validate_estimator self w2)
  /\ (fst (_validate_estimator self w1) = Ok tt ->
      agree self (snd (_validate_estimator self w1))
        (snd (_validate_estimator self w2))).
Proof.
  intros Hg. unfold _validate_estimator.
  destruct (kind_in (kind self) GEOMETRIC_SMOTE_KIND); cbn [negb];
    [|split; [reflexivity | discriminate]].
  unfold bind, new_nn, ret, agree, uses.
  destruct (kind_in (kind self) ["minority"; "regular"]%string);
    destruct (kind_in (kind self) ["majority"; "regular"]%string);
    simpl; (split; [reflexivity|]); intros _;
    (split; [unfold same_generator in *; now destruct (random_state self)|]);
    intros [|]; simpl; congruence.
Qed.

(** C9. The dataset the pass returns, or the exception it raises, is
    determined by its arguments and the state of the generator its
    [random_state] denotes: two runs from worlds that hold that generator in
    the same state have the same outcome, and with an integer seed any two
    runs do. *)
Theorem sample_deterministic (self : GeometricSMOTE) (X : features)
  (y : list label) (w1 w2 : world rng) :
  same_generator (random_state self) w1 w2 ->
  fst (_sample self X y w1) = fst (_sample self X y w2).
Proof.
  intros Hg. unfold _sample, bind.
  destruct (validate_agree self w1 w2 Hg) as [Hv Ha].
  destruct (_validate_estimator self w1) as [r1 w1'],
           (_validate_estimator self w2) as [r2 w2'].
  simpl in Hv, Ha. subst r2. destruct r1 as [[]|e]; [|reflexivity].
  apply (respects_foldM (agree self)); [|now apply Ha].
  intros b a. apply respects_sample_class.
Qed.

End PassDeterminism.

(** ** Regular mode *)

Section RegularMode.

Context {rng : Type} `{RandomStateSpec rng} `{ScipyRow}
  `{ImbtoolsUtils rng} `{Sklearn} `{ScipyStack}.

Lemma nn_fit_frame (X : features) (w : world rng) :
  nn_majority_ (snd (nn_fit Minority X w)) = nn_majority_ w.
Proof.
  unfold nn_fit. simpl. destruct (nn_minority_ w) as [nn|]; [|reflexivity].
  now destruct (fit_error (n_neighbors nn) X).
Qed.

Lemma nn_kneighbors_frame (X : features) (w : world rng) :
  nn_majority_ (snd (nn_kneighbors Minority X w)) = nn_majority_ w.
Proof.
  unfold nn_kneighbors. simpl.
  destruct (nn_minority_ w) as [nn|]; [|reflexivity].
  now destruct (fit_X nn).
Qed.

(** With an integer seed the minority computations leave the majority
    estimator as it was. *)
Lemma minority_pass_frame (self : GeometricSMOTE) (X : features)
  (y : list label) (item : label * nat) (w : world rng) (seed : Z) :
  random_state self = RS_int seed ->
  nn_majority_ (snd (minority_pass_dropped self X y item w))
  = nn_majority_ w.
Proof.
  intros Hseed. destruct item as [c n].
  unfold minority_pass_dropped. rewrite Hseed.
  destruct (n =? 0)%nat; [reflexivity|].
  unfold bind, lift, ret.
  destruct (safe_indexing X (flatnonzero (map (fun l => Z.eqb l c) y)))
    as [Xp|e]; [|reflexivity].
  destruct (safe_indexing X
              (flatnonzero (map (fun l => negb (Z.eqb l c)) y)))
    as [Xn|e]; [|reflexivity].
  pose proof (nn_fit_frame Xp w) as F1.
  destruct (nn_fit Minority Xp w) as [[[]|e] w1]; simpl in F1; [|exact F1].
  pose proof (nn_kneighbors_frame Xp w1) as F2.
  destruct (nn_kneighbors Minority Xp w1) as [[radii|e] w2]; simpl in F2;
    [|simpl; congruence].
  unfold check_random_state, raise, ret.
  match goal with |- context [if ?b then _ else _] => destruct b end;
    [|simpl; congruence].
  unfold drawing.
  destruct (fst (_make_geometric_samples Xp c radii n (seeded seed)));
    simpl; congruence.
Qed.

(** C5. In regular mode a turn of the loop is the minority computations
    (neighbour search on the class's own points, then a batch from those
    radii) with their batch dropped, followed by the turn of majority mode:
    the rows and labels appended are those made from the majority radii.
    With an integer seed, and when the minority computations do not raise,
    the turn returns exactly what the turn of majority mode returns. A turn
    that returns, for a class with a non-zero count, has fitted and queried
    the minority search and then the majority search, both on the points of
    the class. *)
Theorem regular_mode_majority_batch (self : GeometricSMOTE) (X : features)
  (y : list label) (resampled : features * list label)
  (item : label * nat) (w : world rng) :
  kind self = "regular"%string ->
  sample_class self X y resampled item w
  = (minority_pass_dropped self X y item ;;;
     sample_class (with_kind self "majority") X y resampled item)%action w
  /\ (forall seed,
        random_state self = RS_int seed ->
        fst (minority_pass_dropped self X y item w) = Ok tt ->
        fst (sample_class self X y resampled item w)
        = fst (sample_class (with_kind self "majority") X y resampled item w))
  /\ (forall r w',
        snd item <> O ->
        sample_class self X y resampled item w = (Ok r, w') ->
        exists X_positive X_negative,
          safe_indexing X
            (flatnonzero (map (fun l => Z.eqb l (fst item)) y))
          = Ok X_positive
          /\ safe_indexing X
               (flatnonzero (map (fun l => negb (Z.eqb l (fst item))) y))
             = Ok X_negative
          /\ calls w'
             = calls w
               ++ [Fit Minority X_positive; Kneighbors Minority X_positive;
                   Fit Majority X_negative; Kneighbors Majority X_positive]).
Proof.
  intros Hkind.
  assert (Heq : sample_class self X y resampled item w
                = (minority_pass_dropped self X y item ;;;
                   sample_class (with_kind self "majority") X y resampled
                     item)%action w).
  { destruct resampled as [X_resampled y_resampled], item as [c n].
    unfold sample_class, minority_pass_dropped, with_kind.
    cbn [kind random_state]. rewrite Hkind.
    change (kind_in "regular" ["minority"; "regular"]%string) with true.
    change (kind_in "regular" ["majority"; "regular"]%string) with true.
    change (kind_in "majority" ["minority"; "regular"]%string) with false.
    change (kind_in "majority" ["majority"; "regular"]%string) with true.
    destruct (n =? 0)%nat; [reflexivity|].
    unfold bind, lift, ret.
    destruct (safe_indexing X
                (flatnonzero (map (fun l => Z.eqb l c) y))) as [Xp|e];
      [|reflexivity].
    destruct (safe_indexing X
                (flatnonzero (map (fun l => negb (Z.eqb l c)) y))) as [Xn|e];
      [|reflexivity].
    destruct (nn_fit Minority Xp w) as [[[]|e] w1]; [|reflexivity].
    destruct (nn_kneighbors Minority Xp w1) as [[radii|e] w2];
      [|reflexivity].
    destruct (check_random_state (random_state self) w2) as [[gen|e] w3];
      [|reflexivity].
    destruct (drawing gen (_make_geometric_samples Xp c radii n) w3)
      as [[new|e] w4]; reflexivity. }
  split; [exact Heq|]. split; [|clear Heq].
  2:{ destruct resampled as [X_resampled y_resampled], item as [c n].
      simpl. intros r w' Hn Hrun.
      rewrite sample_class_parts, Hkind in Hrun.
      destruct (Nat.eqb_spec n 0) as [|_]; [contradiction|].
      change (kind_in "regular" ["minority"; "regular"]%string) with true
        in Hrun.
      change (kind_in "regular" ["majority"; "regular"]%string) with true
        in Hrun.
      unfold bind, lift in Hrun.
      destruct (safe_indexing X (flatnonzero (map (fun l => Z.eqb l c) y)))
        as [Xp|e]; [|discriminate].
      destruct (safe_indexing X
                  (flatnonzero (map (fun l => negb (Z.eqb l c)) y)))
        as [Xn|e]; [|discriminate].
      destruct (radii_and_batch self Minority Xp Xp c n w)
        as [[new1|e] w1] eqn:E1; [|discriminate].
      destruct (radii_and_batch self Majority Xn Xp c n w1)
        as [[new2|e] w2] eqn:E2; [|discriminate].
      apply radii_and_batch_calls in E1, E2.
      destruct E1 as [C1 _], E2 as [C2 (b & -> & Hb)].
      apply (stack_batch_world _ _ _ _ _ _ _ _ Hb) in Hrun. subst w'.
      exists Xp, Xn. repeat split.
      now rewrite C2, C1, <- app_assoc. }
  intros seed Hseed Hok. rewrite Heq. unfold bind.
  pose proof (minority_pass_frame self X y item w seed Hseed) as Hframe.
  destruct (minority_pass_dropped self X y item w) as [[[]|e] w1];
    [|discriminate].
  simpl in Hframe.
  apply (respects_sample_class (with_kind self "majority")).
  split.
  - unfold same_generator, with_kind. cbn [random_state].
    now rewrite Hseed.
  - intros [|]; unfold uses, with_kind; cbn [kind]; simpl;
      [discriminate | now intros _].
Qed.

End RegularMode.

(** ** The pass on the five points *)

Example flatnonzero_five :
  flatnonzero (map (fun l => Z.eqb l 1) five_labels) = [0; 1; 2]%nat
  /\ flatnonzero (map (fun l => negb (Z.eqb l 1)) five_labels) = [3; 4]%nat.
Proof. split; reflexivity. Qed.

Example validate_majority :
  _validate_estimator (smote "majority" RS_None) initial_world
  = (Ok tt,
     mk_world O O None (Some (mk_NearestNeighbors 1 1 None)) []).
Proof. reflexivity. Qed.

Example unknown_kind_five :
  _sample (smote "borderline" RS_None) (Dense five_points) five_labels
    initial_world
  = (Raise (ValueError (Unknown_kind "borderline")), initial_world).
Proof. reflexivity. Qed.

(** In minority mode, seeded, the pass over the five points returns: the
    neighbour search is fitted on the three points of class 1 and four rows
    are appended. *)
Lemma minority_pass_five :
  exists batch,
    length batch = 4%nat
    /\ _sample (smote "minority" (RS_int 0)) (Dense five_points) five_labels
         initial_world
       = (Ok (Dense (mk_ndarray2 2 (rows five_points ++ batch)),
              (five_labels ++ [1; 1; 1; 1])%Z),
          mk_world O O
            (Some (mk_NearestNeighbors 2 1
                     (Some (Dense (mk_ndarray2 2
                                     [[Fin 0; Fin 0]; [Fin 1; Fin 0];
                                      [Fin 0; Fin 1]])))))
            None
            [Fit Minority
               (Dense (mk_ndarray2 2
                         [[Fin 0; Fin 0]; [Fin 1; Fin 0]; [Fin 0; Fin 1]]));
             Kneighbors Minority
               (Dense (mk_ndarray2 2
                         [[Fin 0; Fin 0]; [Fin 1; Fin 0]; [Fin 0; Fin 1]]))]).
Proof.
  unfold _sample, bind.
  cbn -[sample_class _make_geometric_samples foldM].
  cbn [foldM]. unfold bind.
  rewrite sample_class_parts.
  cbn -[_make_geometric_samples]. unfold bind.
  cbn -[_make_geometric_samples].
  match goal with
  | |- context [_make_geometric_samples (Dense ?a) ?l ?r ?n ?g] =>
      destruct (batch_value a r l n g) as (E & _ & _);
      [repeat constructor | simpl; lia | repeat constructor | reflexivity
      | simpl; lia | rewrite E]
  end.
  cbn -[randint check_random_states drawn_sample].
  eexists. split; [|reflexivity].
  now rewrite length_map, length_combine, randint_size,
    check_random_states_size.
Qed.

(** C5 on the five points. *)
Lemma regular_mode_majority_batch_witness :
  kind (smote "regular" (RS_int 0)) = "regular"%string
  /\ sample_class (smote "regular" (RS_int 0)) (Dense five_points)
       five_labels (Dense five_points, five_labels) (1%Z, 4%nat)
       initial_world
     = (minority_pass_dropped (smote "regular" (RS_int 0))
          (Dense five_points) five_labels (1%Z, 4%nat) ;;;
        sample_class (with_kind (smote "regular" (RS_int 0)) "majority")
          (Dense five_points) five_labels (Dense five_points, five_labels)
          (1%Z, 4%nat))%action initial_world.
Proof.
  split; [reflexivity|].
  exact (proj1 (regular_mode_majority_batch (smote "regular" (RS_int 0))
                  (Dense five_points) five_labels
                  (Dense five_points, five_labels) (1%Z, 4%nat)
                  initial_world eq_refl)).
Defined.

(** C7 on the five points: an unknown kind and a known one. *)
Lemma unknown_kind_rejected_at_setup_witness :
  (~ In "borderline"%string GEOMETRIC_SMOTE_KIND
   /\ _sample (smote "borderline" RS_None) (Dense five_points) five_labels
        initial_world
      = (Raise (ValueError (Unknown_kind "borderline")), initial_world))
  /\ (In "minority"%string GEOMETRIC_SMOTE_KIND
      /\ fst (_validate_estimator (smote "minority" RS_None) initial_world)
         = Ok tt
      /\ fst (_sample (smote "minority" RS_None) (Dense five_points)
                five_labels initial_world)
         <> Raise (ValueError (Unknown_kind "minority"))).
Proof.
  assert (Hout : ~ In "borderline"%string GEOMETRIC_SMOTE_KIND).
  { simpl. intros [E|[E|[E|[]]]]; discriminate. }
  assert (Hin : In "minority"%string GEOMETRIC_SMOTE_KIND).
  { simpl. auto. }
  split.
  - split; [exact Hout|].
    exact (proj1 (unknown_kind_rejected_at_setup (smote "borderline" RS_None))
             Hout (Dense five_points) five_labels initial_world).
  - split; [exact Hin|].
    destruct (proj2 (unknown_kind_rejected_at_setup (smote "minority" RS_None))
                Hin (Dense five_points) five_labels initial_world)
      as [Hsetup Hnever].
    split; [exact Hsetup | apply Hnever].
Defined.

(** C8 on the five points, minority mode. *)
Lemma resampled_extends_input_witness :
  exists X_resampled y_resampled,
    fst (_sample (smote "minority" (RS_int 0)) (Dense five_points)
           five_labels initial_world) = Ok (X_resampled, y_resampled)
    /\ exists batches,
         Forall2 (fun item batch => length batch = snd item)
           [(1%Z, 4%nat); (0%Z, 0%nat)] batches
         /\ X_resampled
            = Dense (mk_ndarray2 2 (rows five_points ++ concat batches))
         /\ y_resampled = (five_labels ++ [1; 1; 1; 1])%Z.
Proof.
  destruct minority_pass_five as (batch & _ & Hrun).
  apply (f_equal fst) in Hrun. simpl fst in Hrun.
  do 2 eexists. split; [exact Hrun|].
  exact (resampled_extends_input (smote "minority" (RS_int 0)) five_points
           five_labels initial_world _ _ Hrun).
Defined.

(** C9 on the five points: a second run, from the world the first run
    leaves, returns what the first returned. *)
Lemma sample_deterministic_witness :
  same_generator (RS_int 0) initial_world
    (snd (_sample (smote "regular" (RS_int 0)) (Dense five_points)
            five_labels initial_world))
  /\ fst (_sample (smote "regular" (RS_int 0)) (Dense five_points)
            five_labels initial_world)
     = fst (_sample (smote "regular" (RS_int 0)) (Dense five_points)
              five_labels
              (snd (_sample (smote "regular" (RS_int 0)) (Dense five_points)
                      five_labels initial_world))).
Proof.
  split; [exact I|].
  exact (sample_deterministic (smote "regular" (RS_int 0)) (Dense five_points)
           five_labels initial_world _ I).
Defined.

(** C10 on a sparse matrix: a batch from the sparse points, and the pass
    over them. *)
Lemma batch_dense_sparse_branch_dead_witness :
  match fst (_make_geometric_samples three_sparse 1%Z three_radii 4 O) with
  | Ok (X_new, _) =>
      issparse X_new = false /\ shape0 X_new = 4%nat
      /\ shape1 X_new = shape1 three_sparse
  | Raise _ => True
  end
  /\ filter is_sparse_vstack
       (calls (snd (_sample (smote "regular" (RS_int 0)) three_sparse
                      [1; 1; 1]%Z initial_world)))
     = filter is_sparse_vstack (calls initial_world).
Proof.
  split.
  - exact (proj1 batch_dense_sparse_branch_dead three_sparse 1%Z three_radii
             4%nat O).
  - exact (proj2 batch_dense_sparse_branch_dead (smote "regular" (RS_int 0))
             three_sparse [1; 1; 1]%Z initial_world).
Defined.

(** * Further properties of the code *)

(** ** The geometric sampler: shape, errors and degenerate draws *)

Lemma norm_zeros (x : list R) : Forall (fun a => a = 0) x -> norm x = 0.
Proof.
  intros Hx. unfold norm.
  replace (dot x x) with 0; [apply sqrt_0|].
  unfold dot. induction Hx as [|a x -> _ IH]; simpl; [reflexivity|].
  rewrite <- IH. ring.
Qed.

Section SamplerFurther.

Context {rng : Type} `{RandomStateSpec rng} `{ScipyRow}.

(** X1. On a dense center the sampler raises in one case only, the center
    with no entry, where [1 / center.size] is a division by zero; on every
    other center, whatever the values of the center and of the radius ([nan]
    and the infinities included), it returns a vector of the dimension of
    the center. *)
Theorem geometric_sample_dense_outcome (center : list float)
  (radius : float) (random_state : rng) :
  (center = [] ->
   fst (_make_geometric_sample (ndarray1 center) radius random_state)
   = Raise ZeroDivisionError)
  /\ (center <> [] ->
      exists v,
        fst (_make_geometric_sample (ndarray1 center) radius random_state)
        = Ok v
        /\ length v = length center).
Proof.
  split.
  - intros ->. unfold _make_geometric_sample. simpl.
    destruct (normal 0 random_state) as [nv g1].
    now destruct (uniform g1).
  - intros Hne. apply geometric_sample_dense.
    destruct center; [contradiction | simpl; lia].
Qed.

(** The factor [u ** (1 / d)] of a uniform value [u] lies in [0, 1). *)
Lemma np_power_below_one (u e : R) :
  0 <= u < 1 -> 0 < e -> exists q, np_power u e = Fin q /\ 0 <= q < 1.
Proof.
  intros [Hu0 Hu1] He. unfold np_power.
  destruct (Req_dec_T e 0) as [E0|_]; [lra|].
  destruct (Rlt_dec 0 u) as [Hpos|Hnpos].
  - exists (Rpower u e). split; [reflexivity|]. unfold Rpower. split.
    + left. apply exp_pos.
    + rewrite <- exp_0. apply exp_increasing.
      assert (ln u < 0) by (rewrite <- ln_1; apply ln_increasing; lra).
      nra.
  - destruct (Req_dec_T u 0) as [_|Hne]; [|lra].
    destruct (Rlt_dec 0 e) as [_|Hn]; [|lra].
    exists 0. split; [reflexivity | lra].
Qed.

(** The sample on a center of real numbers and a nonzero normal draw, with
    the radial factor named. *)
Lemma geometric_sample_radial_value (center : list R) (radius : R)
  (random_state : rng) :
  let normal_samples := fst (normal (length center) random_state) in
  let u := fst (uniform (snd (normal (length center) random_state))) in
  Exists (fun x => x <> 0) normal_samples ->
  exists q,
    np_power u (INR 1 / INR (length center)) = Fin q /\ 0 <= q < 1
    /\ fst (_make_geometric_sample (ndarray1 (map Fin center)) (Fin radius)
              random_state)
       = Ok (map Fin
               (map (fun p => fst p
                              + radius * q / norm normal_samples * snd p)
                  (combine center normal_samples))).
Proof.
  intros normal_samples u Hnz.
  pose proof (normal_size (length center) random_state) as Hsize.
  fold normal_samples in Hsize.
  assert (Hd : (0 < length center)%nat).
  { rewrite <- Hsize. destruct Hnz; simpl; lia. }
  pose proof (norm_pos _ Hnz) as Hnorm.
  unfold _make_geometric_sample. simpl size. rewrite length_map.
  subst normal_samples u.
  destruct (normal (length center) random_state) as [nv g1]. simpl in *.
  pose proof (uniform_range g1) as Hu.
  destruct (uniform g1) as [u g2]. simpl in Hu |- *.
  unfold py_truediv.
  destruct (Nat.eqb_spec (length center) 0) as [E|_]; [lia|].
  assert (He : 0 < INR 1 / INR (length center)).
  { apply Rdiv_lt_0_compat; [simpl; lra | now apply lt_0_INR]. }
  destruct (np_power_below_one _ _ Hu He) as (q & Eq & Hq).
  exists q. split; [exact Eq|]. split; [exact Hq|].
  rewrite Eq. simpl.
  unfold np_add. rewrite !length_map, Hsize, Nat.eqb_refl.
  rewrite <- (combine_fin_add (fun x => radius * q / norm nv * x)).
  do 3 f_equal. rewrite !map_map. apply map_ext. intros x.
  unfold np_divide. destruct (Req_dec_T (norm nv) 0) as [E|_]; [lra|].
  simpl. f_equal. field. lra.
Qed.

(** X3. Single-feature data. On a one-dimensional center the direction is
    the sign of the normal draw and the radial factor is the uniform value
    itself: the sample is [center + radius * u] for a positive draw and
    [center - radius * u] for a negative one. *)
Theorem geometric_sample_on_a_line (c radius : R) (random_state : rng) :
  let x := hd 0 (fst (normal 1 random_state)) in
  let u := fst (uniform (snd (normal 1 random_state))) in
  x <> 0 ->
  fst (_make_geometric_sample (ndarray1 [Fin c]) (Fin radius) random_state)
  = Ok [Fin (c + radius * u * (if Rlt_dec 0 x then 1 else -1))].
Proof.
  intros x u Hx.
  pose proof (normal_size 1 random_state) as Hsize.
  unfold _make_geometric_sample. simpl size. subst x u.
  destruct (normal 1 random_state) as [nv g1]. simpl in *.
  destruct nv as [|x [|]]; try discriminate. simpl in Hx |- *.
  pose proof (uniform_range g1) as Hu.
  destruct (uniform g1) as [u g2]. simpl in Hu |- *.
  rewrite norm_singleton. unfold np_divide.
  assert (Habs : Rabs x <> 0) by now apply Rabs_no_R0.
  destruct (Req_dec_T (Rabs x) 0) as [E|_]; [contradiction|].
  assert (Hpow : np_power u (1 / 1) = Fin u).
  { unfold np_power. replace (1 / 1) with 1 by field.
    destruct (Req_dec_T 1 0) as [E|_]; [lra|].
    destruct (Rlt_dec 0 u) as [Hp|Hn]; [now rewrite Rpower_1|].
    destruct (Req_dec_T u 0) as [->|Hne]; [|lra].
    destruct (Rlt_dec 0 1); [reflexivity | lra]. }
  rewrite Hpow. unfold np_add. simpl. do 3 f_equal.
  destruct (Rlt_dec 0 x) as [Hp|Hn].
  - rewrite Rabs_right by lra. field. lra.
  - rewrite Rabs_left by lra. field. lra.
Qed.

(** X4. The degenerate draw. When the normal draw is the zero vector, every
    coordinate of the sample is [nan], whatever the center and the radius:
    [0 / 0] is [nan] and the products and the sum propagate it. *)
Theorem geometric_sample_zero_draw (center : list float) (radius : float)
  (random_state : rng) :
  center <> [] ->
  Forall (fun x => x = 0) (fst (normal (length center) random_state)) ->
  fst (_make_geometric_sample (ndarray1 center) radius random_state)
  = Ok (repeat NaN (length center)).
Proof.
  intros Hne Hz.
  pose proof (normal_size (length center) random_state) as Hsize.
  unfold _make_geometric_sample. simpl size.
  destruct (normal (length center) random_state) as [nv g1]. simpl in *.
  destruct (uniform g1) as [u g2].
  unfold py_truediv.
  destruct (Nat.eqb_spec (length center) 0) as [E|_].
  { destruct center; [contradiction | discriminate]. }
  simpl. rewrite (norm_zeros _ Hz). unfold np_add.
  rewrite !length_map, Hsize, Nat.eqb_refl. f_equal.
  rewrite !map_map.
  match goal with
  | |- context [np_power ?a ?b] => generalize (np_power a b) as p
  end.
  intros p. clear -Hz Hsize. revert nv Hz Hsize.
  induction center as [|c center IH]; intros [|x nv] Hz Hsize;
    simpl in *; try discriminate; [reflexivity|].
  inversion Hz as [|? ? -> Hz']; subst.
  unfold np_divide at 1.
  destruct (Req_dec_T 0 0) as [_|N]; [|now elim N].
  assert (Hnan : forall p, fmul p NaN = NaN) by now intros [].
  assert (Hadd : forall p, fadd p NaN = NaN) by now intros [].
  rewrite !Hnan, Hadd. f_equal. apply IH; [exact Hz' | lia].
Qed.

End SamplerFurther.

(** ** The batch generator: edge cases and geometry *)

Lemma Forall_list_set {A : Type} (P : A -> Prop) (l : list A) (i : nat)
  (x : A) : Forall P l -> P x -> Forall P (list_set l i x).
Proof.
  intros Hl Hx. revert i.
  induction Hl as [|h t Hh Ht IH]; intros [|i]; simpl; auto.
Qed.

Lemma setitem_wf (a a' : ndarray2) (i : nat) (v : list float) :
  wf_ndarray2 a -> setitem a i v = Ok a' -> wf_ndarray2 a'.
Proof.
  unfold setitem, wf_ndarray2. intros Hwf.
  destruct (length (rows a) <=? i)%nat; [discriminate|].
  destruct (Nat.eqb_spec (length v) (ncols a)) as [E|_].
  - intros [= <-]. simpl. now apply Forall_list_set.
  - destruct (length v =? 1)%nat; [|discriminate].
    intros [= <-]. simpl. apply Forall_list_set; [exact Hwf|].
    apply repeat_length.
Qed.

Section BatchFurther.

Context {rng : Type} `{RandomStateSpec rng} `{ScipyRow}
  `{ImbtoolsUtilsSpec rng}.

Lemma fill_rows_wf (X : features) (radii : ndarray2)
  (items : list (nat * (nat * (nat * rng)))) :
  forall X_new X', wf_ndarray2 X_new ->
    fill_rows X radii X_new items = Ok X' -> wf_ndarray2 X'.
Proof.
  induction items as [|[row_ind [row [col sub]]] items IH];
    intros X_new X' Hwf; simpl.
  - now intros [= <-].
  - destruct (getitem X row) as [center|]; [|discriminate]. simpl.
    destruct (getitem2 radii row col) as [radius|]; [|discriminate]. simpl.
    destruct (fst (_make_geometric_sample center radius sub)) as [v|];
      [|discriminate]. simpl.
    destruct (setitem X_new row_ind v) as [X1|] eqn:E; [|discriminate].
    simpl. apply IH. exact (setitem_wf _ _ _ _ Hwf E).
Qed.

(** X5. A batch the generator returns is rectangular, whatever the feature
    matrix (dense or sparse): it is a dense array every row of which has
    [X.shape[1]] entries. *)
Theorem batch_rectangular (X : features) (class_label : label)
  (radii : ndarray2) (n : nat) (g : rng) (X_new : features)
  (y_new : list label) :
  fst (_make_geometric_samples X class_label radii n g) = Ok (X_new, y_new) ->
  exists a, X_new = Dense a /\ ncols a = shape1 X /\ wf_ndarray2 a.
Proof.
  unfold _make_geometric_samples.
  destruct (check_random_states g n) as [subs g1].
  destruct (py_randint (length (flatten radii)) n g1) as [[idx|e] g2];
    [|discriminate].
  simpl.
  match goal with
  | |- context [fill_rows X radii ?z ?items] =>
      pose proof (fill_rows_wf X radii items z) as Hwf;
      pose proof (fill_rows_outcome X radii items z) as Hout;
      destruct (fill_rows X radii z items) as [X'|e]; [|discriminate]
  end.
  simpl. intros [= <- _]. exists X'. split; [reflexivity|].
  split; [now destruct Hout|].
  apply (Hwf X'); [|reflexivity].
  unfold np_zeros, wf_ndarray2. simpl.
  apply Forall_forall. intros r Hr. apply repeat_spec in Hr. subst r.
  apply repeat_length.
Qed.

(** X6. The two edge cases of the batch generator. On an empty radius
    matrix a request for one sample or more raises the [ValueError] of
    [randint] ("low >= high"), whatever the feature matrix; on a non-empty
    one a request for no sample returns the empty batch of shape
    [(0, X.shape[1])] and no label, and never indexes the feature matrix. *)
Theorem batch_edge_cases (X : features) (class_label : label)
  (radii : ndarray2) (g : rng) :
  (flatten radii = [] ->
   forall n, (0 < n)%nat ->
     fst (_make_geometric_samples X class_label radii n g)
     = Raise (ValueError Low_ge_high))
  /\ (flatten radii <> [] ->
      fst (_make_geometric_samples X class_label radii 0 g)
      = Ok (Dense (mk_ndarray2 (shape1 X) []), [])).
Proof.
  split.
  - intros Hempty n _. unfold _make_geometric_samples.
    destruct (check_random_states g n) as [subs g1].
    now rewrite Hempty.
  - intros Hne. unfold _make_geometric_samples.
    destruct (check_random_states g 0) as [subs g1]. unfold py_randint.
    destruct (Nat.eqb_spec (length (flatten radii)) 0) as [E|_].
    { destruct (flatten radii); [contradiction | discriminate]. }
    pose proof (randint_size (length (flatten radii)) 0 g1) as Hsize.
    destruct (randint (length (flatten radii)) 0 g1) as [idx g2].
    simpl in Hsize. destruct idx; [|discriminate]. reflexivity.
Qed.

(** X7. A radius matrix with more rows than the feature matrix: when the
    first drawn index decodes to a row the feature matrix does not have,
    the generator raises [IndexError]. *)
Theorem batch_row_out_of_range (X : features) (class_label : label)
  (radii : ndarray2) (n : nat) (g : rng) :
  flatten radii <> [] -> (0 < n)%nat ->
  (forall i,
     hd_error (fst (randint (length (flatten radii)) n
                      (snd (check_random_states g n)))) = Some i ->
     (shape0 X <= np_floor_divide i (ncols radii))%nat) ->
  fst (_make_geometric_samples X class_label radii n g) = Raise IndexError.
Proof.
  intros Hne Hn Hrow.
  pose proof (check_random_states_size g n) as Hsubs.
  unfold _make_geometric_samples.
  destruct (check_random_states g n) as [subs g1]. simpl in *.
  unfold py_randint.
  destruct (Nat.eqb_spec (length (flatten radii)) 0) as [E|_].
  { destruct (flatten radii); [contradiction | discriminate]. }
  pose proof (randint_size (length (flatten radii)) n g1) as Hsize.
  destruct (randint (length (flatten radii)) n g1) as [idx g2].
  simpl in *.
  destruct idx as [|i idx]; [simpl in Hsize; lia|].
  destruct subs as [|sub subs]; [simpl in Hsubs; lia|].
  specialize (Hrow i eq_refl). simpl.
  assert (Hget : getitem X (np_floor_divide i (ncols radii))
                 = Raise IndexError).
  { unfold getitem, getitem_list.
    destruct X as [a|d s]; simpl in Hrow;
      match goal with
      | |- context [nth_error ?l ?k] =>
          destruct (nth_error l k) eqn:E;
          [assert (nth_error l k <> None) as Hs by congruence;
           apply nth_error_Some in Hs; lia | reflexivity]
      end. }
  now rewrite Hget.
Qed.

(** The sample of a draw on finite points and finite radii, when the
    sub-generator's normal draw is not the zero vector: in exact arithmetic a
    finite point within the radius of its anchor, and the anchor itself on
    radius 0. *)
Lemma drawn_sample_finite (pts rs : list (list R)) (d k i : nat)
  (sub : rng) :
  Forall (fun p => length p = d) pts ->
  Forall (fun r => length r = k) rs ->
  length rs = length pts ->
  (i < length pts * k)%nat ->
  Exists (fun x => x <> 0) (fst (normal d sub)) ->
  exists c r p,
    nth_error pts (i / k) = Some c
    /\ nth_error (nth (i / k) rs []) (i mod k) = Some r
    /\ drawn_sample (Dense (mk_ndarray2 d (map (map Fin) pts)))
         (mk_ndarray2 k (map (map Fin) rs)) i sub = Ok (map Fin p)
    /\ norm (vsub p c) <= Rabs r
    /\ (r = 0 -> p = c).
Proof.
  intros Hpts Hrs Hlen Hi Hnz.
  destruct (decode_in_range _ _ _ Hi) as [Hrow Hcol].
  destruct (nth_error pts (i / k)) as [c|] eqn:Ec;
    [|apply nth_error_None in Ec; lia].
  destruct (nth_error rs (i / k)) as [rr|] eqn:Er;
    [|apply nth_error_None in Er; lia].
  assert (Hc : length c = d).
  { apply nth_error_In in Ec. rewrite Forall_forall in Hpts. auto. }
  assert (Hrr : length rr = k).
  { apply nth_error_In in Er. rewrite Forall_forall in Hrs. auto. }
  destruct (nth_error rr (i mod k)) as [r|] eqn:Erad;
    [|apply nth_error_None in Erad; lia].
  subst d.
  destruct (geometric_sample_radial_value c r sub Hnz)
    as (q & _ & Hq & Hval).
  pose proof (normal_size (length c) sub) as Hsize.
  pose proof (norm_pos _ Hnz) as Hnorm.
  set (nv := fst (normal (length c) sub)) in *.
  exists c, r. eexists. split; [reflexivity|]. split.
  { now rewrite (nth_error_nth _ _ _ Er). }
  split.
  { unfold drawn_sample, getitem, getitem2, getitem_list. simpl.
    rewrite !nth_error_map, Ec, Er. simpl.
    rewrite nth_error_map, Erad. simpl. exact Hval. }
  split.
  - rewrite (vsub_shift (fun x => r * q / norm nv * x)) by now rewrite Hsize.
    change (fun x => r * q / norm nv * x) with (Rmult (r * q / norm nv)).
    rewrite norm_scale. unfold Rdiv.
    rewrite !Rabs_mult, (Rabs_right q) by lra.
    rewrite (Rabs_right (/ norm nv))
      by (apply Rle_ge; left; now apply Rinv_0_lt_compat).
    replace (Rabs r * q * / norm nv * norm nv) with (Rabs r * q)
      by (field; lra).
    pose proof (Rabs_pos r). nra.
  - intros ->. apply map_fst_shift_zero; [exact Hsize|].
    unfold Rdiv. ring.
Qed.

(** X9. Copies of existing points. On finite points, finite radii (one row
    per point) and sub-generators none of which draws the zero vector, the
    generator returns, and a draw whose radius is 0 (the distance of a point
    to itself, the first column of the radii of minority mode) writes the
    anchor point itself into the batch: the synthetic row equals an existing
    row. *)
Theorem batch_zero_radius_copies_anchor (pts rs : list (list R)) (d k : nat)
  (class_label : label) (n : nat) (g : rng) :
  (0 < d)%nat ->
  Forall (fun p => length p = d) pts ->
  Forall (fun r => length r = k) rs ->
  length rs = length pts ->
  (0 < length pts * k)%nat ->
  Forall (fun sub => Exists (fun x => x <> 0) (fst (normal d sub)))
    (fst (check_random_states g n)) ->
  exists X_new,
    fst (_make_geometric_samples (Dense (mk_ndarray2 d (map (map Fin) pts)))
           class_label (mk_ndarray2 k (map (map Fin) rs)) n g)
    = Ok (Dense X_new, repeat class_label n)
    /\ forall j i,
         nth_error (fst (randint (length pts * k) n
                           (snd (check_random_states g n)))) j = Some i ->
         nth_error (nth (i / k) rs []) (i mod k) = Some 0 ->
         nth_error (rows X_new) j
         = nth_error (map (map Fin) pts) (i / k).
Proof.
  intros Hd Hpts Hrs Hlen Hpos Hsubs.
  set (a := mk_ndarray2 d (map (map Fin) pts)).
  set (radii := mk_ndarray2 k (map (map Fin) rs)).
  assert (Hwa : wf_ndarray2 a).
  { unfold wf_ndarray2, a. simpl. apply Forall_forall. intros r Hr.
    apply in_map_iff in Hr. destruct Hr as (p & <- & Hp).
    rewrite length_map. rewrite Forall_forall in Hpts. auto. }
  assert (Hwr : wf_ndarray2 radii).
  { unfold wf_ndarray2, radii. simpl. apply Forall_forall. intros r Hr.
    apply in_map_iff in Hr. destruct Hr as (p & <- & Hp).
    rewrite length_map. rewrite Forall_forall in Hrs. auto. }
  destruct (batch_value a radii class_label n g Hwa Hd Hwr)
    as (Hval & Hsize & Hrange).
  { unfold a, radii. simpl. now rewrite !length_map. }
  { unfold a, radii. simpl. now rewrite length_map. }
  replace (length (rows a)) with (length pts) in Hval, Hsize, Hrange
    by (unfold a; simpl; now rewrite length_map).
  change (ncols radii) with k in Hval, Hsize, Hrange.
  eexists. split; [exact Hval|].
  intros j i Hi Hzero. simpl.
  pose proof (check_random_states_size g n) as Hn.
  assert (Hj : (j < n)%nat).
  { rewrite <- Hsize. apply nth_error_Some. congruence. }
  destruct (nth_error (fst (check_random_states g n)) j) as [sub|] eqn:Esub;
    [|apply nth_error_None in Esub; lia].
  rewrite Forall_forall in Hrange, Hsubs.
  assert (Hlt : (i < length pts * k)%nat)
    by (apply Hrange; eapply nth_error_In; eauto).
  assert (Hnz : Exists (fun x => x <> 0) (fst (normal d sub)))
    by (apply Hsubs; eapply nth_error_In; eauto).
  destruct (drawn_sample_finite pts rs d k i sub Hpts Hrs Hlen Hlt Hnz)
    as (c & r & p & Hc & Hr & Hs & _ & Hcopy).
  rewrite Hr in Hzero. injection Hzero as ->. rewrite (Hcopy eq_refl) in Hs.
  rewrite nth_error_map, (nth_error_combine _ _ _ _ _ Hi Esub). simpl.
  fold a radii in Hs. rewrite Hs. simpl. now rewrite nth_error_map, Hc.
Qed.

End BatchFurther.

(** ** The resampling pass: what it leaves alone *)

Lemma triple_conj {rng A : Type} (P1 P2 : world rng -> Prop)
  (m : action rng A) (Q1 Q2 : A -> world rng -> Prop)
  (E1 E2 : exn -> world rng -> Prop) :
  triple P1 m Q1 E1 -> triple P2 m Q2 E2 ->
  triple (fun w => P1 w /\ P2 w) m (fun a w => Q1 a w /\ Q2 a w)
    (fun e w => E1 e w /\ E2 e w).
Proof.
  intros H1 H2 w [Hw1 Hw2]. specialize (H1 w Hw1). specialize (H2 w Hw2).
  destruct (m w) as [[a|e] w']; now split.
Qed.

Section PassInvariant.

Context {rng : Type} `{RandomStateSpec rng} `{ScipyRow}
  `{ImbtoolsUtils rng} `{Sklearn} `{ScipyStack}.

Variable self : GeometricSMOTE.
Variable J : world rng -> Prop.

Hypothesis J_record :
  forall s c w, uses self s = true -> is_call_of s c = true ->
    J w -> J (record c w).
Hypothesis J_set_nn :
  forall s nn w, uses self s = true -> J w -> J (set_nn s nn w).
Hypothesis J_draw :
  forall w g, J w ->
    match random_state self with
    | RS_None =>
        J (mk_world g (instance_state w) (nn_minority_ w) (nn_majority_ w)
             (calls w))
    | RS_int _ => True
    | RS_instance =>
        J (mk_world (np_random w) g (nn_minority_ w) (nn_majority_ w)
             (calls w))
    end.

Lemma nn_fit_invariant (s : slot) (X : features) (w : world rng) :
  uses self s = true -> J w -> J (snd (nn_fit s X w)).
Proof.
  intros Hu Hw. unfold nn_fit.
  destruct (get_nn s w) as [nn|]; [|exact Hw].
  assert (J (record (Fit s X) w))
    by (apply (J_record s); trivial; now destruct s).
  destruct (fit_error (n_neighbors nn) X); simpl; auto.
Qed.

Lemma nn_kneighbors_invariant (s : slot) (X : features) (w : world rng) :
  uses self s = true -> J w -> J (snd (nn_kneighbors s X w)).
Proof.
  intros Hu Hw. unfold nn_kneighbors.
  destruct (get_nn s w) as [nn|]; [|exact Hw].
  assert (J (record (Kneighbors s X) w))
    by (apply (J_record s); trivial; now destruct s).
  now destruct (fit_X nn).
Qed.

Lemma radii_and_batch_invariant (s : slot) (X_fit X_positive : features)
  (class_label : label) (n : nat) (w : world rng) :
  uses self s = true -> J w ->
  J (snd (radii_and_batch self s X_fit X_positive class_label n w)).
Proof.
  intros Hu Hw. unfold radii_and_batch, bind.
  pose proof (nn_fit_invariant s X_fit w Hu Hw) as St1.
  destruct (nn_fit s X_fit w) as [[[]|e] w1]; [|exact St1]. simpl in St1.
  pose proof (nn_kneighbors_invariant s X_positive w1 Hu St1) as St2.
  destruct (nn_kneighbors s X_positive w1) as [[radii|e] w2]; [|exact St2].
  simpl in St2. pose proof (J_draw w2) as Hd.
  unfold check_random_state, drawing, ret, raise.
  destruct (random_state self) as [|z|].
  - specialize (Hd (snd (_make_geometric_samples X_positive class_label
                           radii n (np_random w2))) St2).
    now destruct (_make_geometric_samples _ _ _ _ _) as [[b|e] g].
  - match goal with |- context [if ?c then _ else _] => destruct c end;
      [|exact St2].
    now destruct (fst (_make_geometric_samples _ _ _ _ _)).
  - specialize (Hd (snd (_make_geometric_samples X_positive class_label
                           radii n (instance_state w2))) St2).
    now destruct (_make_geometric_samples _ _ _ _ _) as [[b|e] g].
Qed.

Lemma sample_class_invariant (X : features) (y : list label)
  (resampled : features * list label) (item : label * nat) (w : world rng) :
  J w -> J (snd (sample_class self X y resampled item w)).
Proof.
  intros Hw. destruct resampled as [Xr yr], item as [c n].
  rewrite sample_class_parts.
  destruct (n =? 0)%nat; [exact Hw|].
  unfold bind, lift.
  destruct (safe_indexing X _) as [Xp|e]; [|exact Hw].
  destruct (safe_indexing X _) as [Xn|e]; [|exact Hw].
  assert (St1 : forall w0, J w0 ->
             let o := (if kind_in (kind self) ["minority"; "regular"]%string
                       then radii_and_batch self Minority Xp Xp c n
                       else ret None) w0 in
             J (snd o)
             /\ forall new, fst o = Ok new ->
                  new = None \/ exists b, new = Some b /\ dense_batch n c b).
  { intros w0 Hw0. cbv zeta.
    destruct (kind_in (kind self) ["minority"; "regular"]%string) eqn:Ek.
    - split; [now apply radii_and_batch_invariant|].
      intros new Hnew.
      pose proof (radii_and_batch_outcome (filter is_sparse_vstack (calls w0))
                    self Minority Xp Xp c n w0 eq_refl) as Hout.
      destruct (radii_and_batch _ _ _ _ _ _ w0) as [[new'|e] w']; [|discriminate].
      simpl in Hnew. injection Hnew as ->. right. now destruct Hout.
    - split; [exact Hw0|]. intros new [= <-]. now left. }
  destruct (St1 w Hw) as [HJ1 Hn1].
  destruct ((if kind_in (kind self) ["minority"; "regular"]%string
             then radii_and_batch self Minority Xp Xp c n
             else ret None) w) as [[new1|e] w1]; [|exact HJ1].
  simpl in HJ1, Hn1. specialize (Hn1 new1 eq_refl).
  assert (St2 : let o := (if kind_in (kind self) ["majority"; "regular"]%string
                         then radii_and_batch self Majority Xn Xp c n
                         else ret new1) w1 in
               J (snd o)
               /\ forall new, fst o = Ok new ->
                    new = None \/ exists b, new = Some b /\ dense_batch n c b).
  { cbv zeta.
    destruct (kind_in (kind self) ["majority"; "regular"]%string) eqn:Ek.
    - split; [now apply radii_and_batch_invariant|].
      intros new Hnew.
      pose proof (radii_and_batch_outcome (filter is_sparse_vstack (calls w1))
                    self Majority Xn Xp c n w1 eq_refl) as Hout.
      destruct (radii_and_batch _ _ _ _ _ _ w1) as [[new'|e] w']; [|discriminate].
      simpl in Hnew. injection Hnew as ->. right. now destruct Hout.
    - split; [exact HJ1|]. now intros new [= <-]. }
  destruct St2 as [HJ2 Hn2].
  destruct ((if kind_in (kind self) ["majority"; "regular"]%string
             then radii_and_batch self Majority Xn Xp c n
             else ret new1) w1) as [[new2|e] w2]; [|exact HJ2].
  simpl in HJ2, Hn2.
  destruct (Hn2 new2 eq_refl) as [->|(b & -> & a & Ha & _)]; [exact HJ2|].
  destruct b as [X_new y_new]. simpl in Ha. subst X_new. simpl.
  unfold bind, lift.
  now destruct (np_vstack Xr (Dense a)).
Qed.

Lemma validate_invariant (w : world rng) :
  J w -> J (snd (_validate_estimator (rng := rng) self w)).
Proof.
  intros Hw. unfold _validate_estimator.
  destruct (kind_in (kind self) GEOMETRIC_SMOTE_KIND); cbn [negb];
    [|exact Hw].
  unfold bind, new_nn, ret.
  destruct (kind_in (kind self) ["minority"; "regular"]%string) eqn:E1;
    destruct (kind_in (kind self) ["majority"; "regular"]%string) eqn:E2;
    simpl; auto.
  - exact (J_set_nn Majority (mk_NearestNeighbors 1 (n_jobs self) None)
             (set_nn Minority
                (mk_NearestNeighbors (k_neighbors self + 1) (n_jobs self) None)
                w) E2
             (J_set_nn Minority _ w E1 Hw)).
  - exact (J_set_nn Minority
             (mk_NearestNeighbors (k_neighbors self + 1) (n_jobs self) None)
             w E1 Hw).
  - exact (J_set_nn Majority (mk_NearestNeighbors 1 (n_jobs self) None) w E2
             Hw).
Qed.

(** A property of the world that a recorded call of an estimator the kind
    uses, a new such estimator, and a draw from the generator [random_state]
    denotes all keep, is kept by the whole pass, whether it returns or
    raises. *)
Lemma pass_invariant (X : features) (y : list label) (w : world rng) :
  J w -> J (snd (_sample self X y w)).
Proof.
  intros Hw. unfold _sample, bind.
  pose proof (validate_invariant w Hw) as Hv.
  destruct (_validate_estimator self w) as [[[]|e] w0]; [|exact Hv].
  simpl in Hv. generalize (X, y) as resampled. revert w0 Hv.
  induction (ratio_ self) as [|item items IH]; intros w0 Hv resampled.
  - exact Hv.
  - cbn [foldM]. unfold bind.
    pose proof (sample_class_invariant X y resampled item w0 Hv) as Hs.
    destruct (sample_class self X y resampled item w0) as [[r|e] w1];
      [now apply IH | exact Hs].
Qed.

End PassInvariant.

Section PassFrames.

Context {rng : Type} `{RandomStateSpec rng} `{ScipyRow}
  `{ImbtoolsUtils rng} `{Sklearn} `{ScipyStack}.

(** X10. The search a kind does not use is left alone. In minority mode the
    pass makes no call of the majority search and leaves [nn_majority_] as
    it was, and in majority mode the same of the minority search, whether
    the pass returns or raises. *)
Theorem unused_search_untouched (self : GeometricSMOTE) (s : slot)
  (X : features) (y : list label) (w : world rng) :
  uses self s = false ->
  filter (is_call_of s) (calls (snd (_sample self X y w)))
  = filter (is_call_of s) (calls w)
  /\ get_nn s (snd (_sample self X y w)) = get_nn s w.
Proof.
  intros Hu.
  apply (pass_invariant self
           (fun w0 => filter (is_call_of s) (calls w0)
                      = filter (is_call_of s) (calls w)
                      /\ get_nn s w0 = get_nn s w)).
  - intros s' c w0 Hu' Hc [Hcalls Hnn]. split.
    + simpl. rewrite filter_app, Hcalls. simpl.
      assert (Hno : is_call_of s c = false).
      { destruct s, s'; try congruence; destruct c as [[]|[]|]; simpl in *;
          congruence. }
      rewrite Hno. apply app_nil_r.
    + now destruct s.
  - intros s' nn w0 Hu' [Hcalls Hnn]. split.
    + now destruct s'.
    + destruct s, s'; simpl in *; congruence.
  - intros w0 g [Hcalls Hnn].
    destruct (random_state self); trivial; split; trivial; now destruct s.
  - now split.
Qed.

(** X11. The generators the pass does not draw from. With an integer seed
    the pass leaves numpy's global generator and the caller's generator in
    the state they were in; with [None] it leaves the caller's generator,
    and with a generator of the caller it leaves numpy's global one. *)
Theorem other_generators_untouched (self : GeometricSMOTE) (X : features)
  (y : list label) (w : world rng) :
  match random_state self with
  | RS_None =>
      instance_state (snd (_sample self X y w)) = instance_state w
  | RS_int _ =>
      np_random (snd (_sample self X y w)) = np_random w
      /\ instance_state (snd (_sample self X y w)) = instance_state w
  | RS_instance => np_random (snd (_sample self X y w)) = np_random w
  end.
Proof.
  pose proof (pass_invariant self
                (fun w0 =>
                   match random_state self with
                   | RS_None => instance_state w0 = instance_state w
                   | RS_int _ =>
                       np_random w0 = np_random w
                       /\ instance_state w0 = instance_state w
                   | RS_instance => np_random w0 = np_random w
                   end)) as Hinv.
  apply Hinv.
  - intros s c w0 _ _. now destruct (random_state self).
  - intros s nn w0 _. now destruct (random_state self), s.
  - intros w0 g. now destruct (random_state self).
  - now destruct (random_state self).
Qed.

(** X12. Nothing to generate. When every count of [self.ratio_] is 0 (or
    the dictionary is empty) and the kind is known, the pass returns the
    feature matrix and the labels it was given, whatever they are (their
    lengths need not even agree) and whatever the seed, and calls no
    collaborator. *)
Theorem nothing_to_generate (self : GeometricSMOTE) (X : features)
  (y : list label) (w : world rng) :
  In (kind self) GEOMETRIC_SMOTE_KIND ->
  Forall (fun item => snd item = O) (ratio_ self) ->
  fst (_sample self X y w) = Ok (X, y)
  /\ calls (snd (_sample self X y w)) = calls w.
Proof.
  intros Hk Hzero. unfold _sample, bind.
  assert (Hv : fst (_validate_estimator self w) = Ok tt
               /\ calls (snd (_validate_estimator self w)) = calls w).
  { unfold _validate_estimator.
    apply kind_in_In in Hk. rewrite Hk. cbn [negb].
    unfold bind, new_nn, ret.
    destruct (kind_in (kind self) ["minority"; "regular"]%string);
      destruct (kind_in (kind self) ["majority"; "regular"]%string);
      now split. }
  destruct (_validate_estimator self w) as [r w0]. simpl in Hv.
  destruct Hv as [-> <-]. revert w0.
  induction Hzero as [|[c n] items Hn _ IH]; intros w0; [now split|].
  simpl in Hn. subst n. cbn [foldM]. unfold bind.
  rewrite sample_class_parts. simpl. apply IH.
Qed.

End PassFrames.

(** ** The class partition of lines 170-171 *)

Lemma take_mask {A : Type} (mask : list bool) :
  forall (l pre : list A),
    (length mask <= length l)%nat ->
    take (pre ++ l)
      (map fst (filter snd (combine (seq (length pre) (length mask)) mask)))
    = Ok (map fst (filter snd (combine l mask))).
Proof.
  induction mask as [|b mask IH]; intros l pre Hlen; [now destruct l|].
  destruct l as [|x l]; [simpl in Hlen; lia|]. simpl in Hlen.
  assert (Hrest : take (pre ++ x :: l)
                    (map fst (filter snd
                       (combine (seq (S (length pre)) (length mask)) mask)))
                  = Ok (map fst (filter snd (combine l mask)))).
  { replace (pre ++ x :: l) with ((pre ++ [x]) ++ l)
      by now rewrite <- app_assoc.
    replace (S (length pre)) with (length (pre ++ [x]))
      by (rewrite length_app; simpl; lia).
    apply IH. lia. }
  simpl. destruct b; simpl; [|exact Hrest].
  unfold getitem_list. rewrite nth_error_app2, Nat.sub_diag by lia.
  simpl. now rewrite Hrest.
Qed.

Lemma flatnonzero_spec (mask : list bool) (i : nat) :
  In i (flatnonzero mask) <-> nth_error mask i = Some true.
Proof.
  unfold flatnonzero.
  assert (Hgen : forall s,
             In i (map fst (filter snd
                              (combine (seq s (length mask)) mask)))
             <-> (s <= i)%nat /\ nth_error mask (i - s) = Some true).
  { induction mask as [|b mask IH]; intros s; simpl.
    - split; [contradiction|]. intros [_ Hn]. now destruct (i - s)%nat.
    - assert (Hstep : In i (map fst (filter snd
                                 (combine (seq (S s) (length mask)) mask)))
                      <-> (S s <= i)%nat
                          /\ nth_error mask (i - S s) = Some true)
        by apply IH.
      destruct b; simpl; rewrite Hstep; split.
      + intros [<-|[Hle Hn]].
        * split; [lia|]. now rewrite Nat.sub_diag.
        * split; [lia|]. replace (i - s)%nat with (S (i - S s)) by lia.
          exact Hn.
      + intros [Hle Hn]. destruct (Nat.eq_dec s i) as [->|Hne]; [now left|].
        right. split; [lia|].
        replace (i - s)%nat with (S (i - S s)) in Hn by lia. exact Hn.
      + intros [Hle Hn]. split; [lia|].
        replace (i - s)%nat with (S (i - S s)) by lia. exact Hn.
      + intros [Hle Hn]. destruct (Nat.eq_dec s i) as [->|Hne].
        * rewrite Nat.sub_diag in Hn. discriminate.
        * split; [lia|].
          replace (i - s)%nat with (S (i - S s)) in Hn by lia. exact Hn. }
  rewrite Hgen, Nat.sub_0_r. split; [now intros [_ ?] | split; [lia | trivial]].
Qed.

Lemma take_out_of_range {A : Type} (l : list A) (indices : list nat)
  (i : nat) :
  In i indices -> (length l <= i)%nat -> take l indices = Raise IndexError.
Proof.
  intros Hin Hi. induction indices as [|j indices IH]; [contradiction|].
  simpl. unfold getitem_list at 1.
  destruct (nth_error l j) as [x|] eqn:E; [|reflexivity].
  destruct Hin as [->|Hin].
  - apply nth_error_None in Hi. congruence.
  - simpl. now rewrite IH.
Qed.

(** X13. The class partition. When there are no more labels than rows,
    the two indexings of lines 170-171 do not raise: [X_positive] is made
    of the rows whose label is the class label, [X_negative] of the others,
    both in the order of [X] and of its width, and together they hold one
    row per label. *)
Theorem class_partition (a : ndarray2) (y : list label) (c : label) :
  (length y <= length (rows a))%nat ->
  let positive :=
    map fst (filter (fun p => Z.eqb (snd p) c) (combine (rows a) y)) in
  let negative :=
    map fst (filter (fun p => negb (Z.eqb (snd p) c)) (combine (rows a) y)) in
  safe_indexing (Dense a) (flatnonzero (map (fun l => Z.eqb l c) y))
  = Ok (Dense (mk_ndarray2 (ncols a) positive))
  /\ safe_indexing (Dense a)
       (flatnonzero (map (fun l => negb (Z.eqb l c)) y))
     = Ok (Dense (mk_ndarray2 (ncols a) negative))
  /\ (length positive + length negative = length y)%nat.
Proof.
  intros Hlen positive negative.
  assert (Hmask : forall f : label -> bool,
             safe_indexing (Dense a) (flatnonzero (map f y))
             = Ok (Dense (mk_ndarray2 (ncols a)
                            (map fst (filter (fun p => f (snd p))
                                        (combine (rows a) y)))))).
  { intros f. unfold safe_indexing, flatnonzero.
    pose proof (take_mask (map f y) (rows a) []) as Ht.
    simpl in Ht. rewrite Ht by now rewrite length_map.
    simpl. do 3 f_equal. clear. generalize (rows a) as l.
    induction y as [|v y IH]; intros [|x l]; simpl; trivial.
    destruct (f v); simpl; now rewrite IH. }
  split; [apply (Hmask (fun l => Z.eqb l c))|].
  split; [apply (Hmask (fun l => negb (Z.eqb l c)))|].
  unfold positive, negative. rewrite !length_map.
  assert (Hl : length (combine (rows a) y) = length y)
    by (rewrite length_combine; lia).
  rewrite <- Hl. clear. generalize (combine (rows a) y) as l.
  induction l as [|p l IH]; simpl; [reflexivity|].
  destruct (Z.eqb _ c); simpl; rewrite <- IH; lia.
Qed.

(** X14. Labels beyond the rows. When a label at a position the feature
    matrix has no row for is the class label, the indexing of line 170
    raises [IndexError]. *)
Theorem class_partition_out_of_range (X : features) (y : list label)
  (c : label) (i : nat) :
  nth_error y i = Some c -> (shape0 X <= i)%nat ->
  safe_indexing X (flatnonzero (map (fun l => Z.eqb l c) y))
  = Raise IndexError.
Proof.
  intros Hy Hi.
  assert (Hin : In i (flatnonzero (map (fun l => Z.eqb l c) y))).
  { apply flatnonzero_spec. rewrite nth_error_map.
    change label with Z in Hy. rewrite Hy. simpl.
    now rewrite Z.eqb_refl. }
  destruct X as [a|d s]; simpl in *.
  - now rewrite (take_out_of_range _ _ i Hin Hi).
  - now rewrite (take_out_of_range _ _ i Hin Hi).
Qed.

(** ** The resampling pass: the exceptions it can raise *)

Lemma sound_getitem_list {A : Type} (l : list A) (i : nat) :
  sound (getitem_list l i).
Proof. unfold getitem_list. now destruct (nth_error l i). Qed.

Lemma sound_of_library {A : Type} (r : library A) : sound (of_library r).
Proof. now destruct r. Qed.

Lemma sound_bind {A B : Type} (r : result A) (k : A -> result B) :
  sound r -> (forall a, sound (k a)) -> sound (bind_result r k).
Proof. destruct r; simpl; auto. Qed.

Lemma sound_take {A : Type} (l : list A) (indices : list nat) :
  sound (take l indices).
Proof.
  induction indices as [|i indices IH]; simpl; [exact I|].
  apply sound_bind; [apply sound_getitem_list|].
  intros x. apply sound_bind; [exact IH | now intros].
Qed.

Lemma sound_safe_indexing (X : features) (indices : list nat) :
  sound (safe_indexing X indices).
Proof.
  destruct X; simpl; (apply sound_bind; [apply sound_take | now intros]).
Qed.

Lemma sound_getitem (X : features) (row : nat) : sound (getitem X row).
Proof.
  destruct X; simpl;
    (apply sound_bind; [apply sound_getitem_list | now intros]).
Qed.

Lemma sound_setitem (a : ndarray2) (i : nat) (v : list float) :
  sound (setitem a i v).
Proof.
  unfold setitem.
  repeat match goal with |- context [if ?b then _ else _] => destruct b end;
    reflexivity.
Qed.

Lemma sound_np_vstack `{ScipyStack} (A B : features) : sound (np_vstack A B).
Proof.
  destruct A, B; simpl; try apply sound_of_library.
  now destruct (_ =? _)%nat.
Qed.

Section PassExceptions.

Context {rng : Type} `{RandomState rng} `{ScipyRow} `{ImbtoolsUtils rng}
  `{Sklearn} `{ScipyStack}.

Lemma sound_geometric_sample (center : array1) (radius : float) (g : rng) :
  sound (fst (_make_geometric_sample center radius g)).
Proof.
  unfold _make_geometric_sample.
  destruct (normal (size center) g) as [nv g1].
  destruct (uniform g1) as [u g2].
  unfold py_truediv. destruct (size center =? 0)%nat; [reflexivity|].
  simpl. destruct center as [c|d stored]; simpl.
  - unfold np_add.
    repeat match goal with |- context [if ?b then _ else _] => destruct b end;
      reflexivity.
  - apply sound_of_library.
Qed.

Lemma sound_fill_rows (X : features) (radii : ndarray2)
  (items : list (nat * (nat * (nat * rng)))) :
  forall X_new, sound (fill_rows X radii X_new items).
Proof.
  induction items as [|[row_ind [row [col sub]]] items IH]; intros X_new;
    [exact I|].
  simpl. apply sound_bind; [|exact IH].
  apply sound_bind; [apply sound_getitem|]. intros center.
  apply sound_bind.
  { unfold getitem2. apply sound_bind; [apply sound_getitem_list|].
    intros r. apply sound_getitem_list. }
  intros radius. apply sound_bind; [apply sound_geometric_sample|].
  intros v. apply sound_setitem.
Qed.

Lemma sound_batch (X : features) (class_label : label) (radii : ndarray2)
  (n : nat) (g : rng) :
  sound (fst (_make_geometric_samples X class_label radii n g)).
Proof.
  unfold _make_geometric_samples.
  destruct (check_random_states g n) as [subs g1].
  unfold py_randint.
  destruct (length (flatten radii) =? 0)%nat; [reflexivity|].
  destruct (randint (length (flatten radii)) n g1) as [idx g2].
  simpl. apply sound_bind; [apply sound_fill_rows | now intros].
Qed.

Variable self : GeometricSMOTE.

Lemma created_record (c : call) (w : world rng) :
  created self w -> created self (record c w).
Proof. intros Hc s Hs. specialize (Hc s Hs). now destruct s. Qed.

Lemma created_set_nn (s : slot) (nn : NearestNeighbors) (w : world rng) :
  created self w -> created self (set_nn s nn w).
Proof.
  intros Hc s' Hs. specialize (Hc s' Hs).
  destruct s, s'; simpl in *; congruence.
Qed.

Lemma created_drawing {A : Type} (r : generator rng) (f : rng -> A * rng)
  (w : world rng) :
  created self w -> created self (snd (drawing r f w)).
Proof.
  intros Hc s Hs. specialize (Hc s Hs).
  destruct r as [| |g]; simpl; [destruct (f (np_random w)) |
    destruct (f (instance_state w)) |]; now destruct s.
Qed.

Lemma get_set_nn (s : slot) (nn : NearestNeighbors) (w : world rng) :
  get_nn s (set_nn s nn w) = Some nn.
Proof. now destruct s. Qed.

Lemma get_nn_record (s : slot) (c : call) (w : world rng) :
  get_nn s (record c w) = get_nn s w.
Proof. now destruct s. Qed.

Lemma nn_fit_sound (s : slot) (X : features) :
  uses self s = true ->
  triple (rng := rng) (created self) (nn_fit s X)
    (fun _ w => created self w
                /\ exists nn, get_nn s w = Some nn /\ fit_X nn <> None)
    only_data_errors.
Proof.
  intros Hs w Hw. unfold nn_fit. pose proof (Hw s Hs) as Hnn.
  destruct (get_nn s w) as [nn|]; [|congruence].
  destruct (fit_error (n_neighbors nn) X); [reflexivity|].
  split; [apply created_set_nn, created_record, Hw|].
  rewrite get_set_nn. eexists. split; [reflexivity | discriminate].
Qed.

Lemma nn_kneighbors_sound (s : slot) (X : features) :
  triple (rng := rng) (fun w => created self w
                   /\ exists nn, get_nn s w = Some nn /\ fit_X nn <> None)
    (nn_kneighbors s X) (fun _ w => created self w) only_data_errors.
Proof.
  intros w [Hw [nn [Hnn Hfit]]]. unfold nn_kneighbors. rewrite Hnn.
  destruct (fit_X nn) as [fitted|]; [|congruence].
  destruct (kneighbors (n_neighbors nn) fitted X) as [msg|radii];
    [reflexivity | now apply created_record].
Qed.

Lemma check_random_state_sound (seed : random_state_t) :
  triple (rng := rng) (created self) (check_random_state seed)
    (fun _ w => created self w) only_data_errors.
Proof.
  intros w Hw. destruct seed as [|seed|]; simpl; trivial.
  match goal with |- context [if ?b then _ else _] => destruct b end;
    [exact Hw | reflexivity].
Qed.

Lemma drawing_sound (r : generator rng) (X : features) (class_label : label)
  (radii : ndarray2) (n : nat) :
  triple (rng := rng) (created self)
    (drawing r (_make_geometric_samples X class_label radii n))
    (fun _ w => created self w) only_data_errors.
Proof.
  intros w Hw.
  pose proof (created_drawing r
                (_make_geometric_samples X class_label radii n) w Hw) as Hc.
  assert (Hsound : sound (fst (drawing r
                                 (_make_geometric_samples X class_label
                                    radii n) w))).
  { destruct r as [| |g]; simpl.
    - pose proof (sound_batch X class_label radii n (np_random w)) as Hb.
      now destruct (_make_geometric_samples _ _ _ _ (np_random w)).
    - pose proof (sound_batch X class_label radii n (instance_state w))
        as Hb.
      now destruct (_make_geometric_samples _ _ _ _ (instance_state w)).
    - apply sound_batch. }
  now destruct (drawing r _ w) as [[a|e] w'].
Qed.

(** Lines 174-177 and 180-183 on an estimator that has been created: the
    estimator is fitted before it is queried, and a batch is bound. *)
Lemma radii_and_batch_sound (s : slot) (X_fit X_positive : features)
  (class_label : label) (n_samples : nat) :
  uses self s = true ->
  triple (rng := rng) (created self)
    (radii_and_batch self s X_fit X_positive class_label n_samples)
    (fun new w => created self w /\ new <> None) only_data_errors.
Proof.
  intros Hs. unfold radii_and_batch.
  eapply triple_bind; [now apply nn_fit_sound|]. intros [].
  eapply triple_bind; [apply nn_kneighbors_sound|]. intros radii.
  eapply triple_bind; [apply check_random_state_sound|]. intros r.
  eapply triple_bind; [apply drawing_sound|]. intros new.
  apply triple_ret. intros w Hw. split; [exact Hw | discriminate].
Qed.

Lemma stack_batch_sound (X_resampled : features) (y_resampled : list label)
  (new : option (features * list label)) :
  new <> None ->
  triple (rng := rng) (created self) (stack_batch X_resampled y_resampled new)
    (fun _ w => created self w) only_data_errors.
Proof.
  intros Hnew w Hw. destruct new as [[X_new y_new]|]; [|congruence].
  unfold stack_batch, bind.
  destruct (issparse X_new).
  - unfold do_sparse_vstack.
    destruct (sparse_vstack X_resampled X_new) as [msg|X']; simpl;
      [reflexivity | now apply created_record].
  - unfold lift. pose proof (sound_np_vstack X_resampled X_new) as Hv.
    destruct (np_vstack X_resampled X_new) as [X'|e]; simpl; auto.
Qed.

Lemma sample_class_sound (X : features) (y : list label)
  (resampled : features * list label) (item : label * nat) :
  In (kind self) GEOMETRIC_SMOTE_KIND ->
  triple (rng := rng) (created self) (sample_class self X y resampled item)
    (fun _ w => created self w) only_data_errors.
Proof.
  intros Hkind. destruct resampled as [X_resampled y_resampled].
  destruct item as [class_label n_samples].
  rewrite sample_class_parts.
  destruct (n_samples =? 0)%nat; [now apply triple_ret|].
  eapply triple_bind with (Q1 := fun _ w => created self w).
  { apply triple_lift. intros w Hw.
    pose proof (sound_safe_indexing X
                  (flatnonzero (map (fun l => Z.eqb l class_label) y))) as Hi.
    now destruct (safe_indexing X _). }
  intros X_positive.
  eapply triple_bind with (Q1 := fun _ w => created self w).
  { apply triple_lift. intros w Hw.
    pose proof (sound_safe_indexing X
                  (flatnonzero
                     (map (fun l => negb (Z.eqb l class_label)) y))) as Hi.
    now destruct (safe_indexing X _). }
  intros X_negative.
  assert (Hone : uses self Minority = true \/ uses self Majority = true).
  { unfold uses, kind_in. simpl in Hkind |- *.
    destruct Hkind as [<-|[<-|[<-|[]]]]; simpl; auto. }
  eapply triple_bind
    with (Q1 := fun new w =>
                  created self w
                  /\ (uses self Minority = true -> new <> None)).
  { change (kind_in (kind self) ["minority"; "regular"]%string)
      with (uses self Minority).
    destruct (uses self Minority) eqn:Emin.
    - intros w Hw.
      pose proof (radii_and_batch_sound Minority X_positive X_positive
                    class_label n_samples Emin w Hw) as Hr.
      destruct (radii_and_batch _ _ _ _ _ _ w) as [[new|e] w'];
        [|exact Hr].
      destruct Hr; auto.
    - apply triple_ret. intros w Hw. split; [exact Hw | discriminate]. }
  intros new.
  eapply triple_bind with (Q1 := fun new w => created self w /\ new <> None).
  { change (kind_in (kind self) ["majority"; "regular"]%string)
      with (uses self Majority).
    destruct (uses self Majority) eqn:Emaj.
    - intros w [Hw _].
      exact (radii_and_batch_sound Majority X_negative X_positive
               class_label n_samples Emaj w Hw).
    - apply triple_ret. intros w [Hw Hnew]. split; [exact Hw|].
      destruct Hone as [Hmin|Hmaj]; [auto | discriminate]. }
  intros new'. intros w [Hw Hnew].
  exact (stack_batch_sound X_resampled y_resampled new' Hnew w Hw).
Qed.

Lemma validate_sound :
  triple (rng := rng) (fun _ => True) (_validate_estimator (rng := rng) self)
    (fun _ w => created self w /\ In (kind self) GEOMETRIC_SMOTE_KIND)
    only_data_errors.
Proof.
  intros w _. unfold _validate_estimator.
  destruct (kind_in (kind self) GEOMETRIC_SMOTE_KIND) eqn:Ekind;
    cbn [negb]; [|reflexivity].
  apply kind_in_In in Ekind.
  unfold bind, new_nn, ret.
  change (kind_in (kind self) ["minority"; "regular"]%string)
    with (uses self Minority).
  change (kind_in (kind self) ["majority"; "regular"]%string)
    with (uses self Majority).
  destruct (uses self Minority) eqn:Emin, (uses self Majority) eqn:Emaj;
    (split; [|exact Ekind]); intros [|] Hs; try congruence;
    simpl; discriminate.
Qed.

(** X15. The pass reports bad data, never a slip of its own. Whatever the
    estimator, the data and the collaborators, [_sample] never raises the
    [AttributeError] of an estimator that was not created, the
    [NotFittedError] of an estimator queried before it is fitted, or the
    [UnboundLocalError] of [X_new]: the estimators of lines 174-183 have
    been created by [_validate_estimator] for the same kinds and are fitted
    before they are queried, and one of the two branches binds [X_new] and
    [y_new] before line 185 reads them. What it raises is a [ValueError]
    (its own, numpy's, or the error of a collaborator, which the embedding
    keeps as a [ValueError]), a [ZeroDivisionError] or an [IndexError]. *)
Theorem pass_raises_data_errors_only (X : features) (y : list label)
  (w : world rng) :
  sound (fst (_sample self X y w)).
Proof.
  assert (Hloop : forall items resampled,
             In (kind self) GEOMETRIC_SMOTE_KIND ->
             triple (rng := rng) (created self)
               (foldM (sample_class self X y) items resampled)
               (fun _ w => created self w) only_data_errors).
  { intros items. induction items as [|item items IH];
      intros resampled Hkind.
    - now apply triple_ret.
    - simpl. eapply triple_bind; [now apply sample_class_sound|].
      intros r. now apply IH. }
  unfold _sample, bind.
  pose proof (validate_sound w I) as Hv.
  destruct (_validate_estimator self w) as [[[]|e] w1]; [|exact Hv].
  destruct Hv as [Hc Hkind].
  pose proof (Hloop (ratio_ self) (X, y) Hkind w1 Hc) as Hl.
  now destruct (foldM _ _ _ w1) as [[r|e] w2].
Qed.

End PassExceptions.

(** ** The resampling pass: regular mode and majority mode *)

Section RegularPass.

Context {rng : Type} `{RandomStateSpec rng} `{ScipyRow}
  `{ImbtoolsUtils rng} `{Sklearn} `{ScipyStack}.

(** A turn of the loop in regular mode is the minority computations, their
    batch dropped, then the turn of majority mode. *)
Lemma regular_turn (self : GeometricSMOTE) (X : features) (y : list label)
  (resampled : features * list label) (item : label * nat) (w : world rng) :
  kind self = "regular"%string ->
  sample_class self X y resampled item w
  = (minority_pass_dropped self X y item ;;;
     sample_class (with_kind self "majority") X y resampled item)%action w.
Proof.
  intros Hkind.
  destruct resampled as [X_resampled y_resampled], item as [c n].
  unfold sample_class, minority_pass_dropped, with_kind.
  cbn [kind random_state]. rewrite Hkind.
  change (kind_in "regular" ["minority"; "regular"]%string) with true.
  change (kind_in "regular" ["majority"; "regular"]%string) with true.
  change (kind_in "majority" ["minority"; "regular"]%string) with false.
  change (kind_in "majority" ["majority"; "regular"]%string) with true.
  destruct (n =? 0)%nat; [reflexivity|].
  unfold bind, lift, ret.
  destruct (safe_indexing X
              (flatnonzero (map (fun l => Z.eqb l c) y))) as [Xp|e];
    [|reflexivity].
  destruct (safe_indexing X
              (flatnonzero (map (fun l => negb (Z.eqb l c)) y))) as [Xn|e];
    [|reflexivity].
  destruct (nn_fit Minority Xp w) as [[[]|e] w1]; [|reflexivity].
  destruct (nn_kneighbors Minority Xp w1) as [[radii|e] w2];
    [|reflexivity].
  destruct (check_random_state (random_state self) w2) as [[gen|e] w3];
    [|reflexivity].
  destruct (drawing gen (_make_geometric_samples Xp c radii n) w3)
    as [[new|e] w4]; reflexivity.
Qed.

(** X16. Regular mode returns what majority mode returns. With an integer
    seed, whenever the pass in regular mode returns, the pass in majority
    mode on the same data returns the same resampled dataset: all that
    regular mode adds are the minority computations, which can only make
    the pass raise. *)
Theorem regular_pass_is_majority_pass (self : GeometricSMOTE)
  (X : features) (y : list label) (w : world rng) (seed : Z)
  (r : features * list label) :
  kind self = "regular"%string ->
  random_state self = RS_int seed ->
  fst (_sample self X y w) = Ok r ->
  fst (_sample (with_kind self "majority") X y w) = Ok r.
Proof.
  intros Hkind Hseed.
  set (maj := with_kind self "majority").
  assert (Hloop : forall items resampled w1 w2,
             agree maj w1 w2 ->
             fst (foldM (sample_class self X y) items resampled w1) = Ok r ->
             fst (foldM (sample_class maj X y) items resampled w2) = Ok r).
  { induction items as [|item items IH]; intros resampled w1 w2 Ha;
      [trivial|].
    cbn [foldM]. unfold bind.
    rewrite (regular_turn self X y resampled item w1 Hkind). fold maj.
    unfold bind.
    pose proof (minority_pass_frame self X y item w1 seed Hseed) as Hframe.
    destruct (minority_pass_dropped self X y item w1) as [[[]|e] w1'];
      [|discriminate].
    simpl in Hframe.
    assert (Ha' : agree maj w1' w2).
    { destruct Ha as [_ Hnn]. split.
      - unfold same_generator, maj, with_kind. cbn [random_state].
        now rewrite Hseed.
      - intros [|] Hs; [discriminate Hs|].
        specialize (Hnn Majority Hs). simpl in Hnn |- *. congruence. }
    destruct (respects_sample_class maj X y resampled item w1' w2 Ha')
      as [Hfst Hsnd].
    destruct (sample_class maj X y resampled item w1') as [[b|e] w1''],
             (sample_class maj X y resampled item w2) as [[b2|e2] w2''];
      simpl in Hfst, Hsnd; try discriminate.
    injection Hfst as <-. now apply IH. }
  unfold _sample, bind.
  assert (Hvalid : exists w1 w2,
             _validate_estimator self w = (Ok tt, w1)
             /\ _validate_estimator maj w = (Ok tt, w2)
             /\ agree maj w1 w2).
  { unfold _validate_estimator, maj, with_kind. cbn [kind n_jobs k_neighbors].
    rewrite Hkind. do 2 eexists. split; [reflexivity|].
    split; [reflexivity|]. split.
    - unfold same_generator. cbn [random_state]. now rewrite Hseed.
    - intros [|] Hs; [discriminate Hs | reflexivity]. }
  destruct Hvalid as (w1 & w2 & -> & -> & Ha).
  now apply Hloop.
Qed.

End RegularPass.

(** In regular mode, seeded, the pass over the five points returns. *)
Lemma regular_pass_five :
  exists r,
    fst (_sample (smote "regular" (RS_int 0)) (Dense five_points) five_labels
           initial_world) = Ok r.
Proof.
  unfold _sample, bind.
  cbn -[sample_class _make_geometric_samples foldM].
  cbn [foldM]. unfold bind.
  rewrite sample_class_parts.
  cbn -[_make_geometric_samples]. unfold bind.
  cbn -[_make_geometric_samples].
  match goal with
  | |- context [_make_geometric_samples (Dense ?a) ?l ?r ?n ?g] =>
      destruct (batch_value a r l n g) as (E & _ & _);
      [repeat constructor | simpl; lia | repeat constructor | reflexivity
      | simpl; lia | rewrite E]
  end.
  cbn -[_make_geometric_samples randint check_random_states drawn_sample].
  match goal with
  | |- context [_make_geometric_samples (Dense ?a) ?l ?r ?n ?g] =>
      destruct (batch_value a r l n g) as (E' & _ & _);
      [repeat constructor | simpl; lia | repeat constructor | reflexivity
      | simpl; lia | rewrite E']
  end.
  cbn -[randint check_random_states drawn_sample].
  eexists. reflexivity.
Qed.

(** * Properties of the model search *)

(** ** Parameter names *)

Lemma string_ind2 (P : string -> Prop) :
  P EmptyString ->
  (forall c, P (String c EmptyString)) ->
  (forall c c' s, P s -> P (String c' s) -> P (String c (String c' s))) ->
  forall s, P s.
Proof.
  intros H0 H1 H2 s.
  assert (Hboth : P s /\ forall c, P (String c s)).
  { induction s as [|c' s [IH1 IH2]]; [now split|].
    split; [apply IH2|]. intros c. apply H2; [exact IH1 | apply IH2]. }
  apply Hboth.
Qed.

Lemma split_dunder_step (c c' : ascii) (s : string) :
  split_dunder (String c (String c' s))
  = if (Ascii.eqb c "_" && Ascii.eqb c' "_")%bool
    then EmptyString :: split_dunder s
    else cons_head c (split_dunder (String c' s)).
Proof. reflexivity. Qed.

Lemma split_dunder_nonempty (s : string) : split_dunder s <> [].
Proof.
  destruct s as [|c [|c' s]]; try discriminate.
  rewrite split_dunder_step.
  destruct (Ascii.eqb c "_" && Ascii.eqb c' "_")%bool; [discriminate|].
  destruct (split_dunder (String c' s)); discriminate.
Qed.

Lemma concat_cons_head (sep : string) (c : ascii) (parts : list string) :
  parts <> [] ->
  String.concat sep (cons_head c parts) = String c (String.concat sep parts).
Proof.
  destruct parts as [|part [|part' parts]]; [congruence| |]; reflexivity.
Qed.

Lemma concat_cons (sep part : string) (parts : list string) :
  parts <> [] ->
  String.concat sep (part :: parts)
  = (part ++ sep ++ String.concat sep parts)%string.
Proof. destruct parts; [congruence | reflexivity]. Qed.

(** Joining the parts of a split by the separator gives the string back. *)
Lemma split_dunder_join (s : string) :
  String.concat "__" (split_dunder s) = s.
Proof.
  induction s as [|c|c c' s IH1 IH2] using string_ind2; try reflexivity.
  rewrite split_dunder_step.
  destruct (Ascii.eqb c "_" && Ascii.eqb c' "_")%bool eqn:E.
  - apply andb_prop in E. destruct E as [Ec Ec'].
    apply Ascii.eqb_eq in Ec, Ec'. subst c c'.
    rewrite concat_cons by apply split_dunder_nonempty.
    now rewrite IH1.
  - rewrite concat_cons_head by apply split_dunder_nonempty.
    now rewrite IH2.
Qed.

Lemma split_dunder_head (s : string) :
  split_dunder (hd EmptyString (split_dunder s))
  = [hd EmptyString (split_dunder s)].
Proof.
  induction s as [|c|c c' s IH1 IH2] using string_ind2; try reflexivity.
  rewrite split_dunder_step.
  destruct (Ascii.eqb c "_" && Ascii.eqb c' "_")%bool eqn:E; [reflexivity|].
  pose proof (split_dunder_nonempty (String c' s)) as Hne.
  destruct (split_dunder (String c' s)) as [|h parts] eqn:Es; [congruence|].
  cbn [cons_head hd] in *.
  destruct h as [|d h]; [reflexivity|].
  assert (Hd : d = c').
  { destruct s as [|c'' s]; [simpl in Es; congruence|].
    rewrite split_dunder_step in Es.
    destruct (Ascii.eqb c' "_" && Ascii.eqb c'' "_")%bool; [congruence|].
    destruct (split_dunder (String c'' s)); simpl in Es; congruence. }
  subst d. rewrite split_dunder_step, E, IH2. reflexivity.
Qed.

(** X17. What line 302 does to a parameter name. A name without the
    separator ['__'] gets the empty key. Any other name is the text before
    its first separator, which holds no separator, then the separator, then
    the key it gets. *)
Theorem param_name_decomposition (param : string) :
  let prefix := hd EmptyString (split_dunder param) in
  split_dunder prefix = [prefix]
  /\ match tl (split_dunder param) with
     | [] => param = prefix /\ strip_est_name param = EmptyString
     | _ :: _ => param = (prefix ++ "__" ++ strip_est_name param)%string
     end.
Proof.
  intros prefix. split; [apply split_dunder_head|].
  pose proof (split_dunder_join param) as Hjoin.
  unfold strip_est_name, prefix.
  destruct (split_dunder param) as [|h [|part parts]]; simpl in *.
  - pose proof (split_dunder_nonempty param). auto.
  - auto.
  - now rewrite <- Hjoin.
Qed.

Lemma split_dunder_plain (name rest : string) :
  plain_name name = true ->
  split_dunder (name ++ "__" ++ rest) = name :: split_dunder rest.
Proof.
  induction name as [|c name IH]; intros Hplain; [reflexivity|].
  assert (Htail : exists c' s,
             (name ++ "__" ++ rest)%string = String c' s
             /\ (Ascii.eqb c "_" && Ascii.eqb c' "_")%bool = false
             /\ plain_name name = true).
  { simpl in Hplain. destruct name as [|c' name].
    - destruct (Ascii.eqb c "_"); [discriminate|].
      exists "_"%char, (String "_" rest). auto.
    - exists c', (name ++ "__" ++ rest)%string.
      destruct (Ascii.eqb c "_"); [|auto].
      apply andb_prop in Hplain. destruct Hplain as [Hc' Hp].
      apply negb_true_iff in Hc'. rewrite Hc'. auto. }
  destruct Htail as (c' & s & Hs & Hc & Hp).
  change (String c name ++ "__" ++ rest)%string
    with (String c (name ++ "__" ++ rest)).
  specialize (IH Hp). rewrite Hs in IH |- *.
  rewrite split_dunder_step, Hc, IH. reflexivity.
Qed.

(** X18. The estimator prefix is stripped. For an estimator name in which
    no underscore is followed by another or ends the name, the parameter
    [name__rest] gets the key [rest], whatever [rest] is: further
    separators inside [rest] are kept. *)
Theorem prefixed_name_stripped (name rest : string) :
  plain_name name = true ->
  strip_est_name (name ++ "__" ++ rest) = rest.
Proof.
  intros Hplain. unfold strip_est_name.
  rewrite split_dunder_plain by exact Hplain.
  apply split_dunder_join.
Qed.

(** ** Dictionaries *)

Section Dictionaries.

Context {V : Type}.

Implicit Types (d : dict V) (k : string) (v : V).

Lemma dict_get_None d k : dict_get d k = None <-> ~ In k (map fst d).
Proof.
  induction d as [|[k' v'] d IH]; simpl; [tauto|].
  destruct (String.eqb_spec k' k) as [->|Hne].
  - split; [discriminate | tauto].
  - rewrite IH. tauto.
Qed.

Lemma dict_get_set d k v k' :
  dict_get (dict_set d k v) k'
  = if String.eqb k k' then Some v else dict_get d k'.
Proof.
  induction d as [|[k0 v0] d IH]; simpl; [reflexivity|].
  destruct (String.eqb_spec k0 k) as [->|Hne]; simpl.
  - now destruct (String.eqb k k').
  - rewrite IH. destruct (String.eqb_spec k0 k') as [->|Hne'];
      [|reflexivity].
    destruct (String.eqb_spec k k'); congruence.
Qed.

Lemma keys_dict_set d k v k' :
  In k' (map fst (dict_set d k v)) <-> k' = k \/ In k' (map fst d).
Proof.
  induction d as [|[k0 v0] d IH]; simpl; [intuition|].
  destruct (String.eqb_spec k0 k) as [->|Hne]; simpl;
    [|rewrite IH]; intuition.
Qed.

Lemma is_dict_set d k v : is_dict d -> is_dict (dict_set d k v).
Proof.
  unfold is_dict. induction d as [|[k0 v0] d IH]; simpl; intros Hd.
  - constructor; [tauto | constructor].
  - inversion Hd as [|? ? Hnotin Hrest]; subst.
    destruct (String.eqb_spec k0 k) as [->|Hne]; simpl;
      [now constructor|].
    constructor; [|auto].
    rewrite keys_dict_set. intros [->|Hin]; auto.
Qed.

Lemma dict_set_new d k v :
  ~ In k (map fst d) -> dict_set d k v = d ++ [(k, v)].
Proof.
  induction d as [|[k0 v0] d IH]; simpl; intros Hk; [reflexivity|].
  destruct (String.eqb_spec k0 k) as [->|Hne]; [tauto|].
  now rewrite IH by tauto.
Qed.

Lemma fold_dict_set_get (items : list (string * V)) :
  forall d k,
    dict_get (fold_left (fun d item => dict_set d (fst item) (snd item))
                items d) k
    = match last_value items k with
      | Some v => Some v
      | None => dict_get d k
      end.
Proof.
  unfold last_value.
  induction items as [|[k0 v0] items IH]; intros d k; [reflexivity|].
  cbn [fold_left]. rewrite IH. cbn [filter fst snd].
  rewrite dict_get_set.
  destruct (String.eqb k0 k); [|reflexivity].
  cbn [rev].
  destruct (rev (filter (fun item => String.eqb (fst item) k) items));
    reflexivity.
Qed.

(** Looking up a key in a comprehension. *)
Lemma dict_get_of_items (items : list (string * V)) k :
  dict_get (dict_of_items items) k = last_value items k.
Proof.
  unfold dict_of_items. rewrite fold_dict_set_get.
  now destruct (last_value items k).
Qed.

Lemma is_dict_of_items (items : list (string * V)) :
  is_dict (dict_of_items items).
Proof.
  unfold dict_of_items.
  assert (Hgen : forall d, is_dict d ->
             is_dict (fold_left
                        (fun d item => dict_set d (fst item) (snd item))
                        items d)).
  { induction items as [|item items IH]; intros d Hd; [exact Hd|].
    simpl. apply IH. now apply is_dict_set. }
  apply Hgen. constructor.
Qed.

(** A comprehension over the items of a dictionary is the dictionary. *)
Lemma dict_of_items_dict d : is_dict d -> dict_of_items d = d.
Proof.
  unfold dict_of_items, is_dict.
  assert (Hgen : forall items acc,
             NoDup (map fst (acc ++ items)) ->
             fold_left (fun d item => dict_set d (fst item) (snd item))
               items acc
             = acc ++ items).
  { induction items as [|[k v] items IH]; intros acc Hnd;
      [now rewrite app_nil_r|].
    simpl. rewrite dict_set_new.
    - rewrite IH; rewrite <- app_assoc; [reflexivity | exact Hnd].
    - rewrite map_app in Hnd. simpl in Hnd.
      apply NoDup_remove_2 in Hnd. rewrite in_app_iff in Hnd. tauto. }
  intros Hd. apply (Hgen d []). exact Hd.
Qed.

Lemma is_dict_filter (f : string * V -> bool) d :
  is_dict d -> is_dict (filter f d).
Proof.
  unfold is_dict. induction d as [|item d IH]; simpl; intros Hd;
    [constructor|].
  inversion Hd as [|? ? Hnotin Hrest]; subst.
  destruct (f item); simpl; [|auto].
  constructor; [|auto].
  intros Hin. apply Hnotin. apply in_map_iff in Hin.
  destruct Hin as [x [Hx Hin]]. apply filter_In in Hin.
  apply in_map_iff. exists x. tauto.
Qed.

Lemma dict_get_filter (f : string * V -> bool) d k :
  (forall item, fst item = k -> f item = true) ->
  dict_get (filter f d) k = dict_get d k.
Proof.
  intros Hf. induction d as [|[k0 v0] d IH]; simpl; [reflexivity|].
  destruct (String.eqb_spec k0 k) as [->|Hne].
  - rewrite (Hf (k, v0) eq_refl). simpl. now rewrite String.eqb_refl.
  - destruct (f (k0, v0)); simpl; [|exact IH].
    destruct (String.eqb_spec k0 k); [congruence | exact IH].
Qed.

(** Deleting a key of a dictionary leaves the other items. *)
Lemma dict_del_filter d k :
  is_dict d ->
  dict_del d k = filter (fun item => negb (String.eqb (fst item) k)) d.
Proof.
  unfold is_dict. induction d as [|[k0 v0] d IH]; simpl; intros Hd;
    [reflexivity|].
  inversion Hd as [|? ? Hnotin Hrest]; subst.
  destruct (String.eqb_spec k0 k) as [->|Hne]; simpl.
  - symmetry. apply forallb_filter_id. apply forallb_forall.
    intros [k1 v1] Hin. simpl.
    destruct (String.eqb_spec k1 k) as [->|]; [|reflexivity].
    exfalso. apply Hnotin. apply in_map_iff. now exists (k, v1).
  - now rewrite IH.
Qed.

Lemma keys_of_items (items : list (string * V)) k :
  In k (map fst (dict_of_items items)) <-> In k (map fst items).
Proof.
  unfold dict_of_items.
  assert (Hgen : forall acc,
             In k (map fst
                     (fold_left
                        (fun d item => dict_set d (fst item) (snd item))
                        items acc))
             <-> In k (map fst acc) \/ In k (map fst items)).
  { induction items as [|item items IH]; intros acc; simpl; [tauto|].
    rewrite IH, keys_dict_set. intuition. }
  rewrite Hgen. simpl. tauto.
Qed.

Lemma keys_filter_other d k k0 :
  k <> k0 ->
  In k (map fst (filter (fun item => negb (String.eqb (fst item) k0)) d))
  <-> In k (map fst d).
Proof.
  intros Hne. rewrite !in_map_iff. split; intros [item [Hk Hin]].
  - apply filter_In in Hin. exists item. tauto.
  - exists item. split; [exact Hk|]. apply filter_In. split; [exact Hin|].
    apply negb_true_iff. apply String.eqb_neq. congruence.
Qed.

(** X19. The only failure of [_split_est_name]. The call raises exactly
    when the dictionary has no key ['est_name'], and what it raises is the
    [KeyError] of that key. *)
Theorem split_est_name_key_error (param_grid : dict V) :
  (dict_get param_grid "est_name" = None
   <-> _split_est_name param_grid = inl (KeyError "est_name"))
  /\ forall e, _split_est_name param_grid = inl e -> e = KeyError "est_name".
Proof.
  unfold _split_est_name, dict_pop.
  rewrite dict_get_of_items.
  assert (Hlast : last_value
                    (filter
                       (fun item => negb (String.eqb (fst item) "random_state"))
                       param_grid) "est_name" = None
                  <-> dict_get param_grid "est_name" = None).
  { rewrite <- dict_get_of_items, !dict_get_None, keys_of_items.
    rewrite keys_filter_other by discriminate. tauto. }
  destruct (last_value _ "est_name") as [name|] eqn:El.
  - split; [split; [|discriminate] | discriminate].
    intros Hnone. apply Hlast in Hnone. discriminate.
  - split; [split; [reflexivity | now intros _; apply Hlast] |].
    now intros e [= <-].
Qed.

(** X20. The result of [_split_est_name]. On a dictionary with the key
    ['est_name'] the call returns the value of that key and a dictionary in
    which a key has the value of the last renamed item with that key: of
    two parameters that differ in their prefix only, the later one wins. *)
Theorem split_est_name_result (param_grid : dict V) (est_name : V) :
  is_dict param_grid ->
  dict_get param_grid "est_name" = Some est_name ->
  exists renamed,
    _split_est_name param_grid = inr (est_name, renamed)
    /\ is_dict renamed
    /\ forall k,
         dict_get renamed k = last_value (renamed_items param_grid) k.
Proof.
  intros Hd Hname. unfold _split_est_name, dict_pop.
  set (kept := filter (fun item => negb (String.eqb (fst item) "random_state"))
                 param_grid).
  assert (Hkept : is_dict kept) by now apply is_dict_filter.
  rewrite (dict_of_items_dict kept Hkept).
  assert (Hget : dict_get kept "est_name" = Some est_name).
  { unfold kept. rewrite dict_get_filter; [exact Hname|].
    now intros item ->. }
  rewrite Hget, (dict_del_filter kept "est_name" Hkept).
  eexists. split; [reflexivity|].
  split; [apply is_dict_of_items|].
  intros k. apply dict_get_of_items.
Qed.

(** X21. A top-level random state is ignored. Setting the key
    ['random_state'] of the dictionary, or deleting it, changes nothing of
    what [_split_est_name] returns or raises. *)
Theorem split_est_name_random_state (param_grid : dict V) (v : V) :
  _split_est_name (dict_set param_grid "random_state" v)
  = _split_est_name param_grid
  /\ _split_est_name (dict_del param_grid "random_state")
     = _split_est_name param_grid.
Proof.
  unfold _split_est_name.
  assert (Hset : filter
                   (fun item => negb (String.eqb (fst item) "random_state"))
                   (dict_set param_grid "random_state" v)
                 = filter
                     (fun item => negb (String.eqb (fst item) "random_state"))
                     param_grid).
  { induction param_grid as [|[k0 v0] d IH]; [reflexivity|].
    cbn [dict_set dict_del filter fst].
    destruct (String.eqb k0 "random_state") eqn:E;
      cbn [filter fst negb]; rewrite ?E; cbn [negb];
      [reflexivity | now rewrite IH]. }
  assert (Hdel : filter
                   (fun item => negb (String.eqb (fst item) "random_state"))
                   (dict_del param_grid "random_state")
                 = filter
                     (fun item => negb (String.eqb (fst item) "random_state"))
                     param_grid).
  { clear Hset. induction param_grid as [|[k0 v0] d IH]; [reflexivity|].
    cbn [dict_set dict_del filter fst].
    destruct (String.eqb k0 "random_state") eqn:E;
      cbn [filter fst negb]; rewrite ?E; cbn [negb];
      [reflexivity | now rewrite IH]. }
  now rewrite Hset, Hdel.
Qed.

End Dictionaries.

(** ** The attributes after a fit *)

Lemma list_set_middle {A : Type} (pre : list A) (x y : A) (post : list A) :
  list_set (pre ++ x :: post) (length pre) y = pre ++ y :: post.
Proof. induction pre as [|h pre IH]; simpl; [reflexivity | now rewrite IH]. Qed.

Section ModelSearchProperties.

Context {V E : Type}.

Variable estimator_ : E -> option E.

(** The loop over the dictionaries that split: they are replaced, in place,
    by their renamed dictionaries, and their estimator names appended. *)
Lemma populate_models_run (done : list (dict V))
  (results : list (V * dict V)) :
  map _split_est_name done = map inr results ->
  forall (pre post : list (dict V)) (models : list V) (m : nat),
    populate_models (seq (length pre) (length done + m))
      (pre ++ done ++ post) models
    = populate_models (seq (length pre + length done) m)
        (pre ++ map snd results ++ post) (models ++ map fst results).
Proof.
  revert results.
  induction done as [|param_grid done IH]; intros [|[name new] results] Hsplit;
    try discriminate; intros pre post models m.
  - simpl. now rewrite Nat.add_0_r, app_nil_r.
  - simpl in Hsplit. injection Hsplit as Hhead Htail.
    cbn [length Nat.add seq populate_models app].
    rewrite nth_error_app2, Nat.sub_diag by lia. cbn [nth_error].
    rewrite Hhead, list_set_middle.
    specialize (IH results Htail (pre ++ [new]) post (models ++ [name]) m).
    rewrite length_app in IH. cbn [length] in IH.
    rewrite <- !app_assoc in IH. cbn [app] in IH.
    replace (length pre + 1)%nat with (S (length pre)) in IH by lia.
    rewrite IH. cbn [map fst snd app].
    now replace (S (length pre) + length done)%nat
      with (length pre + S (length done))%nat by lia.
Qed.

(** X22. The attributes after a fit whose dictionaries all split. When
    [best_estimator_] is absent or has an attribute [estimator_], and every
    dictionary of [cv_results_['params']] splits, the call raises nothing,
    replaces every dictionary by its renamed dictionary and stores the
    estimator names, one per dictionary and in the same order, as
    [cv_results_['models']]. *)
Theorem modify_attrs_all_split (self unwrapped : ModelSearchCV V E)
  (results : list (V * dict V)) :
  unwrap_best_estimator estimator_ self = inr unwrapped ->
  map _split_est_name (cv_params self) = map inr results ->
  _modify_grid_search_attrs estimator_ self
  = (mk_ModelSearchCV (best_estimator_ unwrapped) (map snd results)
       (Some (map fst results)),
     None)
  /\ length (map fst results) = length (cv_params self).
Proof.
  intros Hbest Hsplit.
  assert (Hparams : cv_params unwrapped = cv_params self).
  { unfold unwrap_best_estimator in Hbest.
    destruct (best_estimator_ self) as [best|]; [|congruence].
    destruct (estimator_ best); [|discriminate].
    injection Hbest as <-. reflexivity. }
  split.
  - unfold _modify_grid_search_attrs. rewrite Hbest, Hparams.
    pose proof (populate_models_run (cv_params self) results Hsplit
                  [] [] [] 0) as Hrun.
    cbn [length app] in Hrun.
    rewrite Nat.add_0_r, !app_nil_r in Hrun. rewrite Hrun.
    reflexivity.
  - rewrite length_map. apply (f_equal (@length _)) in Hsplit.
    rewrite !length_map in Hsplit. congruence.
Qed.

(** X23. The attributes after a dictionary that does not split. The call
    is not atomic: when the dictionary at some index raises, the exception
    leaves the object with [best_estimator_] already replaced, the
    dictionaries before that index already renamed, that dictionary and the
    later ones as they were, and [cv_results_['models']] not written. *)
Theorem modify_attrs_partial (self unwrapped : ModelSearchCV V E)
  (done : list (dict V)) (results : list (V * dict V)) (bad : dict V)
  (rest : list (dict V)) (e : search_exn) :
  unwrap_best_estimator estimator_ self = inr unwrapped ->
  cv_params self = done ++ bad :: rest ->
  map _split_est_name done = map inr results ->
  _split_est_name bad = inl e ->
  _modify_grid_search_attrs estimator_ self
  = (mk_ModelSearchCV (best_estimator_ unwrapped)
       (map snd results ++ bad :: rest) (cv_models self),
     Some e).
Proof.
  intros Hbest Hparams Hsplit Hbad.
  assert (Hsame : cv_params unwrapped = cv_params self
                  /\ cv_models unwrapped = cv_models self).
  { unfold unwrap_best_estimator in Hbest.
    destruct (best_estimator_ self) as [best|]; [|split; congruence].
    destruct (estimator_ best); [|discriminate].
    injection Hbest as <-. split; reflexivity. }
  destruct Hsame as [Hp Hm].
  unfold _modify_grid_search_attrs. rewrite Hbest, Hp, Hm, Hparams.
  pose proof (populate_models_run done results Hsplit [] (bad :: rest) []
                (S (length rest))) as Hrun.
  cbn [length app Nat.add] in Hrun.
  rewrite length_app. cbn [length]. rewrite Hrun.
  assert (Hlen : length done = length (map snd results)).
  { apply (f_equal (@length _)) in Hsplit.
    rewrite !length_map in Hsplit. now rewrite length_map. }
  cbn [seq populate_models]. rewrite Hlen.
  rewrite nth_error_app2, Nat.sub_diag by lia. cbn [nth_error].
  now rewrite Hbad.
Qed.

End ModelSearchProperties.

(** * The further properties on the stub collaborators

    Every property above that has a premise, at a concrete input that
    satisfies it. *)

(** X1 at a point of the plane. *)
Lemma geometric_sample_dense_outcome_witness :
  [Fin 0; Fin 1] <> []
  /\ exists v,
       fst (_make_geometric_sample (ndarray1 [Fin 0; Fin 1]) (Fin 1) O) = Ok v
       /\ length v = length [Fin 0; Fin 1].
Proof.
  assert (Hne : [Fin 0; Fin 1] <> []) by discriminate.
  split; [exact Hne|].
  exact (proj2 (geometric_sample_dense_outcome (rng := nat) [Fin 0; Fin 1]
                  (Fin 1) O) Hne).
Defined.

(** X3 at the point 1 of the line with radius 2. *)
Lemma geometric_sample_on_a_line_witness :
  hd 0 (fst (normal 1 O)) <> 0
  /\ fst (_make_geometric_sample (ndarray1 [Fin 1]) (Fin 2) O)
     = Ok [Fin (1 + 2 * / 2 * (if Rlt_dec 0 1 then 1 else -1))].
Proof.
  assert (Hx : hd 0 (fst (normal 1 O)) <> 0) by (simpl; lra).
  split; [exact Hx|].
  exact (geometric_sample_on_a_line (rng := nat) 1 2 O Hx).
Defined.

(** X4 on the generator whose normal draws are zero. *)
Lemma geometric_sample_zero_draw_witness :
  fst (_make_geometric_sample (ndarray1 [Fin 1; Fin 2]) (Fin 3) tt)
  = Ok [NaN; NaN].
Proof.
  apply (geometric_sample_zero_draw (rng := unit) [Fin 1; Fin 2] (Fin 3) tt).
  - discriminate.
  - repeat constructor.
Defined.

(** X5 on the three points. *)
Lemma batch_rectangular_witness :
  exists a y_new,
    fst (_make_geometric_samples (Dense three_points) 1%Z three_radii 4 O)
    = Ok (Dense a, y_new)
    /\ ncols a = 1%nat /\ wf_ndarray2 a.
Proof.
  destruct (batch_value three_points three_radii 1%Z 4 O) as (E & _ & _);
    [repeat constructor | simpl; lia | repeat constructor | reflexivity
    | simpl; lia |].
  destruct (batch_rectangular (rng := nat) (Dense three_points) 1%Z
              three_radii 4 O _ _ E) as (a & Ha & Hc & Hwf).
  exists a. eexists. rewrite E, Ha. split; [reflexivity|].
  split; [exact Hc | exact Hwf].
Defined.

(** X6 on the three points: radii without a column, then no sample asked
    for. *)
Lemma batch_edge_cases_witness :
  fst (_make_geometric_samples (Dense three_points) 1%Z
         (mk_ndarray2 0 [[]; []; []]) 4 O)
  = Raise (ValueError Low_ge_high)
  /\ fst (_make_geometric_samples (Dense three_points) 1%Z three_radii 0 O)
     = Ok (Dense (mk_ndarray2 1 []), []).
Proof.
  split.
  - apply (proj1 (batch_edge_cases (rng := nat) (Dense three_points) 1%Z
                    (mk_ndarray2 0 [[]; []; []]) O)); [reflexivity | lia].
  - apply (proj2 (batch_edge_cases (rng := nat) (Dense three_points) 1%Z
                    three_radii O)).
    discriminate.
Defined.

(** X7: the radii of three points with a matrix of one point. *)
Lemma batch_row_out_of_range_witness :
  fst (_make_geometric_samples (Dense (mk_ndarray2 1 [[Fin 0]])) 1%Z
         three_radii 4 O)
  = Raise IndexError.
Proof.
  apply (batch_row_out_of_range (rng := nat)).
  - discriminate.
  - lia.
  - intros i Hi. vm_compute in Hi. injection Hi as <-. vm_compute. lia.
Defined.

(** X9 on the three points: the first draw selects the radius 0 of the
    third point. *)
Lemma batch_zero_radius_copies_anchor_witness :
  exists X_new,
    fst (_make_geometric_samples
           (Dense (mk_ndarray2 1 (map (map Fin) [[0]; [1]; [3]]))) 1%Z
           (mk_ndarray2 2 (map (map Fin) [[0; 1]; [0; 1]; [0; 2]])) 4 O)
    = Ok (Dense X_new, repeat 1%Z 4)
    /\ nth_error (rows X_new) 0 = Some [Fin 3].
Proof.
  destruct (batch_zero_radius_copies_anchor (rng := nat) [[0]; [1]; [3]]
              [[0; 1]; [0; 1]; [0; 2]] 1 2 1%Z 4 O)
    as (X_new & Hrun & Hall).
  - lia.
  - repeat constructor.
  - repeat constructor.
  - reflexivity.
  - simpl. lia.
  - simpl. repeat (constructor; [apply Exists_cons_hd; lra|]). constructor.
  - exists X_new. split; [exact Hrun|].
    exact (Hall 0%nat 4%nat eq_refl eq_refl).
Defined.

(** X10 on the five points: minority mode leaves the majority search
    alone. *)
Lemma unused_search_untouched_witness :
  uses (smote "minority" (RS_int 0)) Majority = false
  /\ filter (is_call_of Majority)
       (calls (snd (_sample (smote "minority" (RS_int 0))
                      (Dense five_points) five_labels initial_world)))
     = []
  /\ get_nn Majority
       (snd (_sample (smote "minority" (RS_int 0)) (Dense five_points)
               five_labels initial_world))
     = None.
Proof.
  split; [reflexivity|].
  exact (unused_search_untouched (rng := nat) (smote "minority" (RS_int 0))
           Majority (Dense five_points) five_labels initial_world eq_refl).
Defined.

(** X11 on the five points, seeded. *)
Lemma other_generators_untouched_witness :
  np_random (snd (_sample (smote "regular" (RS_int 0)) (Dense five_points)
                    five_labels initial_world))
  = O
  /\ instance_state (snd (_sample (smote "regular" (RS_int 0))
                            (Dense five_points) five_labels initial_world))
     = O.
Proof.
  exact (other_generators_untouched (rng := nat) (smote "regular" (RS_int 0))
           (Dense five_points) five_labels initial_world).
Defined.

(** X12 on the five points, no class asking for a sample. *)
Lemma nothing_to_generate_witness :
  fst (_sample (with_ratio (smote "regular" RS_None) [(1%Z, O); (0%Z, O)])
         (Dense five_points) five_labels initial_world)
  = Ok (Dense five_points, five_labels)
  /\ calls (snd (_sample
                   (with_ratio (smote "regular" RS_None) [(1%Z, O); (0%Z, O)])
                   (Dense five_points) five_labels initial_world))
     = [].
Proof.
  apply (nothing_to_generate (rng := nat)
           (with_ratio (smote "regular" RS_None) [(1%Z, O); (0%Z, O)])
           (Dense five_points) five_labels initial_world).
  - simpl. auto.
  - repeat constructor.
Defined.

(** X13 on the five points and the class 1. *)
Lemma class_partition_witness :
  safe_indexing (Dense five_points)
    (flatnonzero (map (fun l => Z.eqb l 1) five_labels))
  = Ok (Dense (mk_ndarray2 2 [[Fin 0; Fin 0]; [Fin 1; Fin 0]; [Fin 0; Fin 1]]))
  /\ safe_indexing (Dense five_points)
       (flatnonzero (map (fun l => negb (Z.eqb l 1)) five_labels))
     = Ok (Dense (mk_ndarray2 2 [[Fin 5; Fin 5]; [Fin 6; Fin 5]]))
  /\ (3 + 2 = 5)%nat.
Proof.
  apply (class_partition five_points five_labels 1%Z). simpl. lia.
Defined.

(** X14: five labels on the three points. *)
Lemma class_partition_out_of_range_witness :
  safe_indexing (Dense three_points)
    (flatnonzero (map (fun l => Z.eqb l 1) [1; 1; 1; 0; 1]%Z))
  = Raise IndexError.
Proof.
  apply (class_partition_out_of_range (Dense three_points) [1; 1; 1; 0; 1]%Z
           1%Z 4); [reflexivity | simpl; lia].
Defined.

(** X18 on a parameter of a random forest. *)
Lemma prefixed_name_stripped_witness :
  plain_name "random_forest" = true
  /\ strip_est_name "random_forest__max_depth" = "max_depth"%string.
Proof.
  split; [reflexivity|].
  exact (prefixed_name_stripped "random_forest" "max_depth" eq_refl).
Defined.

(** X20: two parameters that differ in their prefix only. *)
Lemma split_est_name_result_witness :
  exists renamed,
    _split_est_name
      [("est_name", 1%nat); ("a__C", 2%nat); ("random_state", 3%nat);
       ("b__C", 4%nat)]%string
    = inr (1%nat, renamed)
    /\ dict_get renamed "C" = Some 4%nat
    /\ dict_get renamed "random_state" = None.
Proof.
  destruct (split_est_name_result
              [("est_name", 1%nat); ("a__C", 2%nat); ("random_state", 3%nat);
               ("b__C", 4%nat)]%string 1%nat)
    as (renamed & Hrun & _ & Hget).
  - unfold is_dict. simpl.
    repeat (constructor; [simpl; intuition discriminate|]). constructor.
  - reflexivity.
  - exists renamed. split; [exact Hrun|].
    split; [exact (Hget "C"%string) | exact (Hget "random_state"%string)].
Defined.

(** X22: two dictionaries that split. *)
Lemma modify_attrs_all_split_witness :
  _modify_grid_search_attrs (fun e : nat => Some (S e))
    (mk_ModelSearchCV (Some 1%nat)
       [[("est_name", 1%nat); ("a__C", 2%nat)]; [("est_name", 7%nat)]]%string
       None)
  = (mk_ModelSearchCV (Some 2%nat) [[("C", 2%nat)]; []]%string
       (Some [1%nat; 7%nat]),
     None)
  /\ (2 = 2)%nat.
Proof.
  exact (modify_attrs_all_split (fun e : nat => Some (S e))
           (mk_ModelSearchCV (Some 1%nat)
              [[("est_name", 1%nat); ("a__C", 2%nat)];
               [("est_name", 7%nat)]]%string None)
           (mk_ModelSearchCV (Some 2%nat)
              [[("est_name", 1%nat); ("a__C", 2%nat)];
               [("est_name", 7%nat)]]%string None)
           [(1%nat, [("C", 2%nat)]%string); (7%nat, [])]
           eq_refl eq_refl).
Defined.

(** X23: the second dictionary has no estimator name. *)
Lemma modify_attrs_partial_witness :
  _modify_grid_search_attrs (fun e : nat => Some (S e))
    (mk_ModelSearchCV (Some 1%nat)
       [[("est_name", 1%nat); ("a__C", 2%nat)]; [("a__C", 2%nat)];
        [("est_name", 7%nat)]]%string
       None)
  = (mk_ModelSearchCV (Some 2%nat)
       [[("C", 2%nat)]; [("a__C", 2%nat)]; [("est_name", 7%nat)]]%string
       None,
     Some (KeyError "est_name")).
Proof.
  exact (modify_attrs_partial (fun e : nat => Some (S e))
           (mk_ModelSearchCV (Some 1%nat)
              [[("est_name", 1%nat); ("a__C", 2%nat)]; [("a__C", 2%nat)];
               [("est_name", 7%nat)]]%string None)
           (mk_ModelSearchCV (Some 2%nat)
              [[("est_name", 1%nat); ("a__C", 2%nat)]; [("a__C", 2%nat)];
               [("est_name", 7%nat)]]%string None)
           [[("est_name", 1%nat); ("a__C", 2%nat)]]%string
           [(1%nat, [("C", 2%nat)]%string)]
           [("a__C", 2%nat)]%string
           [[("est_name", 7%nat)]]%string
           (KeyError "est_name")
           eq_refl eq_refl eq_refl eq_refl).
Defined.

(** X16 on the five points. *)
Lemma regular_pass_is_majority_pass_witness :
  exists r,
    fst (_sample (smote "regular" (RS_int 0)) (Dense five_points) five_labels
           initial_world) = Ok r
    /\ fst (_sample (smote "majority" (RS_int 0)) (Dense five_points)
              five_labels initial_world) = Ok r.
Proof.
  destruct regular_pass_five as [r Hr].
  exists r. split; [exact Hr|].
  exact (regular_pass_is_majority_pass (rng := nat)
           (smote "regular" (RS_int 0)) (Dense five_points) five_labels
           initial_world 0%Z r eq_refl eq_refl Hr).
Defined.
